(** * Column profiler and storage-wrapper coercion: a shallow embedding

    The two Python files of the repository are embedded as Rocq functions:
    - [src/analytics/csv_analyzer.py]   (module [CsvAnalyzer] below),
    - [src/n8n/supaBaseCsvParser.py]    (module [SupaBaseCsvParser] below).

    Python [str] values are modelled by [string]; a character is read as the
    code point of the same number, so the model covers strings whose code
    points are below 256.  Python dictionaries, which iterate in insertion
    order, are association lists with unique keys (module [Dict]).  The
    built-in functions the program calls ([str.strip], [int], [float],
    [csv.reader], ...) are modelled in module [Py] after CPython 3.11. *)

From Stdlib Require Import Bool Arith NArith ZArith QArith Lia List Ascii String.
From Stdlib Require Import Permutation Lqa.
Import ListNotations.
Open Scope string_scope.
Open Scope nat_scope.

(* ================================================================== *)
(** ** Python built-ins used by the program *)
(* ================================================================== *)

Module Py.

(** Exceptions the program can meet, and results of code that may raise. *)
Inductive exn : Type :=
| FileNotFoundError (path : string)
| OSError (msg : string)
| UnicodeDecodeError
| StopIteration
| CsvError (msg : string)
| IndexError
| KeyError (key : string)
| ValueError (msg : string)
| ZeroDivisionError.

Inductive result (A : Type) : Type :=
| Ok (a : A)
| Raise (e : exn).
Arguments Ok {A} a.
Arguments Raise {A} e.

Definition bind {A B : Type} (m : result A) (k : A -> result B) : result B :=
  match m with
  | Ok a => k a
  | Raise e => Raise e
  end.

Notation "x <- m ;; k" := (bind m (fun x => k))
  (at level 61, m at next level, right associativity).
Notation "' p <- m ;; k" := (bind m (fun x => match x with p => k end))
  (at level 61, p pattern, m at next level, right associativity).

Definition code (c : ascii) : nat := nat_of_ascii c.

Definition in_range (lo hi : nat) (c : ascii) : bool :=
  (lo <=? code c) && (code c <=? hi).

(** [str.isspace] on one character: TAB..CR, FS..US, SPACE, NEL, NBSP. *)
Definition isspace (c : ascii) : bool :=
  in_range 9 13 c || in_range 28 32 c || (code c =? 133) || (code c =? 160).

(** The white space [int] and [float] skip at both ends: FS..US are kept. *)
Definition isspace_num (c : ascii) : bool :=
  in_range 9 13 c || (code c =? 32) || (code c =? 133) || (code c =? 160).

(** Decimal digits ([int], [float]) and [str.isdigit] digits (which also
    has the superscripts two, three and one). *)
Definition isdecimal (c : ascii) : bool := in_range 48 57 c.

Definition isdigit_char (c : ascii) : bool :=
  isdecimal c || (code c =? 178) || (code c =? 179) || (code c =? 185).

Fixpoint str_all (p : ascii -> bool) (s : string) : bool :=
  match s with
  | EmptyString => true
  | String c r => p c && str_all p r
  end.

(** [s.isdigit()]: false on the empty string. *)
Definition isdigit (s : string) : bool :=
  match s with
  | EmptyString => false
  | _ => str_all isdigit_char s
  end.

Fixpoint lstrip_with (p : ascii -> bool) (s : string) : string :=
  match s with
  | EmptyString => EmptyString
  | String c r => if p c then lstrip_with p r else s
  end.

Fixpoint rstrip_with (p : ascii -> bool) (s : string) : string :=
  match s with
  | EmptyString => EmptyString
  | String c r =>
      match rstrip_with p r with
      | EmptyString => if p c then EmptyString else String c EmptyString
      | r' => String c r'
      end
  end.

Definition strip_with (p : ascii -> bool) (s : string) : string :=
  rstrip_with p (lstrip_with p s).

(** [s.strip()] *)
Definition strip (s : string) : string := strip_with isspace s.

(** [s.startswith(p)] *)
Definition startswith (p s : string) : bool := String.prefix p s.

(** [p in s] for strings: [p] occurs as a substring of [s]. *)
Fixpoint contains (p s : string) : bool :=
  String.prefix p s ||
  match s with
  | EmptyString => false
  | String _ r => contains p r
  end.

(** [s.split(sep)] for a one-character separator. *)
Fixpoint split (sep : ascii) (s : string) : list string :=
  match s with
  | EmptyString => [EmptyString]
  | String c r =>
      if Ascii.eqb c sep then EmptyString :: split sep r
      else match split sep r with
           | [] => [String c EmptyString]
           | p :: ps => String c p :: ps
           end
  end.

(** [s[:n]] *)
Fixpoint take (n : nat) (s : string) : string :=
  match n, s with
  | O, _ => EmptyString
  | _, EmptyString => EmptyString
  | S n', String c r => String c (take n' r)
  end.

(** [s.lower()] on code points below 256: A..Z and the accented capitals
    U+00C0..U+00DE except the multiplication sign move up by 32. *)
Definition lower_char (c : ascii) : ascii :=
  if in_range 65 90 c || (in_range 192 222 c && negb (code c =? 215))
  then ascii_of_nat (code c + 32) else c.

Fixpoint lower (s : string) : string :=
  match s with
  | EmptyString => EmptyString
  | String c r => String (lower_char c) (lower r)
  end.

(** C's [tolower] in the C locale, which [float] uses for [inf] and [nan]. *)
Definition tolower_ascii (c : ascii) : ascii :=
  if in_range 65 90 c then ascii_of_nat (code c + 32) else c.

Fixpoint lower_ascii (s : string) : string :=
  match s with
  | EmptyString => EmptyString
  | String c r => String (tolower_ascii c) (lower_ascii r)
  end.

(** [s.replace(a, b)] for one-character [a] and [b]. *)
Fixpoint replace (a b : ascii) (s : string) : string :=
  match s with
  | EmptyString => EmptyString
  | String c r => String (if Ascii.eqb c a then b else c) (replace a b r)
  end.

(** [c * n]: a character repeated *)
Fixpoint repeat_char (c : ascii) (n : nat) : string :=
  match n with
  | O => EmptyString
  | S n' => String c (repeat_char c n')
  end.

(** [x in (a, b, ...)] for strings *)
Definition str_in_tuple (x : string) (l : list string) : bool :=
  existsb (String.eqb x) l.

Definition underscore : ascii := "_"%char.

(** *** [int(s)]

    After the white space at both ends is dropped: an optional sign, then
    decimal digits in which single underscores may stand between two digits.
    [scan_digits] is the scanning loop of [long_from_string_base]: it returns
    the value and the number of digits read, or [None] when a character is
    not allowed where it stands. *)
Definition digit_value (c : ascii) : Z := Z.of_nat (code c - 48).

Fixpoint scan_digits (acc : Z) (n : N) (prev_us : bool) (s : string)
  : option (Z * N) :=
  match s with
  | EmptyString => if prev_us then None else Some (acc, n)
  | String c r =>
      if isdecimal c then
        scan_digits (10 * acc + digit_value c)%Z (N.succ n) false r
      else if Ascii.eqb c underscore then
        if prev_us then None else scan_digits acc n true r
      else None
  end.

(** The digit part: not empty, and no leading underscore. *)
Definition scan_number (s : string) : option (Z * N) :=
  match s with
  | EmptyString => None
  | String c _ => if isdecimal c then scan_digits 0%Z 0%N false s else None
  end.

(** The limit of sys.get_int_max_str_digits(): checked only above 640
    digits, and 0 switches it off. *)
Definition too_many_digits (max_str_digits n : N) : bool :=
  (640 <? n)%N && (0 <? max_str_digits)%N && (max_str_digits <? n)%N.

Definition is_plus (c : ascii) : bool := Ascii.eqb c "+"%char.
Definition is_minus (c : ascii) : bool := Ascii.eqb c "-"%char.

(** [int(s)]: [None] stands for ValueError. *)
Definition int_of_str (max_str_digits : N) (s : string) : option Z :=
  let t := strip_with isspace_num s in
  let '(neg, body) :=
    match t with
    | String c r => if is_minus c then (true, r)
                    else if is_plus c then (false, r) else (false, t)
    | EmptyString => (false, t)
    end in
  match scan_number body with
  | Some (v, n) =>
      if too_many_digits max_str_digits n then None
      else Some (if neg then (- v)%Z else v)
  | None => None
  end.

(** *** [float(s)]

    Only whether the conversion succeeds is modelled.  Underscores must
    stand between two digits and are dropped; then: an optional sign and
    either [inf], [infinity] or [nan] in any case, or digits with an
    optional point and an optional exponent, with a digit in the mantissa. *)
Fixpoint drop_underscores (prev : option ascii) (s : string) : option string :=
  match s with
  | EmptyString =>
      match prev with
      | Some p => if Ascii.eqb p underscore then None else Some EmptyString
      | None => Some EmptyString
      end
  | String c r =>
      let prev_digit := match prev with Some p => isdecimal p | None => false end in
      let prev_us := match prev with Some p => Ascii.eqb p underscore | None => false end in
      if Ascii.eqb c underscore then
        if prev_digit then drop_underscores (Some c) r else None
      else if prev_us && negb (isdecimal c) then None
      else match drop_underscores (Some c) r with
           | Some r' => Some (String c r')
           | None => None
           end
  end.

(** Skip a run of digits: how many there were, and what follows. *)
Fixpoint skip_digits (s : string) : nat * string :=
  match s with
  | String c r =>
      if isdecimal c then let '(n, t) := skip_digits r in (S n, t)
      else (O, s)
  | EmptyString => (O, s)
  end.

Definition skip_sign (s : string) : string :=
  match s with
  | String c r => if is_plus c || is_minus c then r else s
  | EmptyString => s
  end.

Definition is_exp_char (c : ascii) : bool :=
  Ascii.eqb c "e"%char || Ascii.eqb c "E"%char.

Definition exponent_ok (s : string) : bool :=
  match s with
  | EmptyString => true
  | String c r =>
      is_exp_char c &&
      let '(n, t) := skip_digits (skip_sign r) in
      (0 <? n) && String.eqb t EmptyString
  end.

Definition decimal_ok (s : string) : bool :=
  let '(n1, r1) := skip_digits s in
  let '(n2, r2) :=
    match r1 with
    | String c r => if Ascii.eqb c "."%char then skip_digits r else (O, r1)
    | EmptyString => (O, r1)
    end in
  (0 <? n1 + n2) && exponent_ok r2.

Definition inf_or_nan (s : string) : bool :=
  let l := lower_ascii s in
  String.eqb l "inf" || String.eqb l "infinity" || String.eqb l "nan".

(** [float(s)] does not raise ValueError. *)
Definition float_ok (s : string) : bool :=
  match drop_underscores None (strip_with isspace_num s) with
  | Some t => let b := skip_sign t in inf_or_nan b || decimal_ok b
  | None => false
  end.

End Py.

(* ================================================================== *)
(** ** Dictionaries: association lists in insertion order *)
(* ================================================================== *)

Module Dict.

Section Ops.
Context {V : Type}.

Definition t : Type := list (string * V).

(** [d.get(k)] *)
Fixpoint get (d : t) (k : string) : option V :=
  match d with
  | [] => None
  | (k', v) :: r => if String.eqb k' k then Some v else get r k
  end.

(** [d[k] = v]: an existing key keeps its place, a new one goes last. *)
Fixpoint set (d : t) (k : string) (v : V) : t :=
  match d with
  | [] => [(k, v)]
  | (k', v') :: r =>
      if String.eqb k' k then (k', v) :: r else (k', v') :: set r k v
  end.

(** [k in d] *)
Definition mem (d : t) (k : string) : bool :=
  match get d k with Some _ => true | None => false end.

Definition keys (d : t) : list string := map fst d.
Definition values (d : t) : list V := map snd d.
End Ops.

Arguments t V : clear implicits.

(** [d[k] += 1] on a [defaultdict(int)] *)
Definition incr (d : t nat) (k : string) : t nat :=
  set d k (S (match get d k with Some n => n | None => 0 end)).

(** [d[k]] on a [defaultdict(int)] that is only read *)
Definition count (d : t nat) (k : string) : nat :=
  match get d k with Some n => n | None => 0 end.

End Dict.

(* ================================================================== *)
(** ** [csv.reader] with the default dialect *)
(* ================================================================== *)

Module Csv.

Import Py.

(** A text file being iterated: the lines it still yields, each with its
    line end, and how the iteration stops after them: at the end of the
    file ([None]) or with an exception such as a decoding error. *)
Record stream : Type := { lines : list string; tail : option exn }.

(** [next(f)] *)
Definition next (f : stream) : result (string * stream) :=
  match lines f with
  | l :: r => Ok (l, {| lines := r; tail := tail f |})
  | [] => match tail f with
          | Some e => Raise e
          | None => Raise StopIteration
          end
  end.

Inductive parser_state : Type :=
| START_RECORD | START_FIELD | IN_FIELD
| IN_QUOTED_FIELD | QUOTE_IN_QUOTED_FIELD | EAT_CRNL.

Record reader : Type :=
  { fields : list string; field : string; state : parser_state }.

Definition parse_reset : reader :=
  {| fields := []; field := ""; state := START_RECORD |}.

Definition field_size_limit : N := 131072.
Definition delimiter : ascii := ","%char.
Definition quotechar : ascii := ascii_of_nat 34.
Definition is_newline (c : ascii) : bool := (code c =? 10) || (code c =? 13).

Definition goto (r : reader) (s : parser_state) : reader :=
  {| fields := fields r; field := field r; state := s |}.

Definition parse_save_field (r : reader) : reader :=
  {| fields := fields r ++ [field r]; field := ""; state := state r |}.

Definition parse_add_char (r : reader) (c : ascii) : result reader :=
  if (N.of_nat (String.length (field r)) <? field_size_limit)%N
  then Ok {| fields := fields r; field := field r ++ String c ""; state := state r |}
  else Raise (CsvError "field larger than field limit (131072)").

Definition start_field (r : reader) (c : ascii) : result reader :=
  if is_newline c then Ok (goto (parse_save_field r) EAT_CRNL)
  else if Ascii.eqb c quotechar then Ok (goto r IN_QUOTED_FIELD)
  else if Ascii.eqb c delimiter then Ok (goto (parse_save_field r) START_FIELD)
  else r' <- parse_add_char r c ;; Ok (goto r' IN_FIELD).

(** [parse_process_char] on a character of the line *)
Definition parse_process_char (r : reader) (c : ascii) : result reader :=
  match state r with
  | START_RECORD =>
      if is_newline c then Ok (goto r EAT_CRNL) else start_field r c
  | START_FIELD => start_field r c
  | IN_FIELD =>
      if is_newline c then Ok (goto (parse_save_field r) EAT_CRNL)
      else if Ascii.eqb c delimiter then Ok (goto (parse_save_field r) START_FIELD)
      else parse_add_char r c
  | IN_QUOTED_FIELD =>
      if Ascii.eqb c quotechar then Ok (goto r QUOTE_IN_QUOTED_FIELD)
      else parse_add_char r c
  | QUOTE_IN_QUOTED_FIELD =>
      if Ascii.eqb c quotechar then
        r' <- parse_add_char r c ;; Ok (goto r' IN_QUOTED_FIELD)
      else if Ascii.eqb c delimiter then Ok (goto (parse_save_field r) START_FIELD)
      else if is_newline c then Ok (goto (parse_save_field r) EAT_CRNL)
      else r' <- parse_add_char r c ;; Ok (goto r' IN_FIELD)
  | EAT_CRNL =>
      if is_newline c then Ok r
      else Raise (CsvError "new-line character seen in unquoted field")
  end.

(** [parse_process_char] on the end-of-line marker *)
Definition parse_process_eol (r : reader) : reader :=
  match state r with
  | START_RECORD => r
  | START_FIELD | IN_FIELD | QUOTE_IN_QUOTED_FIELD =>
      goto (parse_save_field r) START_RECORD
  | IN_QUOTED_FIELD => r
  | EAT_CRNL => goto r START_RECORD
  end.

Fixpoint parse_chars (r : reader) (s : string) : result reader :=
  match s with
  | EmptyString => Ok r
  | String c rest => r' <- parse_process_char r c ;; parse_chars r' rest
  end.

Definition parse_line (r : reader) (line : string) : result reader :=
  r' <- parse_chars r line ;; Ok (parse_process_eol r').

Definition in_quoted (r : reader) : bool :=
  match state r with IN_QUOTED_FIELD => true | _ => false end.

(** The rows the reader yields from the lines it is given, and the
    exception that ends the iteration, if one does.  A record goes on over
    the next line while a quoted field is open. *)
Fixpoint reader_rows (r : reader) (ls : list string) (tl : option exn)
  : list (list string) * option exn :=
  match ls with
  | [] =>
      match tl with
      | Some e => ([], Some e)
      | None =>
          if negb (String.eqb (field r) "") || in_quoted r
          then ([fields (parse_save_field r)], None)
          else ([], None)
      end
  | l :: rest =>
      match parse_line r l with
      | Raise e => ([], Some e)
      | Ok r' =>
          match state r' with
          | START_RECORD =>
              let '(rows, e) := reader_rows parse_reset rest tl in
              (fields r' :: rows, e)
          | _ => reader_rows r' rest tl
          end
      end
  end.

(** [csv.reader(f)] iterated to its end *)
Definition reader_of (f : stream) : list (list string) * option exn :=
  reader_rows parse_reset (lines f) (tail f).

End Csv.

(* ================================================================== *)
(** ** [src/analytics/csv_analyzer.py]: the analysis pass *)
(* ================================================================== *)

Module CsvAnalyzer.

Import Py.

(** The names the source writes as literals, and the interpreter's limit on
    the digits of an integer string, are gathered here; [default_config]
    has the values of the source. *)
Record config : Type :=
  { max_str_digits : N;
    SUBJECT_TERM : string;
    COSPONSOR : string;
    IGNORE_PATTERNS : list string }.

Definition default_config : config :=
  {| max_str_digits := 4300;
     SUBJECT_TERM := "billSubjectTerm";
     COSPONSOR := "Cosponsor";
     IGNORE_PATTERNS := ["Cosponsor"] |}.

(** def should_ignore_column(col_name: str) -> bool *)
Definition should_ignore_column (cfg : config) (col_name : string) : bool :=
  existsb (fun pattern => contains pattern col_name) (IGNORE_PATTERNS cfg).

(** def infer_type(value: str) -> str *)
Definition infer_type (cfg : config) (value : string) : string :=
  if String.eqb value "" || String.eqb (strip value) "" then "empty"
  else
    let value := strip value in
    if startswith "http://" value || startswith "https://" value then "url"
    else if contains "/" value && (String.length value =? 10)
            && (let parts := split "/"%char value in
                (List.length parts =? 3) && forallb isdigit parts)
    then "date"
    else match int_of_str (max_str_digits cfg) value with
         | Some _ => "integer"
         | None => if float_ok value then "float" else "string"
         end.

Record ColumnStat : Type :=
  { total : nat;
    filled : nat;
    empty : nat;
    types : Dict.t nat;
    sample_values : list string }.

Definition new_stat : ColumnStat :=
  {| total := 0; filled := 0; empty := 0; types := []; sample_values := [] |}.

Record cosponsor_stats : Type :=
  { bills_with_cosponsors : nat;
    total_cosponsors : nat;
    avg_per_bill : Q }.

(** What [analyze_csv] returns. *)
Record analysis : Type :=
  { total_rows : nat;
    columns : Dict.t ColumnStat;
    relevant_headers : list string;
    subject_terms : Dict.t nat;
    bills_with_subject_terms : nat;
    cosponsors : cosponsor_stats }.

(** [[i for i, h in enumerate(all_headers) if h == name]] *)
Fixpoint indices_from (i : nat) (name : string) (hs : list string) : list nat :=
  match hs with
  | [] => []
  | h :: r =>
      if String.eqb h name then i :: indices_from (S i) name r
      else indices_from (S i) name r
  end.

Definition indices_of (name : string) (hs : list string) : list nat :=
  indices_from 0 name hs.

Definition str_in (x : string) (l : list string) : bool :=
  existsb (String.eqb x) l.

(** The loop that fills [relevant_headers]; [seen] is the set of names
    already taken. *)
Fixpoint relevant_loop (cfg : config) (hs seen acc : list string) : list string :=
  match hs with
  | [] => acc
  | h :: r =>
      if negb (str_in h seen) && negb (String.eqb h (SUBJECT_TERM cfg))
         && negb (should_ignore_column cfg h)
      then relevant_loop cfg r (h :: seen) (acc ++ [h])
      else relevant_loop cfg r seen acc
  end.

Definition relevant_of (cfg : config) (all_headers : list string) : list string :=
  relevant_loop cfg all_headers [] [].

(** [v and v.strip()] as a condition *)
Definition nonblank (v : string) : bool :=
  negb (String.eqb v "") && negb (String.eqb (strip v) "").

(** [idx < len(row_values) and row_values[idx] and row_values[idx].strip()] *)
Definition cell_nonblank (row_values : list string) (idx : nat) : bool :=
  match nth_error row_values idx with
  | Some v => nonblank v
  | None => false
  end.

(** The state of the loop over the rows. *)
Record acc : Type :=
  { a_total_rows : nat;
    a_stats : Dict.t ColumnStat;
    a_subject_term_counts : Dict.t nat;
    a_bills_with_subject_terms : nat;
    a_total_cosponsors : nat;
    a_bills_with_cosponsors : nat }.

(** Lines 121-126: the terms of one row, and the counts after it. *)
Fixpoint subject_terms_loop (row_values : list string) (idxs : list nat)
    (row_subject_terms : list string) (counts : Dict.t nat)
  : list string * Dict.t nat :=
  match idxs with
  | [] => (row_subject_terms, counts)
  | idx :: r =>
      if cell_nonblank row_values idx then
        let term := strip (nth idx row_values "") in
        subject_terms_loop row_values r (row_subject_terms ++ [term])
                           (Dict.incr counts term)
      else subject_terms_loop row_values r row_subject_terms counts
  end.

(** Lines 132-135 *)
Fixpoint cosponsor_loop (row_values : list string) (idxs : list nat)
    (row_cosponsors : nat) : nat :=
  match idxs with
  | [] => row_cosponsors
  | idx :: r =>
      cosponsor_loop row_values r
        (if cell_nonblank row_values idx then S row_cosponsors else row_cosponsors)
  end.

(** Lines 142-145: the first cell under each relevant name. *)
Fixpoint row_dict_loop (relevant : list string) (row_values : list string)
    (i : nat) (hs : list string) (row_dict : Dict.t string) : Dict.t string :=
  match hs with
  | [] => row_dict
  | h :: r =>
      row_dict_loop relevant row_values (S i) r
        (if str_in h relevant && negb (Dict.mem row_dict h)
         then Dict.set row_dict h (nth i row_values "")
         else row_dict)
  end.

(** Line 159 *)
Definition sample_of (value : string) : string :=
  if 80 <? String.length value then take 80 value ++ "..." else value.

(** Lines 149-164 on the record of one column. *)
Definition update_stat (cfg : config) (st : ColumnStat) (value : string)
  : ColumnStat :=
  if nonblank value then
    {| total := S (total st);
       filled := S (filled st);
       empty := empty st;
       types := Dict.incr (types st) (infer_type cfg value);
       sample_values :=
         if List.length (sample_values st) <? 3 then
           let sample := sample_of value in
           if str_in sample (sample_values st) then sample_values st
           else sample_values st ++ [sample]
         else sample_values st |}
  else
    {| total := S (total st);
       filled := filled st;
       empty := S (empty st);
       types := Dict.incr (types st) "empty";
       sample_values := sample_values st |}.

(** Lines 147-164: [stats[col]] raises KeyError on a missing key. *)
Fixpoint columns_loop (cfg : config) (row_dict : Dict.t string)
    (cols : list string) (stats : Dict.t ColumnStat)
  : result (Dict.t ColumnStat) :=
  match cols with
  | [] => Ok stats
  | col :: r =>
      let value := match Dict.get row_dict col with Some v => v | None => "" end in
      match Dict.get stats col with
      | Some st =>
          columns_loop cfg row_dict r (Dict.set stats col (update_stat cfg st value))
      | None => Raise (KeyError col)
      end
  end.

(** The body of the loop over the rows (lines 118-164). *)
Definition process_row (cfg : config) (all_headers relevant : list string)
    (a : acc) (row_values : list string) : result acc :=
  let subject_term_indices := indices_of (SUBJECT_TERM cfg) all_headers in
  let cosponsor_indices := indices_of (COSPONSOR cfg) all_headers in
  let '(row_subject_terms, counts) :=
    subject_terms_loop row_values subject_term_indices []
                       (a_subject_term_counts a) in
  let row_cosponsors := cosponsor_loop row_values cosponsor_indices 0 in
  let row_dict := row_dict_loop relevant row_values 0 all_headers [] in
  stats <- columns_loop cfg row_dict relevant (a_stats a) ;;
  Ok {| a_total_rows := S (a_total_rows a);
        a_stats := stats;
        a_subject_term_counts := counts;
        a_bills_with_subject_terms :=
          match row_subject_terms with
          | [] => a_bills_with_subject_terms a
          | _ => S (a_bills_with_subject_terms a)
          end;
        a_total_cosponsors :=
          if 0 <? row_cosponsors then a_total_cosponsors a + row_cosponsors
          else a_total_cosponsors a;
        a_bills_with_cosponsors :=
          if 0 <? row_cosponsors then S (a_bills_with_cosponsors a)
          else a_bills_with_cosponsors a |}.

Fixpoint rows_loop (cfg : config) (all_headers relevant : list string)
    (a : acc) (rows : list (list string)) : result acc :=
  match rows with
  | [] => Ok a
  | row_values :: r =>
      a' <- process_row cfg all_headers relevant a row_values ;;
      rows_loop cfg all_headers relevant a' r
  end.

(** Lines 95-114 *)
Definition init_acc (relevant : list string) : acc :=
  {| a_total_rows := 0;
     a_stats := fold_left (fun d col => Dict.set d col new_stat) relevant [];
     a_subject_term_counts := [];
     a_bills_with_subject_terms := 0;
     a_total_cosponsors := 0;
     a_bills_with_cosponsors := 0 |}.

(** Lines 166-177 *)
Definition finish (relevant : list string) (a : acc) : analysis :=
  {| total_rows := a_total_rows a;
     columns := a_stats a;
     relevant_headers := relevant;
     subject_terms := a_subject_term_counts a;
     bills_with_subject_terms := a_bills_with_subject_terms a;
     cosponsors :=
       {| bills_with_cosponsors := a_bills_with_cosponsors a;
          total_cosponsors := a_total_cosponsors a;
          avg_per_bill :=
            if 0 <? a_bills_with_cosponsors a
            then inject_Z (Z.of_nat (a_total_cosponsors a))
                 / inject_Z (Z.of_nat (a_bills_with_cosponsors a))
            else 0%Q |} |}.

(** The pass over the parsed file: header row and data rows. *)
Definition analyze_rows (cfg : config) (all_headers : list string)
    (rows : list (list string)) : result analysis :=
  let relevant := relevant_of cfg all_headers in
  a <- rows_loop cfg all_headers relevant (init_acc relevant) rows ;;
  Ok (finish relevant a).

(** [list(csv.reader([header_line]))[0]] *)
Definition parse_header (header_line : string) : result (list string) :=
  match Csv.reader_rows Csv.parse_reset [header_line] None with
  | (_, Some e) => Raise e
  | ([], None) => Raise IndexError
  | (h :: _, None) => Ok h
  end.

(** def analyze_csv(filepath: str) -> dict[str, Any]

    [open_file] stands for the file system: what [open(filepath)] gives.
    The rows the reader yields before it raises are processed and then
    lost with the exception. *)
Definition analyze_csv (cfg : config) (open_file : string -> result Csv.stream)
    (filepath : string) : result analysis :=
  f <- open_file filepath ;;
  '(_, f) <- Csv.next f ;;
  '(_, f) <- Csv.next f ;;
  '(_, f) <- Csv.next f ;;
  '(header_line, f) <- Csv.next f ;;
  all_headers <- parse_header header_line ;;
  match Csv.reader_of f with
  | (rows, None) => analyze_rows cfg all_headers rows
  | (rows, Some e) =>
      _ <- analyze_rows cfg all_headers rows ;; Raise e
  end.

(* ------------------------------------------------------------------ *)
(** *** The report *)

(** One constructor for each kind of line [print_report] prints.  Colour
    codes and number formatting are left out: a line carries the values it
    shows.  Python floats are taken as exact rationals. *)
Inductive report_line : Type :=
| Title (s : string)
| Rule
| TotalRows (n : nat)
| AnalyzedColumns (n : nat)
| NoneLine
| ColumnName (col : string)
| FillRate (rate : Q) (missing : nat)
| FillRateFilled (rate : Q) (filled missing : nat)
| TypeLine (t : string)
| SampleLine (s : string)
| BillsWithCosponsors (n total : nat) (pct : Q)
| TotalCosponsors (n : nat)
| AvgCosponsors (avg : Q)
| BillsWithTerms (n total : nat) (pct : Q)
| UniqueTerms (n : nat)
| TopTermsTitle
| TermLine (count : nat) (bar : Q) (term : string)
| MoreTerms (n : nat)
| Sql (s : string)
| SqlField (name sql_type : string) (not_null : bool) (rate : option Q).

(** What a piece of printing code did: the lines printed, and the
    exception that stopped it, if one did. *)
Definition printed : Type := list report_line * option exn.

Definition print (l : report_line) : printed := ([l], None).
Definition nothing : printed := ([], None).

Definition and_then (p q : printed) : printed :=
  match p with
  | (ls, None) => ((ls ++ fst q)%list, snd q)
  | (ls, Some e) => (ls, Some e)
  end.

Notation "p >> q" := (and_then p q) (at level 62, left associativity).

(** Print with a value whose computation may raise. *)
Definition with_value {A : Type} (m : result A) (k : A -> printed) : printed :=
  match m with
  | Ok a => k a
  | Raise e => ([], Some e)
  end.

Fixpoint for_each {A : Type} (f : A -> printed) (l : list A) : printed :=
  match l with
  | [] => nothing
  | x :: r => f x >> for_each f r
  end.

Definition of_nat_Q (n : nat) : Q := inject_Z (Z.of_nat n).

(** [a / b] on numbers *)
Definition true_div (a b : nat) : result Q :=
  if b =? 0 then Raise ZeroDivisionError else Ok (of_nat_Q a / of_nat_Q b)%Q.

(** Line 200 *)
Definition fill_rate (st : ColumnStat) : Q :=
  if 0 <? total st
  then ((of_nat_Q (filled st) / of_nat_Q (total st)) * 100)%Q
  else 0%Q.

Definition entry : Type := (string * ColumnStat * Q)%type.

Record buckets : Type :=
  { always_filled : list entry;
    mostly_filled : list entry;
    sometimes_filled : list entry;
    rarely_filled : list entry }.

Definition no_buckets : buckets :=
  {| always_filled := []; mostly_filled := [];
     sometimes_filled := []; rarely_filled := [] |}.

(** Lines 202-209 *)
Definition place (b : buckets) (col : string) (st : ColumnStat) : buckets :=
  let fr := fill_rate st in
  if Qeq_bool fr 100 then
    {| always_filled := always_filled b ++ [(col, st, fr)];
       mostly_filled := mostly_filled b;
       sometimes_filled := sometimes_filled b;
       rarely_filled := rarely_filled b |}
  else if Qle_bool 90 fr then
    {| always_filled := always_filled b;
       mostly_filled := mostly_filled b ++ [(col, st, fr)];
       sometimes_filled := sometimes_filled b;
       rarely_filled := rarely_filled b |}
  else if Qle_bool 50 fr then
    {| always_filled := always_filled b;
       mostly_filled := mostly_filled b;
       sometimes_filled := sometimes_filled b ++ [(col, st, fr)];
       rarely_filled := rarely_filled b |}
  else
    {| always_filled := always_filled b;
       mostly_filled := mostly_filled b;
       sometimes_filled := sometimes_filled b;
       rarely_filled := rarely_filled b ++ [(col, st, fr)] |}.

(** Lines 199-209: the loop over [columns.items()] *)
Definition categorize (cols : Dict.t ColumnStat) : buckets :=
  fold_left (fun b '(col, st) => place b col st) cols no_buckets.

(** [max(l, key=key)]: the first of the largest; ValueError on []. *)
Definition max_by {A : Type} (key : A -> nat) (l : list A) : result A :=
  match l with
  | [] => Raise (ValueError "max() arg is an empty sequence")
  | x :: r =>
      Ok (fold_left (fun best y => if key best <? key y then y else best) r x)
  end.

(** Lines 216, 229, 241, 304 *)
Definition primary_type_all (st : ColumnStat) : result string :=
  kv <- max_by (fun x : string * nat =>
                  if String.eqb (fst x) "empty" then 0 else snd x) (types st) ;;
  Ok (fst kv).

Definition non_empty_types (st : ColumnStat) : Dict.t nat :=
  filter (fun x : string * nat => negb (String.eqb (fst x) "empty")) (types st).

(** Lines 253-256 and 316-317, with the name used when nothing was typed *)
Definition primary_type_non_empty (default : string) (st : ColumnStat)
  : result string :=
  match non_empty_types st with
  | [] => Ok default
  | l => kv <- max_by (fun x : string * nat => snd x) l ;; Ok (fst kv)
  end.

Definition section (title : string) (body : printed) : printed :=
  print (Title title) >> print Rule >> body.

Definition or_none {A : Type} (l : list A) (body : printed) : printed :=
  match l with [] => print NoneLine | _ => body end.

(** Lines 212-222 *)
Definition print_always (l : list entry) : printed :=
  section "ALWAYS FILLED (100%) - Safe for NOT NULL"
    (or_none l (for_each (fun '(col, st, _) =>
       with_value (primary_type_all st) (fun primary_type =>
         print (ColumnName col) >> print (TypeLine primary_type) >>
         match sample_values st with
         | [] => nothing
         | s :: _ => print (SampleLine (take 60 s))
         end)) l)).

(** Lines 225-246 *)
Definition print_partly (title : string) (l : list entry) : printed :=
  section title
    (or_none l (for_each (fun '(col, st, rate) =>
       with_value (primary_type_all st) (fun primary_type =>
         print (ColumnName col) >> print (FillRate rate (empty st)) >>
         print (TypeLine primary_type))) l)).

(** Lines 249-261 *)
Definition print_rarely (l : list entry) : printed :=
  section "RARELY FILLED (<50%) - Optional/NULLABLE"
    (or_none l (for_each (fun '(col, st, rate) =>
       with_value (primary_type_non_empty "N/A" st) (fun primary_type =>
         print (ColumnName col) >>
         print (FillRateFilled rate (filled st) (empty st)) >>
         print (TypeLine primary_type))) l)).

(** [n / total * 100] *)
Definition percent (n total : nat) : result Q :=
  q <- true_div n total ;; Ok (q * 100)%Q.

(** Lines 264-270; the dictionary of the three statistics is never empty. *)
Definition print_cosponsors (a : analysis) : printed :=
  let cs := cosponsors a in
  section "COSPONSOR ANALYSIS"
    (with_value (percent (bills_with_cosponsors cs) (total_rows a)) (fun pct =>
       print (BillsWithCosponsors (bills_with_cosponsors cs) (total_rows a) pct))
     >> print (TotalCosponsors (total_cosponsors cs))
     >> print (AvgCosponsors (avg_per_bill cs))).

(** [sorted(d.items(), key=lambda x: x[1], reverse=True)]: stable. *)
Fixpoint insert_desc (x : string * nat) (l : list (string * nat))
  : list (string * nat) :=
  match l with
  | [] => [x]
  | y :: r => if snd y <? snd x then x :: l else y :: insert_desc x r
  end.

Definition sorted_desc (l : list (string * nat)) : list (string * nat) :=
  fold_left (fun acc x => insert_desc x acc) l [].

(** Lines 285-288: the bar is scaled to the first term's count. *)
Definition print_term (top : nat) (tc : string * nat) : printed :=
  with_value (true_div (snd tc) top) (fun q =>
    print (TermLine (snd tc) (q * 30)%Q (fst tc))).

(** Lines 273-291 *)
Definition print_subject_terms (a : analysis) : printed :=
  section "BILL SUBJECT TERMS ANALYSIS"
    (with_value (percent (bills_with_subject_terms a) (total_rows a)) (fun pct =>
       print (BillsWithTerms (bills_with_subject_terms a) (total_rows a) pct))
     >> print (UniqueTerms (List.length (subject_terms a)))
     >> match sorted_desc (subject_terms a) with
        | [] => nothing
        | (first :: _) as sorted_terms =>
            print TopTermsTitle
            >> for_each (print_term (snd first)) (firstn 30 sorted_terms)
            >> (if 30 <? List.length sorted_terms
                then print (MoreTerms (List.length sorted_terms - 30))
                else nothing)
        end).

(** [col.lower().replace(" ", "_").replace("-", "_")] *)
Definition column_identifier (col : string) : string :=
  replace "-"%char "_"%char (replace " "%char "_"%char (lower col)).

(** Lines 305-311 and 318-324 *)
Definition sql_type_of (primary_type : string) : string :=
  if String.eqb primary_type "date" then "DATE"
  else if String.eqb primary_type "url" then "TEXT"
  else if String.eqb primary_type "integer" then "INTEGER"
  else "TEXT".

(** Lines 294-331 *)
Definition print_schema (b : buckets) : printed :=
  print Rule >> print (Title "RECOMMENDED DB SCHEMA (based on analysis)")
  >> print Rule
  >> print (Sql "```sql") >> print (Sql "CREATE TABLE bills (")
  >> print (Sql "  id UUID PRIMARY KEY DEFAULT gen_random_uuid(),")
  >> for_each (fun '(col, st, _) =>
       with_value (primary_type_all st) (fun primary_type =>
         print (SqlField (column_identifier col) (sql_type_of primary_type)
                         true None)))
       (always_filled b)
  >> for_each (fun '(col, st, rate) =>
       with_value (primary_type_non_empty "string" st) (fun primary_type =>
         print (SqlField (column_identifier col) (sql_type_of primary_type)
                         false (Some rate))))
       (mostly_filled b ++ sometimes_filled b ++ rarely_filled b)%list
  >> print (Sql "  created_at TIMESTAMPTZ DEFAULT NOW()")
  >> print (Sql ");") >> print (Sql "```")
  >> print Rule.

(** def print_report(analysis: dict[str, Any]) -> None *)
Definition print_report (a : analysis) : printed :=
  let b := categorize (columns a) in
  print Rule >> print (Title "CSV DATA ANALYSIS REPORT") >> print Rule
  >> print (TotalRows (total_rows a))
  >> print (AnalyzedColumns (List.length (columns a)))
  >> print_always (always_filled b)
  >> print_partly "MOSTLY FILLED (90-99%) - Consider NULLABLE" (mostly_filled b)
  >> print_partly "SOMETIMES FILLED (50-89%) - NULLABLE" (sometimes_filled b)
  >> print_rarely (rarely_filled b)
  >> print_cosponsors a
  >> print_subject_terms a
  >> print_schema b.

(* ------------------------------------------------------------------ *)
(** *** The entry point *)

(** What the process finds around it. *)
Record world : Type :=
  { argv : list string;
    default_path : string;
    default_path_exists : bool;
    open_file : string -> result Csv.stream }.

Inductive out_line : Type :=
| NoFileSpecified
| Usage
| Analyzing (filepath : string)
| PleaseWait
| ErrorFileNotFound (filepath : string)
| ErrorMessage (e : exn)
| Report (l : report_line).

Definition is_report (l : out_line) : bool :=
  match l with Report _ => true | _ => false end.

(** What a run of the program is: the lines on standard output and the
    exit status. *)
Record run : Type := { stdout : list out_line; exit_status : nat }.

(** The [try] statement of [main] (lines 350-358). *)
Definition analyze_and_report (cfg : config) (w : world) (filepath : string)
  : run :=
  match analyze_csv cfg (open_file w) filepath with
  | Ok a =>
      match print_report a with
      | (ls, None) => {| stdout := map Report ls; exit_status := 0 |}
      | (ls, Some (FileNotFoundError _)) =>
          {| stdout := (map Report ls ++ [ErrorFileNotFound filepath])%list;
             exit_status := 1 |}
      | (ls, Some e) =>
          {| stdout := (map Report ls ++ [ErrorMessage e])%list; exit_status := 1 |}
      end
  | Raise (FileNotFoundError _) =>
      {| stdout := [ErrorFileNotFound filepath]; exit_status := 1 |}
  | Raise e => {| stdout := [ErrorMessage e]; exit_status := 1 |}
  end.

(** Lines 338-345 *)
Definition resolve_path (w : world) : option string :=
  match argv w with
  | _ :: filepath :: _ => Some filepath
  | _ => if default_path_exists w then Some (default_path w) else None
  end.

(** def main() *)
Definition main (cfg : config) (w : world) : run :=
  match resolve_path w with
  | None => {| stdout := [NoFileSpecified; Usage]; exit_status := 1 |}
  | Some filepath =>
      let r := analyze_and_report cfg w filepath in
      {| stdout := Analyzing filepath :: PleaseWait :: stdout r;
         exit_status := exit_status r |}
  end.

End CsvAnalyzer.

(* ================================================================== *)
(** ** [src/n8n/supaBaseCsvParser.py]: scalar coercion *)
(* ================================================================== *)

Module SupaBaseCsvParser.

Import Py.

(** The values [_infer_type] returns.  A float is kept as the text it was
    read from. *)
Inductive value : Type :=
| PyNone
| PyBool (b : bool)
| PyInt (z : Z)
| PyFloat (literal : string)
| PyStr (s : string).

Section Coercion.
(** [int] and [float] on strings; [None] stands for ValueError. *)
Variable int : string -> option Z.
Variable float : string -> option string.

(** def _infer_type(value: str) -> Any; [None] is Python's None. *)
Definition _infer_type (v : option string) : value :=
  match v with
  | None => PyNone
  | Some v =>
      if String.eqb v "" then PyNone
      else if str_in_tuple (lower v) ["null"; "none"; "nil"] then PyNone
      else if str_in_tuple (lower v) ["true"; "yes"; "1"] then PyBool true
      else if str_in_tuple (lower v) ["false"; "no"; "0"] then PyBool false
      else match int v with
           | Some z => PyInt z
           | None =>
               match float v with
               | Some f => PyFloat f
               | None => PyStr v
               end
           end
  end.
End Coercion.

(** [float(s)] as far as it is modelled: the text, when it converts. *)
Definition float_of_str (s : string) : option string :=
  if float_ok s then Some s else None.

(** The function with the interpreter's own [int] and [float]. *)
Definition infer (max_str_digits : N) : option string -> value :=
  _infer_type (int_of_str max_str_digits) float_of_str.

End SupaBaseCsvParser.
(* ================================================================== *)
(** ** Facts about the built-ins *)
(* ================================================================== *)

Module PyFacts.

Import Py.

Lemma string_eqb_empty (s : string) : String.eqb s "" = true <-> s = "".
Proof. apply String.eqb_eq. Qed.

Section Strip.
Variables p q : ascii -> bool.
Hypothesis p_in_q : forall c, p c = true -> q c = true.

(** What [rstrip_with q] returns has nothing left for [p] to strip. *)
Lemma rstrip_rstrip (s : string) :
  rstrip_with p (rstrip_with q s) = rstrip_with q s.
Proof.
  induction s as [|c r IH]; simpl; [reflexivity|].
  destruct (rstrip_with q r) as [|c' r'] eqn:E.
  - destruct (q c) eqn:Q; simpl; [reflexivity|].
    destruct (p c) eqn:P; [|reflexivity].
    apply p_in_q in P. congruence.
  - simpl in IH |- *. rewrite IH. reflexivity.
Qed.

Lemma lstrip_head (s : string) :
  match lstrip_with q s with
  | EmptyString => True
  | String c _ => q c = false
  end.
Proof.
  induction s as [|c r IH]; simpl; [exact I|].
  destruct (q c) eqn:Q; [exact IH|exact Q].
Qed.

Lemma rstrip_head (s : string) :
  match s with
  | EmptyString => True
  | String c _ => q c = false
  end ->
  match rstrip_with q s with
  | EmptyString => True
  | String c _ => q c = false
  end.
Proof.
  destruct s as [|c r]; simpl; [trivial|]. intros Q.
  destruct (rstrip_with q r); [rewrite Q|]; exact Q.
Qed.

Lemma lstrip_fixed (s : string) :
  match s with
  | EmptyString => True
  | String c _ => q c = false
  end -> lstrip_with p s = s.
Proof.
  destruct s as [|c r]; simpl; [reflexivity|]. intros Q.
  destruct (p c) eqn:P; [|reflexivity].
  apply p_in_q in P. congruence.
Qed.

(** Stripping less after stripping more changes nothing. *)
Lemma strip_strip (s : string) :
  strip_with p (strip_with q s) = strip_with q s.
Proof.
  unfold strip_with.
  rewrite (lstrip_fixed (rstrip_with q (lstrip_with q s))).
  - apply rstrip_rstrip.
  - apply rstrip_head, lstrip_head.
Qed.
End Strip.

Lemma isspace_num_isspace (c : ascii) : isspace_num c = true -> isspace c = true.
Proof.
  unfold isspace_num, isspace. rewrite !Bool.orb_true_iff.
  intros [[[H|H]|H]|H]; auto.
  left. left. right. unfold in_range.
  apply Nat.eqb_eq in H. rewrite H. reflexivity.
Qed.

(** [int] finds no white space left on a string [str.strip] returned. *)
Lemma strip_num_strip (s : string) :
  strip_with isspace_num (strip s) = strip s.
Proof. apply strip_strip, isspace_num_isspace. Qed.

(** *** The grammar [int] accepts *)

(** What may follow a digit: nothing, a digit, or an underscore and a digit. *)
Inductive digit_tail : string -> Prop :=
| tail_end : digit_tail ""
| tail_digit (d : ascii) (r : string) :
    isdecimal d = true -> digit_tail r -> digit_tail (String d r)
| tail_sep (d : ascii) (r : string) :
    isdecimal d = true -> digit_tail r ->
    digit_tail (String underscore (String d r)).

(** Digits with single underscores between them. *)
Inductive digit_part : string -> Prop :=
| digit_part_intro (d : ascii) (r : string) :
    isdecimal d = true -> digit_tail r -> digit_part (String d r).

(** An optional sign and the digit part. *)
Inductive int_literal : string -> Prop :=
| lit_unsigned (s : string) : digit_part s -> int_literal s
| lit_plus (s : string) : digit_part s -> int_literal (String "+" s)
| lit_minus (s : string) : digit_part s -> int_literal (String "-" s).

Fixpoint digit_count (s : string) : N :=
  match s with
  | EmptyString => 0
  | String c r => if isdecimal c then N.succ (digit_count r) else digit_count r
  end.

Lemma underscore_not_decimal : isdecimal underscore = false.
Proof. reflexivity. Qed.

Lemma eqb_underscore (c : ascii) :
  Ascii.eqb c underscore = true -> isdecimal c = false.
Proof. intros H. apply Ascii.eqb_eq in H. subst. reflexivity. Qed.

Lemma scan_digits_accepts (s : string) :
  forall acc n,
    (digit_tail s ->
     exists v, scan_digits acc n false s = Some (v, (n + digit_count s)%N)) /\
    (digit_part s ->
     exists v, scan_digits acc n true s = Some (v, (n + digit_count s)%N)).
Proof.
  induction s as [|c r IH]; intros acc n; split; intros H.
  - exists acc. cbn [scan_digits digit_count]. rewrite N.add_0_r. reflexivity.
  - inversion H.
  - inversion H as [|d r' Hd Ht|d r' Hd Ht]; subst.
    + cbn [scan_digits digit_count]. rewrite Hd.
      destruct (proj1 (IH (10 * acc + digit_value c)%Z (N.succ n)) Ht) as [v Hv].
      exists v. rewrite Hv. f_equal. f_equal. lia.
    + cbn [scan_digits digit_count]. rewrite underscore_not_decimal.
      rewrite Ascii.eqb_refl.
      apply (proj2 (IH acc n)). constructor; assumption.
  - inversion H as [d r' Hd Ht]; subst.
    cbn [scan_digits digit_count]. rewrite Hd.
    destruct (proj1 (IH (10 * acc + digit_value c)%Z (N.succ n)) Ht) as [v Hv].
    exists v. rewrite Hv. f_equal. f_equal. lia.
Qed.

Lemma scan_digits_sound (s : string) :
  forall acc n b res,
    scan_digits acc n b s = Some res ->
    if b then digit_part s else digit_tail s.
Proof.
  induction s as [|c r IH]; intros acc n b res H; cbn [scan_digits] in H.
  - destruct b; [discriminate|constructor].
  - destruct (isdecimal c) eqn:Hd.
    + apply IH in H. cbn beta iota in H.
      destruct b; constructor; assumption.
    + destruct (Ascii.eqb c underscore) eqn:Hu; [|discriminate].
      destruct b; [discriminate|].
      apply IH in H. cbn beta iota in H.
      apply Ascii.eqb_eq in Hu. subst c.
      inversion H; subst. constructor; assumption.
  Qed.

Lemma digit_part_head (s : string) :
  digit_part s ->
  match s with String c _ => isdecimal c = true | EmptyString => False end.
Proof. intros H. inversion H; subst. assumption. Qed.

(** [scan_number] accepts exactly the digit parts, and counts their digits. *)
Lemma scan_number_spec (s : string) :
  (digit_part s ->
   exists v, scan_number s = Some (v, digit_count s)) /\
  (forall res, scan_number s = Some res -> digit_part s /\ snd res = digit_count s).
Proof.
  split.
  - intros H. pose proof (digit_part_head s H) as Hh.
    destruct s as [|c r]; [contradiction|].
    unfold scan_number. rewrite Hh.
    inversion H as [d r' Hd Ht]; subst.
    destruct (proj1 (scan_digits_accepts (String c r) 0%Z 0%N)) as [v Hv].
    { constructor; assumption. }
    exists v. rewrite Hv. reflexivity.
  - intros res H. destruct s as [|c r]; [discriminate|].
    unfold scan_number in H. destruct (isdecimal c) eqn:Hd; [|discriminate].
    pose proof (scan_digits_sound _ _ _ _ _ H) as Ht. simpl in Ht.
    inversion Ht as [|d r' Hd' Ht'|]; subst.
    + split; [constructor; assumption|].
      destruct (proj1 (scan_digits_accepts (String c r) 0%Z 0%N) Ht) as [v Hv].
      rewrite Hv in H. inversion H. reflexivity.
    + rewrite underscore_not_decimal in Hd. discriminate.
Qed.

Definition within_limit (max_str_digits : N) (s : string) : Prop :=
  too_many_digits max_str_digits (digit_count s) = false.

Lemma digit_count_sign (c : ascii) (s : string) :
  isdecimal c = false -> digit_count (String c s) = digit_count s.
Proof. intros H. simpl. rewrite H. reflexivity. Qed.

Lemma int_body_spec (m : N) (neg : bool) (body : string) :
  match scan_number body with
  | Some (v, n) =>
      if too_many_digits m n then None
      else Some (if neg then (- v)%Z else v)
  | None => None
  end <> None <->
  digit_part body /\ within_limit m body.
Proof.
  unfold within_limit.
  destruct (scan_number body) as [[v n]|] eqn:E.
  - destruct (proj2 (scan_number_spec body) _ E) as [Hd Hn].
    simpl in Hn. subst n.
    destruct (too_many_digits m (digit_count body)).
    + split; [congruence|intros [_ H]; discriminate].
    + split; [intros _; split; [assumption|reflexivity]|discriminate].
  - split; [congruence|]. intros [H _].
    destruct (proj1 (scan_number_spec body) H) as [v Hv]. congruence.
Qed.

Lemma digit_part_not_sign (c : ascii) (r : string) :
  digit_part (String c r) -> is_minus c = false /\ is_plus c = false.
Proof.
  intros H. inversion H as [d r' Hd Ht]; subst.
  unfold is_minus, is_plus.
  split; destruct (Ascii.eqb_spec c "-"%char), (Ascii.eqb_spec c "+"%char);
    subst; try reflexivity; discriminate.
Qed.

(** [int] succeeds on a string with no white space at its ends exactly when
    the string is an integer literal within the limit on digits. *)
Lemma int_of_str_spec (m : N) (s : string) :
  strip_with isspace_num s = s ->
  (int_of_str m s <> None <-> int_literal s /\ within_limit m s).
Proof.
  intros Hs. unfold int_of_str. rewrite Hs.
  destruct s as [|c r].
  - rewrite (int_body_spec m false ""). split.
    + intros [H _]. inversion H.
    + intros [H _]. inversion H as [s H'|s H'|s H']; inversion H'.
  - destruct (is_minus c) eqn:Hm; [|destruct (is_plus c) eqn:Hp].
    + apply Ascii.eqb_eq in Hm. subst c.
      rewrite (int_body_spec m true r). unfold within_limit.
      rewrite digit_count_sign by reflexivity.
      split.
      * intros [H L]. split; [apply lit_minus|]; assumption.
      * intros [H L]. split; [|assumption].
        inversion H as [s H'|s H'|s H']; subst; [|assumption].
        apply digit_part_not_sign in H'. destruct H' as [H' _]. discriminate.
    + apply Ascii.eqb_eq in Hp. subst c.
      rewrite (int_body_spec m false r). unfold within_limit.
      rewrite digit_count_sign by reflexivity.
      split.
      * intros [H L]. split; [apply lit_plus|]; assumption.
      * intros [H L]. split; [|assumption].
        inversion H as [s H'|s H'|s H']; subst; [|assumption].
        apply digit_part_not_sign in H'. destruct H' as [_ H']. discriminate.
    + rewrite (int_body_spec m false (String c r)).
      split.
      * intros [H L]. split; [apply lit_unsigned|]; assumption.
      * intros [H L]. split; [|assumption].
        inversion H as [s H'|s H'|s H']; subst; [assumption| |].
        -- unfold is_plus in Hp. rewrite Ascii.eqb_refl in Hp. discriminate.
        -- unfold is_minus in Hm. rewrite Ascii.eqb_refl in Hm. discriminate.
Qed.

End PyFacts.

(* ================================================================== *)
(** ** Type inference ([infer_type]) *)
(* ================================================================== *)

Module InferenceFacts.

Import Py PyFacts CsvAnalyzer.

Definition type_tags : list string :=
  ["empty"; "url"; "date"; "integer"; "float"; "string"].

(** The second and third rules of [infer_type], on the stripped value. *)
Definition url_rule (v : string) : bool :=
  startswith "http://" v || startswith "https://" v.

Definition date_rule (v : string) : bool :=
  contains "/" v && (String.length v =? 10)
  && (let parts := split "/"%char v in
      (List.length parts =? 3) && forallb isdigit parts).

Lemma infer_type_rules (cfg : config) (s : string) :
  infer_type cfg s =
  if String.eqb s "" || String.eqb (strip s) "" then "empty"
  else if url_rule (strip s) then "url"
  else if date_rule (strip s) then "date"
  else match int_of_str (max_str_digits cfg) (strip s) with
       | Some _ => "integer"
       | None => if float_ok (strip s) then "float" else "string"
       end.
Proof. reflexivity. Qed.

Lemma infer_type_tag (cfg : config) (s : string) :
  In (infer_type cfg s) type_tags.
Proof.
  rewrite infer_type_rules. unfold type_tags.
  destruct (String.eqb s "" || String.eqb (strip s) ""); [simpl; auto|].
  destruct (url_rule (strip s)); [simpl; auto|].
  destruct (date_rule (strip s)); [simpl; auto|].
  destruct (int_of_str (max_str_digits cfg) (strip s)); [simpl; auto|].
  destruct (float_ok (strip s)); simpl; auto 10.
Qed.

(** A value that is not blank is never typed [empty]. *)
Lemma infer_type_nonblank (cfg : config) (s : string) :
  nonblank s = true -> infer_type cfg s <> "empty".
Proof.
  unfold nonblank. rewrite infer_type_rules. intros H.
  apply Bool.andb_true_iff in H. destruct H as [H1 H2].
  apply Bool.negb_true_iff in H1, H2. rewrite H1, H2. simpl.
  destruct (url_rule (strip s)); [discriminate|].
  destruct (date_rule (strip s)); [discriminate|].
  destruct (int_of_str (max_str_digits cfg) (strip s)); [discriminate|].
  destruct (float_ok (strip s)); discriminate.
Qed.

(** C4: [infer_type] is a function from strings to the six type tags: a
    string has one tag, whatever the number of times it is asked for, and
    the tags of the seven strings of the specification are the stated
    ones; the ISO date is typed [string], not [date]. *)
Theorem infer_type_deterministic (cfg : config) :
  (forall s t1 t2 : string,
      infer_type cfg s = t1 -> infer_type cfg s = t2 -> t1 = t2) /\
  (forall s : string, In (infer_type cfg s) type_tags) /\
  infer_type cfg "" = "empty" /\
  infer_type cfg "2024-01-15" <> "date" /\
  infer_type cfg "2024-01-15" = "string" /\
  infer_type cfg "01/15/2024" = "date" /\
  infer_type cfg "42" = "integer" /\
  infer_type cfg "42.5" = "float" /\
  infer_type cfg "https://example.com" = "url" /\
  infer_type cfg "hello" = "string".
Proof.
  split; [intros s t1 t2 H1 H2; congruence|].
  split; [apply infer_type_tag|].
  repeat split; try reflexivity.
  vm_compute. discriminate.
Qed.

(** The reading of "integer literal" in the specification: an optional
    sign, then decimal digits and nothing else. *)
Definition sign_and_digits (v : string) : bool :=
  let body := match v with
              | String c r => if is_plus c || is_minus c then r else v
              | EmptyString => v
              end in
  negb (String.eqb body "") && str_all isdecimal body.

(** C5, as stated, fails in both directions: [1_000] is typed [integer]
    though an underscore is no digit, and with the interpreter's default
    limit a run of 4301 digits is not typed [integer] but [float]. *)
Lemma infer_type_integer_counterexample :
  (strip "1_000" = "1_000" /\ url_rule "1_000" = false /\
   date_rule "1_000" = false /\
   infer_type default_config "1_000" = "integer" /\
   sign_and_digits "1_000" = false) /\
  (let s := repeat_char "1" 4301 in
   strip s = s /\ url_rule s = false /\ date_rule s = false /\
   infer_type default_config s = "float" /\
   sign_and_digits s = true).
Proof. vm_compute. repeat split. Qed.

(** C5, amended: past the first three rules, a value is typed [integer]
    exactly when it is an optional sign and decimal digits, in which single
    underscores may stand between two digits, and the digits are no more
    than the interpreter's limit allows. *)
Theorem infer_type_integer_iff (cfg : config) (s : string) :
  strip s <> "" ->
  url_rule (strip s) = false ->
  date_rule (strip s) = false ->
  (infer_type cfg s = "integer" <->
   int_literal (strip s) /\ within_limit (max_str_digits cfg) (strip s)).
Proof.
  intros Hne Hurl Hdate.
  rewrite infer_type_rules, Hurl, Hdate.
  assert (Hs : String.eqb s "" = false).
  { destruct s; [exfalso; apply Hne; reflexivity|reflexivity]. }
  assert (Hv : String.eqb (strip s) "" = false).
  { apply String.eqb_neq. assumption. }
  rewrite Hs, Hv. cbn [orb].
  rewrite <- (int_of_str_spec (max_str_digits cfg) (strip s) (strip_num_strip s)).
  destruct (int_of_str (max_str_digits cfg) (strip s)).
  - split; [discriminate|reflexivity].
  - destruct (float_ok (strip s)); split; intros H;
      try discriminate; exfalso; apply H; reflexivity.
Qed.

Lemma infer_type_integer_iff_witness :
  infer_type default_config "1_000" = "integer" <->
  int_literal (strip "1_000") /\ within_limit 4300 (strip "1_000").
Proof.
  apply (infer_type_integer_iff default_config "1_000").
  - vm_compute. discriminate.
  - reflexivity.
  - reflexivity.
Defined.

End InferenceFacts.

(* ================================================================== *)
(** ** Scalar coercion of the storage wrapper ([_infer_type]) *)
(* ================================================================== *)

Module CoercionFacts.

Import Py SupaBaseCsvParser.

Lemma lower_empty (v : string) : lower v = "" -> v = "".
Proof. destruct v; [reflexivity|discriminate]. Qed.

Lemma not_empty_eqb (v : string) : v <> "" -> String.eqb v "" = false.
Proof. apply String.eqb_neq. Qed.

(** C10: whatever [int] and [float] would make of the text, the empty
    string and the texts that lower-case to [null], [none] or [nil] become
    None, those that lower-case to [true], [yes] or [1] become True and
    those that lower-case to [false], [no] or [0] become False; so [0] and
    [1], which [int] reads as numbers, are never returned as integers. *)
Theorem bool_and_null_before_numbers
    (int : string -> option Z) (float : string -> option string) (v : string) :
  (v = "" \/ In (lower v) ["null"; "none"; "nil"] ->
   _infer_type int float (Some v) = PyNone) /\
  (In (lower v) ["true"; "yes"; "1"] ->
   _infer_type int float (Some v) = PyBool true) /\
  (In (lower v) ["false"; "no"; "0"] ->
   _infer_type int float (Some v) = PyBool false) /\
  (forall m : N,
      int_of_str m "1" = Some 1%Z /\ infer m (Some "1") = PyBool true /\
      int_of_str m "0" = Some 0%Z /\ infer m (Some "0") = PyBool false) /\
  (forall z : Z, (v = "0" \/ v = "1") -> _infer_type int float (Some v) <> PyInt z).
Proof.
  unfold _infer_type. split; [|split; [|split; [|split]]].
  - intros [H|H].
    + subst v. reflexivity.
    + destruct (String.eqb v ""); [reflexivity|].
      simpl in H. destruct H as [H|[H|[H|[]]]]; rewrite <- H; reflexivity.
  - intros H. simpl in H.
    destruct H as [H|[H|[H|[]]]]; rewrite <- H;
      rewrite (not_empty_eqb v)
        by (intros E; rewrite E in H; discriminate H); reflexivity.
  - intros H. simpl in H.
    destruct H as [H|[H|[H|[]]]]; rewrite <- H;
      rewrite (not_empty_eqb v)
        by (intros E; rewrite E in H; discriminate H); reflexivity.
  - intros m. repeat split.
  - intros z [H|H]; subst v; simpl; discriminate.
Qed.

Lemma bool_and_null_before_numbers_witness :
  infer 4300 (Some "NULL") = PyNone /\
  infer 4300 (Some "Yes") = PyBool true /\
  infer 4300 (Some "0") = PyBool false.
Proof.
  pose proof (bool_and_null_before_numbers
                (int_of_str 4300) float_of_str "NULL") as [H1 _].
  pose proof (bool_and_null_before_numbers
                (int_of_str 4300) float_of_str "Yes") as [_ [H2 _]].
  pose proof (bool_and_null_before_numbers
                (int_of_str 4300) float_of_str "0") as [_ [_ [H3 _]]].
  split; [|split].
  - apply H1. right. simpl. auto.
  - apply H2. simpl. auto.
  - apply H3. simpl. auto.
Defined.

End CoercionFacts.

(* ================================================================== *)
(** ** Facts about dictionaries *)
(* ================================================================== *)

Module DictFacts.

Section Facts.
Context {V : Type}.
Implicit Types (d : Dict.t V) (k : string) (v : V).

Lemma get_set d k v k' :
  Dict.get (Dict.set d k v) k' = if String.eqb k k' then Some v else Dict.get d k'.
Proof.
  induction d as [|[k0 v0] r IH]; simpl.
  - destruct (String.eqb k k'); reflexivity.
  - destruct (String.eqb_spec k0 k) as [E|N]; simpl.
    + subst k0. destruct (String.eqb k k'); reflexivity.
    + destruct (String.eqb_spec k0 k') as [E'|N'].
      * subst k0. destruct (String.eqb_spec k k'); [congruence|reflexivity].
      * exact IH.
Qed.

Lemma get_None_keys d k : Dict.get d k = None <-> ~ In k (Dict.keys d).
Proof.
  induction d as [|[k0 v0] r IH]; simpl.
  - tauto.
  - destruct (String.eqb_spec k0 k) as [E|N].
    + split; [discriminate|]. intros H. exfalso. apply H. left. exact E.
    + rewrite IH. tauto.
Qed.

Lemma get_Some_keys d k v : Dict.get d k = Some v -> In k (Dict.keys d).
Proof.
  intros H. destruct (in_dec string_dec k (Dict.keys d)) as [I|N]; [exact I|].
  apply get_None_keys in N. congruence.
Qed.

Lemma keys_get d k : In k (Dict.keys d) -> exists v, Dict.get d k = Some v.
Proof.
  intros H. destruct (Dict.get d k) as [v|] eqn:E; [eauto|].
  apply get_None_keys in E. contradiction.
Qed.

Lemma keys_set_old d k v :
  In k (Dict.keys d) -> Dict.keys (Dict.set d k v) = Dict.keys d.
Proof.
  induction d as [|[k0 v0] r IH]; simpl; [contradiction|].
  intros H. destruct (String.eqb_spec k0 k) as [E|N]; simpl; [reflexivity|].
  f_equal. apply IH. destruct H; [contradiction|assumption].
Qed.

Lemma keys_set_new d k v :
  ~ In k (Dict.keys d) -> Dict.keys (Dict.set d k v) = (Dict.keys d ++ [k])%list.
Proof.
  induction d as [|[k0 v0] r IH]; simpl; [reflexivity|].
  intros H. destruct (String.eqb_spec k0 k) as [E|N]; simpl.
  - exfalso. apply H. left. exact E.
  - f_equal. apply IH. tauto.
Qed.

Lemma get_In d k v : Dict.get d k = Some v -> In (k, v) d.
Proof.
  induction d as [|[k0 v0] r IH]; simpl; [discriminate|].
  destruct (String.eqb_spec k0 k) as [E|N].
  - intros H. inversion H. subst. left. reflexivity.
  - intros H. right. apply IH. exact H.
Qed.

Lemma In_get d k v :
  NoDup (Dict.keys d) -> In (k, v) d -> Dict.get d k = Some v.
Proof.
  induction d as [|[k0 v0] r IH]; simpl; [contradiction|].
  intros ND H. inversion ND as [|? ? Hn ND']; subst.
  destruct H as [H|H].
  - inversion H. subst. rewrite String.eqb_refl. reflexivity.
  - destruct (String.eqb_spec k0 k) as [E|N].
    + subst k0. exfalso. apply Hn.
      change (In (fst (k, v)) (map fst r)). apply in_map. exact H.
    + apply IH; assumption.
Qed.
End Facts.

(** *** Counters *)

Lemma count_incr (d : Dict.t nat) (k t : string) :
  Dict.count (Dict.incr d k) t =
  if String.eqb k t then S (Dict.count d t) else Dict.count d t.
Proof.
  unfold Dict.count, Dict.incr. rewrite get_set.
  destruct (String.eqb_spec k t) as [E|N]; [subst; reflexivity|reflexivity].
Qed.

(** Counters that were raised at least once: no key is kept at zero. *)
Definition positive (d : Dict.t nat) : Prop :=
  forall k n, Dict.get d k = Some n -> 0 < n.

Lemma positive_incr (d : Dict.t nat) (k : string) :
  positive d -> positive (Dict.incr d k).
Proof.
  intros H k' n. unfold Dict.incr. rewrite get_set.
  destruct (String.eqb k k').
  - intros E. inversion E. lia.
  - apply H.
Qed.


Lemma sum_values_set (d : Dict.t nat) (k : string) (n : nat) :
  list_sum (Dict.values (Dict.set d k n)) + Dict.count d k =
  list_sum (Dict.values d) + n.
Proof.
  unfold Dict.count, Dict.values.
  induction d as [|[k0 v0] r IH]; simpl; [lia|].
  destruct (String.eqb_spec k0 k) as [E|N]; simpl; lia.
Qed.

(** Raising one counter raises the sum of all of them by one. *)
Lemma sum_values_incr (d : Dict.t nat) (k : string) :
  list_sum (Dict.values (Dict.incr d k)) = S (list_sum (Dict.values d)).
Proof.
  unfold Dict.incr.
  pose proof (sum_values_set d k (S (Dict.count d k))) as H.
  unfold Dict.count in *. lia.
Qed.

End DictFacts.

(* ================================================================== *)
(** ** The analysis pass *)
(* ================================================================== *)

Module AnalysisFacts.

Import Py CsvAnalyzer DictFacts.

Lemma str_in_In (x : string) (l : list string) : str_in x l = true <-> In x l.
Proof.
  unfold str_in. rewrite existsb_exists. split.
  - intros [y [H E]]. apply String.eqb_eq in E. subst. exact H.
  - intros H. exists x. split; [exact H|apply String.eqb_refl].
Qed.

Lemma str_in_false (x : string) (l : list string) :
  str_in x l = false <-> ~ In x l.
Proof.
  rewrite <- str_in_In. destruct (str_in x l); split; congruence.
Qed.

(** *** The relevant headers *)

Lemma relevant_loop_NoDup (cfg : config) (hs : list string) :
  forall seen acc,
    NoDup acc -> (forall x, In x acc -> In x seen) ->
    NoDup (relevant_loop cfg hs seen acc).
Proof.
  induction hs as [|h r IH]; intros seen acc ND Sub; simpl; [exact ND|].
  destruct (str_in h seen) eqn:E; simpl; [apply IH; assumption|].
  destruct (negb (String.eqb h (SUBJECT_TERM cfg))
            && negb (should_ignore_column cfg h)); [|apply IH; assumption].
  apply IH.
  - apply NoDup_app; [exact ND|constructor; [simpl; tauto|constructor]|].
    intros x Hx [Hh|[]]. subst x. apply str_in_false in E.
    apply E, Sub, Hx.
  - intros x Hx. apply in_app_or in Hx. simpl in *.
    destruct Hx as [Hx|[Hx|[]]]; [right; apply Sub; exact Hx|left; exact Hx].
Qed.

Lemma relevant_NoDup (cfg : config) (all_headers : list string) :
  NoDup (relevant_of cfg all_headers).
Proof.
  apply relevant_loop_NoDup; [constructor|intros x []].
Qed.

(** Whatever is taken is a header, is not the tag name and matches no
    ignore pattern. *)
Lemma relevant_loop_In (cfg : config) (hs : list string) :
  forall seen acc x,
    In x (relevant_loop cfg hs seen acc) ->
    In x acc \/
    (In x hs /\ x <> SUBJECT_TERM cfg /\ should_ignore_column cfg x = false).
Proof.
  induction hs as [|h r IH]; intros seen acc x H; simpl in H; [left; exact H|].
  destruct (negb (str_in h seen) && negb (String.eqb h (SUBJECT_TERM cfg))
            && negb (should_ignore_column cfg h)) eqn:E.
  - apply IH in H. destruct H as [H|[H1 H2]].
    + apply in_app_or in H. destruct H as [H|[H|[]]]; [left; exact H|].
      subst x. right. split; [left; reflexivity|].
      apply Bool.andb_true_iff in E. destruct E as [E E3].
      apply Bool.andb_true_iff in E. destruct E as [E1 E2].
      apply Bool.negb_true_iff in E2, E3.
      split; [apply String.eqb_neq; exact E2|exact E3].
    + right. split; [right; exact H1|exact H2].
  - apply IH in H. destruct H as [H|[H1 H2]]; [left; exact H|].
    right. split; [right; exact H1|exact H2].
Qed.

(** *** The initial statistics *)

Definition init_stats (cols : list string) (d : Dict.t ColumnStat)
  : Dict.t ColumnStat :=
  fold_left (fun d col => Dict.set d col new_stat) cols d.

Lemma init_stats_keys (cols : list string) :
  forall d, NoDup (Dict.keys d ++ cols) ->
            Dict.keys (init_stats cols d) = (Dict.keys d ++ cols)%list.
Proof.
  induction cols as [|c r IH]; intros d ND; simpl.
  - rewrite app_nil_r. reflexivity.
  - assert (Hc : ~ In c (Dict.keys d)).
    { intros H. apply NoDup_remove_2 in ND. apply ND.
      apply in_or_app. left. exact H. }
    unfold init_stats in IH. rewrite IH.
    + rewrite keys_set_new by exact Hc. rewrite <- app_assoc. reflexivity.
    + rewrite keys_set_new by exact Hc. rewrite <- app_assoc. exact ND.
Qed.

Lemma init_stats_get (cols : list string) :
  forall d k st,
    (forall st', Dict.get d k = Some st' -> st' = new_stat) ->
    Dict.get (init_stats cols d) k = Some st -> st = new_stat.
Proof.
  induction cols as [|c r IH]; intros d k st Hd H; simpl in H.
  - apply Hd. exact H.
  - apply IH in H; [exact H|].
    intros st'. rewrite get_set. destruct (String.eqb c k).
    + intros E. inversion E. reflexivity.
    + apply Hd.
Qed.

(** *** One row *)

(** The cell [columns_loop] reads for a column in a row. *)
Definition row_value (all_headers relevant row_values : list string)
    (col : string) : string :=
  match Dict.get (row_dict_loop relevant row_values 0 all_headers []) col with
  | Some v => v
  | None => ""
  end.

Section Columns.
Variable cfg : config.
Variable row_dict : Dict.t string.

Let value (col : string) : string :=
  match Dict.get row_dict col with Some v => v | None => "" end.

(** With every column a key of [stats], the loop raises nothing, keeps
    the keys, and updates the record of each listed column once. *)
Lemma columns_loop_spec (cols : list string) :
  forall stats,
    NoDup cols ->
    (forall c, In c cols -> In c (Dict.keys stats)) ->
    exists stats',
      columns_loop cfg row_dict cols stats = Ok stats' /\
      Dict.keys stats' = Dict.keys stats /\
      forall k,
        Dict.get stats' k =
        if str_in k cols
        then option_map (fun st => update_stat cfg st (value k)) (Dict.get stats k)
        else Dict.get stats k.
Proof.
  induction cols as [|c r IH]; intros stats ND Hk.
  - exists stats. repeat split.
  - inversion ND as [|? ? Hc ND']; subst.
    destruct (keys_get stats c (Hk c (or_introl eq_refl))) as [st Hst].
    cbn [columns_loop]. rewrite Hst.
    destruct (IH (Dict.set stats c (update_stat cfg st (value c))) ND')
      as [stats' [Hrun [Hkeys Hget]]].
    { intros c' Hc'. rewrite keys_set_old; [|eapply get_Some_keys; eauto].
      apply Hk. right. exact Hc'. }
    exists stats'. split; [exact Hrun|]. split.
    + rewrite Hkeys. apply keys_set_old. eapply get_Some_keys; eauto.
    + intros k. rewrite Hget, get_set. cbn [str_in existsb].
      fold (str_in k r).
      destruct (String.eqb_spec c k) as [E|N].
      * subst k. rewrite String.eqb_refl. cbn [orb].
        apply str_in_false in Hc. rewrite Hc, Hst. reflexivity.
      * destruct (String.eqb_spec k c) as [E'|_]; [congruence|].
        reflexivity.
Qed.
End Columns.


(** *** The loop over the rows *)

Section Invariant.
Variable cfg : config.
Variable all_headers : list string.

Let relevant : list string := relevant_of cfg all_headers.

(** The cells a column showed in the rows read so far. *)
Definition column_values (rows : list (list string)) (col : string)
  : list string :=
  map (fun row => row_value all_headers relevant row col) rows.

(** A property of a column's record that holds at the start and is kept
    by every update holds after any number of rows. *)
Variable P : list string -> ColumnStat -> Prop.
Hypothesis P_init : P [] new_stat.
Hypothesis P_step :
  forall vs st v, P vs st -> P (vs ++ [v]) (update_stat cfg st v).

Definition acc_inv (seen : list (list string)) (a : acc) : Prop :=
  Dict.keys (a_stats a) = relevant /\
  a_total_rows a = List.length seen /\
  forall k st, Dict.get (a_stats a) k = Some st -> P (column_values seen k) st.

Lemma init_acc_inv : acc_inv [] (init_acc relevant).
Proof.
  unfold acc_inv, init_acc. cbn [a_stats a_total_rows].
  pose proof (relevant_NoDup cfg all_headers) as ND. fold relevant in ND.
  split; [|split; [reflexivity|]].
  - apply (init_stats_keys relevant []). exact ND.
  - intros k st H. apply (init_stats_get relevant [] k st) in H.
    + subst st. exact P_init.
    + discriminate.
Qed.

Lemma process_row_inv (seen : list (list string)) (a : acc)
    (row : list string) :
  acc_inv seen a ->
  exists a',
    process_row cfg all_headers relevant a row = Ok a' /\
    acc_inv (seen ++ [row]) a'.
Proof.
  intros [Hkeys [Hn HP]]. unfold process_row.
  destruct (subject_terms_loop row (indices_of (SUBJECT_TERM cfg) all_headers)
              [] (a_subject_term_counts a)) as [terms counts].
  destruct (columns_loop_spec cfg
              (row_dict_loop relevant row 0 all_headers [])
              relevant (a_stats a))
    as [stats' [Hrun [Hk' Hget]]].
  { apply relevant_NoDup. }
  { intros c Hc. rewrite Hkeys. exact Hc. }
  rewrite Hrun. cbn [bind]. eexists. split; [reflexivity|].
  unfold acc_inv. cbn [a_stats a_total_rows].
  split; [congruence|]. split.
  - rewrite Hn, length_app. simpl. lia.
  - intros k st. rewrite Hget.
    destruct (str_in k relevant) eqn:E.
    + destruct (Dict.get (a_stats a) k) as [st0|] eqn:E0; [|discriminate].
      intros H. inversion H. subst st.
      unfold column_values. rewrite map_app. cbn [map].
      apply P_step. apply HP. exact E0.
    + intros H. exfalso. apply str_in_false in E. apply E.
      rewrite <- Hkeys. eapply get_Some_keys. exact H.
Qed.

Lemma rows_loop_inv (rows : list (list string)) :
  forall seen a,
    acc_inv seen a ->
    exists a',
      rows_loop cfg all_headers relevant a rows = Ok a' /\
      acc_inv (seen ++ rows) a'.
Proof.
  induction rows as [|row r IH]; intros seen a Hinv.
  - exists a. rewrite app_nil_r. split; [reflexivity|exact Hinv].
  - destruct (process_row_inv seen a row Hinv) as [a1 [H1 Hinv1]].
    destruct (IH _ _ Hinv1) as [a' [H' Hinv']].
    exists a'. cbn [rows_loop]. rewrite H1. cbn [bind].
    split; [exact H'|]. rewrite <- app_assoc in Hinv'. exact Hinv'.
Qed.

(** The pass over the rows always returns, with a record for each
    relevant column and for nothing else. *)
Lemma analyze_rows_inv (rows : list (list string)) :
  exists a,
    analyze_rows cfg all_headers rows = Ok a /\
    relevant_headers a = relevant /\
    Dict.keys (columns a) = relevant /\
    total_rows a = List.length rows /\
    forall k st, Dict.get (columns a) k = Some st ->
                 P (column_values rows k) st.
Proof.
  destruct (rows_loop_inv rows [] _ init_acc_inv) as [a' [H [Hk [Hn HP]]]].
  exists (finish relevant a'). unfold analyze_rows. fold relevant.
  rewrite H. cbn [bind]. repeat split; assumption.
Qed.
End Invariant.


(** *** From the file to the rows *)

(** The header row and the data rows of the file at a path, as
    [analyze_csv] reads them: the fifth line on, through the reader. *)
Definition rest_of_file (f : Csv.stream) : Csv.stream :=
  {| Csv.lines := skipn 4 (Csv.lines f); Csv.tail := Csv.tail f |}.

Definition data_rows (f : Csv.stream) : list (list string) :=
  fst (Csv.reader_of (rest_of_file f)).

Definition header_row (f : Csv.stream) : result (list string) :=
  match nth_error (Csv.lines f) 3 with
  | Some header_line => parse_header header_line
  | None => Raise StopIteration
  end.

(** When [analyze_csv] returns, it returns what the pass over the file's
    rows returns. *)
Lemma analyze_csv_Ok (cfg : config) (open_file : string -> result Csv.stream)
    (filepath : string) (a : analysis) :
  analyze_csv cfg open_file filepath = Ok a ->
  exists f all_headers,
    open_file filepath = Ok f /\
    header_row f = Ok all_headers /\
    snd (Csv.reader_of (rest_of_file f)) = None /\
    analyze_rows cfg all_headers (data_rows f) = Ok a.
Proof.
  unfold analyze_csv. intros H.
  destruct (open_file filepath) as [f|e] eqn:Hf; [|discriminate].
  cbn [bind] in H. exists f.
  destruct f as [ls tl].
  destruct ls as [|l1 ls]; [destruct tl; discriminate|].
  destruct ls as [|l2 ls]; [destruct tl; discriminate|].
  destruct ls as [|l3 ls]; [destruct tl; discriminate|].
  destruct ls as [|l4 ls]; [destruct tl; discriminate|].
  cbn [bind Csv.next Csv.lines Csv.tail] in H.
  unfold header_row, data_rows, rest_of_file.
  cbn [Csv.lines Csv.tail nth_error skipn].
  destruct (parse_header l4) as [h|e] eqn:Hh; [|cbn [bind] in H; discriminate].
  cbn [bind] in H. exists h.
  destruct (Csv.reader_of {| Csv.lines := ls; Csv.tail := tl |}) as [rows [e|]].
  - destruct (analyze_rows cfg h rows); cbn [bind] in H; discriminate.
  - repeat split. exact H.
Qed.


(** A property of a column's record kept by every update holds of every
    record of the analysis of a file, for the cells the column showed. *)
Lemma analyze_csv_inv (cfg : config) (P : list string -> ColumnStat -> Prop)
    (open_file : string -> result Csv.stream) (filepath : string)
    (a : analysis) :
  P [] new_stat ->
  (forall vs st v, P vs st -> P (vs ++ [v])%list (update_stat cfg st v)) ->
  analyze_csv cfg open_file filepath = Ok a ->
  exists f all_headers,
    open_file filepath = Ok f /\
    header_row f = Ok all_headers /\
    relevant_headers a = relevant_of cfg all_headers /\
    Dict.keys (columns a) = relevant_of cfg all_headers /\
    total_rows a = List.length (data_rows f) /\
    forall col st,
      In (col, st) (columns a) ->
      P (column_values cfg all_headers (data_rows f) col) st.
Proof.
  intros P0 PS H. apply analyze_csv_Ok in H.
  destruct H as [f [h [Hf [Hh [_ Hrows]]]]].
  destruct (analyze_rows_inv cfg h P P0 PS (data_rows f))
    as [a0 [H0 [Hrel [Hkeys [Hn HP]]]]].
  rewrite Hrows in H0. inversion H0. subst a0. clear H0.
  exists f, h. repeat (split; [assumption|]).
  intros col st Hin. apply HP, In_get; [|exact Hin].
  rewrite Hkeys. apply relevant_NoDup.
Qed.

(** *** Counts of one column *)

Definition counts_ok (vs : list string) (st : ColumnStat) : Prop :=
  filled st + empty st = total st /\
  total st = List.length vs /\
  list_sum (Dict.values (types st)) = total st.

Lemma counts_ok_init : counts_ok [] new_stat.
Proof. repeat split. Qed.

Lemma counts_ok_step (cfg : config) (vs : list string) (st : ColumnStat)
    (v : string) :
  counts_ok vs st -> counts_ok (vs ++ [v]) (update_stat cfg st v).
Proof.
  intros [H1 [H2 H3]]. unfold counts_ok, update_stat.
  rewrite length_app. cbn [List.length].
  destruct (nonblank v); cbn [total filled empty types];
    rewrite sum_values_incr; repeat split; lia.
Qed.

(** C3: when the pass over a file returns, every relevant column has a
    record, and in each record the filled and the empty cells add up to
    the total, the total is the number of data rows read from the file,
    and the counts of the type histogram, the [empty] tag included, add up
    to the total. *)
Theorem column_counts_consistent (cfg : config)
    (open_file : string -> result Csv.stream) (filepath : string)
    (a : analysis) :
  analyze_csv cfg open_file filepath = Ok a ->
  exists f,
    open_file filepath = Ok f /\
    total_rows a = List.length (data_rows f) /\
    Dict.keys (columns a) = relevant_headers a /\
    forall col st,
      In (col, st) (columns a) ->
      filled st + empty st = total st /\
      total st = total_rows a /\
      list_sum (Dict.values (types st)) = total st.
Proof.
  intros H.
  destruct (analyze_csv_inv cfg counts_ok open_file filepath a
              counts_ok_init (counts_ok_step cfg) H)
    as [f [h [Hf [_ [Hrel [Hkeys [Hn HP]]]]]]].
  exists f. split; [exact Hf|]. split; [exact Hn|].
  split; [congruence|].
  intros col st Hin. destruct (HP col st Hin) as [H1 [H2 H3]].
  unfold column_values in H2. rewrite length_map in H2.
  repeat split; congruence.
Qed.

(** *** Samples of one column *)

(** A stored sample comes from a cell: the cell itself when it has at most
    80 characters, its first 80 characters and the marker otherwise. *)
Definition sample_from (s v : string) : Prop :=
  (String.length v <= 80 /\ s = v) \/
  (80 < String.length v /\ s = take 80 v ++ "...").

Lemma sample_of_from (v : string) : sample_from (sample_of v) v.
Proof.
  unfold sample_from, sample_of.
  destruct (80 <? String.length v) eqn:E.
  - right. apply Nat.ltb_lt in E. split; [exact E|reflexivity].
  - left. apply Nat.ltb_ge in E. split; [exact E|reflexivity].
Qed.

Definition samples_ok (vs : list string) (st : ColumnStat) : Prop :=
  List.length (sample_values st) <= 3 /\
  NoDup (sample_values st) /\
  forall s, In s (sample_values st) ->
            exists v, In v vs /\ nonblank v = true /\ sample_from s v.

Lemma samples_ok_init : samples_ok [] new_stat.
Proof.
  repeat split; cbn [sample_values new_stat List.length].
  - lia.
  - constructor.
  - intros s [].
Qed.

Lemma samples_ok_step (cfg : config) (vs : list string) (st : ColumnStat)
    (v : string) :
  samples_ok vs st -> samples_ok (vs ++ [v]) (update_stat cfg st v).
Proof.
  intros [H1 [H2 H3]].
  assert (Hold : forall s, In s (sample_values st) ->
            exists v0, In v0 (vs ++ [v]) /\ nonblank v0 = true /\ sample_from s v0).
  { intros s Hs. destruct (H3 s Hs) as [v0 [Hv0 Hrest]].
    exists v0. split; [apply in_or_app; left; exact Hv0|exact Hrest]. }
  unfold samples_ok, update_stat.
  destruct (nonblank v) eqn:Hnb; cbn [sample_values];
    [|repeat split; assumption].
  destruct (List.length (sample_values st) <? 3) eqn:Hlen;
    [|repeat split; assumption].
  destruct (str_in (sample_of v) (sample_values st)) eqn:Hin;
    [repeat split; assumption|].
  apply Nat.ltb_lt in Hlen. apply str_in_false in Hin.
  split; [rewrite length_app; cbn [List.length]; lia|]. split.
  - apply NoDup_app; [exact H2|constructor; [simpl; tauto|constructor]|].
    intros x Hx [Hy|[]]. subst x. contradiction.
  - intros s Hs. apply in_app_or in Hs. destruct Hs as [Hs|[Hs|[]]].
    + apply Hold. exact Hs.
    + subst s. exists v.
      split; [apply in_or_app; right; left; reflexivity|].
      split; [exact Hnb|apply sample_of_from].
Qed.

(** C7: when the pass over a file returns, the samples of every column
    are at most three, no two of them are the same text, and each is made
    from a non-blank cell the column showed in some data row: the cell
    itself when it has at most 80 characters, its first 80 characters
    followed by the marker otherwise. *)
Theorem samples_bounded_distinct (cfg : config)
    (open_file : string -> result Csv.stream) (filepath : string)
    (a : analysis) :
  analyze_csv cfg open_file filepath = Ok a ->
  exists f all_headers,
    open_file filepath = Ok f /\
    header_row f = Ok all_headers /\
    forall col st,
      In (col, st) (columns a) ->
      List.length (sample_values st) <= 3 /\
      NoDup (sample_values st) /\
      forall s,
        In s (sample_values st) ->
        exists v,
          In v (column_values cfg all_headers (data_rows f) col) /\
          nonblank v = true /\
          ((String.length v <= 80 /\ s = v) \/
           (80 < String.length v /\ s = take 80 v ++ "...")).
Proof.
  intros H.
  destruct (analyze_csv_inv cfg samples_ok open_file filepath a
              samples_ok_init (samples_ok_step cfg) H)
    as [f [h [Hf [Hh [_ [_ [_ HP]]]]]]].
  exists f, h. split; [exact Hf|]. split; [exact Hh|].
  intros col st Hin. destruct (HP col st Hin) as [H1 [H2 H3]].
  split; [exact H1|]. split; [exact H2|].
  intros s Hs. destruct (H3 s Hs) as [v [Hv [Hnb Hfrom]]].
  exists v. split; [exact Hv|]. split; [exact Hnb|exact Hfrom].
Qed.


(** *** The tag frequencies *)

(** The cell of a row in one occurrence column holds the tag [t]. *)
Definition tag_hit (row : list string) (t : string) (idx : nat) : bool :=
  cell_nonblank row idx && String.eqb (strip (nth idx row "")) t.

(** The number of pairs of a row and an occurrence column of the tag field
    in which the trimmed cell is not empty and is [t]. *)
Definition tag_occurrences (cfg : config) (all_headers : list string)
    (rows : list (list string)) (t : string) : nat :=
  list_sum
    (map (fun row =>
            List.length
              (filter (tag_hit row t)
                      (indices_of (SUBJECT_TERM cfg) all_headers)))
         rows).

Lemma tag_occurrences_nil (cfg : config) (all_headers : list string)
    (t : string) :
  tag_occurrences cfg all_headers [] t = 0.
Proof. reflexivity. Qed.

Lemma tag_occurrences_cons (cfg : config) (all_headers : list string)
    (row : list string) (rows : list (list string)) (t : string) :
  tag_occurrences cfg all_headers (row :: rows) t =
  List.length (filter (tag_hit row t) (indices_of (SUBJECT_TERM cfg) all_headers))
  + tag_occurrences cfg all_headers rows t.
Proof. reflexivity. Qed.

Lemma subject_terms_loop_count (row : list string) (t : string)
    (idxs : list nat) :
  forall terms counts,
    Dict.count (snd (subject_terms_loop row idxs terms counts)) t =
    Dict.count counts t + List.length (filter (tag_hit row t) idxs).
Proof.
  induction idxs as [|idx r IH]; intros terms counts;
    cbn [subject_terms_loop filter]; [simpl; lia|].
  unfold tag_hit at 1.
  destruct (cell_nonblank row idx); cbn [andb].
  - rewrite IH, count_incr.
    destruct (String.eqb (strip (nth idx row "")) t); simpl; lia.
  - apply IH.
Qed.

Lemma subject_terms_loop_positive (row : list string) (idxs : list nat) :
  forall terms counts,
    positive counts ->
    positive (snd (subject_terms_loop row idxs terms counts)).
Proof.
  induction idxs as [|idx r IH]; intros terms counts H;
    cbn [subject_terms_loop]; [exact H|].
  destruct (cell_nonblank row idx); apply IH; [apply positive_incr|]; exact H.
Qed.

Lemma process_row_counts (cfg : config) (all_headers relevant : list string)
    (a a' : acc) (row : list string) :
  process_row cfg all_headers relevant a row = Ok a' ->
  a_subject_term_counts a' =
  snd (subject_terms_loop row (indices_of (SUBJECT_TERM cfg) all_headers) []
         (a_subject_term_counts a)).
Proof.
  unfold process_row.
  destruct (subject_terms_loop row _ [] (a_subject_term_counts a))
    as [terms counts].
  destruct (columns_loop cfg _ relevant (a_stats a)); cbn [bind];
    [|discriminate].
  intros H. inversion H. reflexivity.
Qed.

Lemma rows_loop_counts (cfg : config) (all_headers relevant : list string)
    (rows : list (list string)) :
  forall a a',
    rows_loop cfg all_headers relevant a rows = Ok a' ->
    positive (a_subject_term_counts a) ->
    positive (a_subject_term_counts a') /\
    forall t,
      Dict.count (a_subject_term_counts a') t =
      Dict.count (a_subject_term_counts a) t
      + tag_occurrences cfg all_headers rows t.
Proof.
  induction rows as [|row r IH]; intros a a' H Hpos; cbn [rows_loop] in H.
  - inversion H. subst a'. split; [exact Hpos|].
    intros t. rewrite tag_occurrences_nil. lia.
  - destruct (process_row cfg all_headers relevant a row) as [a1|e] eqn:E;
      cbn [bind] in H; [|discriminate].
    apply process_row_counts in E.
    destruct (IH a1 a' H) as [Hpos' Hcount].
    { rewrite E. apply subject_terms_loop_positive. exact Hpos. }
    split; [exact Hpos'|].
    intros t. rewrite Hcount, E, subject_terms_loop_count.
    rewrite tag_occurrences_cons. lia.
Qed.




(** *** Occurrences, counted from the header *)










(** A row holding a tag in two occurrence columns counts for two, and the
    order the tags were first seen in is the only difference. *)
Example tag_counted_per_occurrence :
  analyze_rows default_config ["billSubjectTerm"; "billSubjectTerm"]
               [["x"; "x"]; ["y"; " "]]
  = Ok {| total_rows := 2; columns := []; relevant_headers := [];
          subject_terms := [("x", 2); ("y", 1)];
          bills_with_subject_terms := 2;
          cosponsors := {| bills_with_cosponsors := 0; total_cosponsors := 0;
                           avg_per_bill := 0 |} |} /\
  analyze_rows default_config ["billSubjectTerm"; "billSubjectTerm"]
               [["y"; " "]; ["x"; "x"]]
  = Ok {| total_rows := 2; columns := []; relevant_headers := [];
          subject_terms := [("y", 1); ("x", 2)];
          bills_with_subject_terms := 2;
          cosponsors := {| bills_with_cosponsors := 0; total_cosponsors := 0;
                           avg_per_bill := 0 |} |}.
Proof. split; reflexivity. Qed.

End AnalysisFacts.

(* ================================================================== *)
(** ** Scenarios on concrete files *)
(* ================================================================== *)

Module Scenarios.

Import Py CsvAnalyzer AnalysisFacts.

Definition LF : string := String (ascii_of_nat 10) "".

(** A readable file with the given lines, each ended by a line feed. *)
Definition file_of_lines (ls : list string) : Csv.stream :=
  {| Csv.lines := map (fun l => l ++ LF) ls; Csv.tail := None |}.

Definition only (f : Csv.stream) : string -> result Csv.stream :=
  fun _ => Ok f.

(** Three lines of metadata, the header [A,B,B] and two data rows. *)
Definition scenario_file : Csv.stream :=
  file_of_lines ["meta 1"; "meta 2"; "meta 3"; "A,B,B"; "1,,x"; "2,y,"].

(** The configuration of the source with [B] as the tag field. *)
Definition tag_B : config :=
  {| max_str_digits := 4300;
     SUBJECT_TERM := "B";
     COSPONSOR := "Cosponsor";
     IGNORE_PATTERNS := ["Cosponsor"] |}.

Definition no_cosponsors : cosponsor_stats :=
  {| bills_with_cosponsors := 0; total_cosponsors := 0; avg_per_bill := 0 |}.

Definition column_A : ColumnStat :=
  {| total := 2; filled := 2; empty := 0;
     types := [("integer", 2)]; sample_values := ["1"; "2"] |}.

Definition column_B : ColumnStat :=
  {| total := 2; filled := 1; empty := 1;
     types := [("empty", 1); ("string", 1)]; sample_values := ["y"] |}.

(** C1, as stated, fails.  With [B] as the tag field no column named [B]
    is a relevant column, so there is no record for [B], and both [B]
    columns are occurrence columns of the tag: [y] is counted as well as
    [x], and both rows have a tag.  With the tag name of the source, the
    first [B] does get a record with total 2 and filled 1, but then no
    column is a tag column and the frequencies are empty. *)
Lemma scenario_counterexample :
  (exists a,
      analyze_csv tag_B (only scenario_file) "bills.csv" = Ok a /\
      relevant_headers a = ["A"] /\
      Dict.get (columns a) "B" = None /\
      subject_terms a = [("x", 1); ("y", 1)] /\
      bills_with_subject_terms a = 2) /\
  (exists a,
      analyze_csv default_config (only scenario_file) "bills.csv" = Ok a /\
      relevant_headers a = ["A"; "B"] /\
      Dict.get (columns a) "B" = Some column_B /\
      subject_terms a = [] /\
      bills_with_subject_terms a = 0).
Proof.
  split; eexists; (split; [vm_compute; reflexivity|]); repeat split.
Qed.

(** C1, amended: with [B] as the tag field, the relevant columns are [A]
    alone, with total 2, filled 2 and two integers; the tag frequencies
    are one for [x] and one for [y], from two rows with a tag; the empty
    cells are not counted. *)
Theorem scenario_tag_B :
  analyze_csv tag_B (only scenario_file) "bills.csv" =
  Ok {| total_rows := 2;
        columns := [("A", column_A)];
        relevant_headers := ["A"];
        subject_terms := [("x", 1); ("y", 1)];
        bills_with_subject_terms := 2;
        cosponsors := no_cosponsors |}.
Proof. vm_compute. reflexivity. Qed.

Definition scenario_analysis : analysis :=
  {| total_rows := 2;
     columns := [("A", column_A); ("B", column_B)];
     relevant_headers := ["A"; "B"];
     subject_terms := [];
     bills_with_subject_terms := 0;
     cosponsors := no_cosponsors |}.

Lemma scenario_default :
  analyze_csv default_config (only scenario_file) "bills.csv" = Ok scenario_analysis.
Proof. vm_compute. reflexivity. Qed.

Lemma column_counts_consistent_witness :
  exists f,
    only scenario_file "bills.csv" = Ok f /\
    total_rows scenario_analysis = List.length (data_rows f) /\
    Dict.keys (columns scenario_analysis) = relevant_headers scenario_analysis /\
    forall col st,
      In (col, st) (columns scenario_analysis) ->
      filled st + empty st = total st /\
      total st = total_rows scenario_analysis /\
      list_sum (Dict.values (types st)) = total st.
Proof.
  apply (column_counts_consistent default_config (only scenario_file)
           "bills.csv" scenario_analysis).
  vm_compute. reflexivity.
Defined.

Lemma samples_bounded_distinct_witness :
  exists f all_headers,
    only scenario_file "bills.csv" = Ok f /\
    header_row f = Ok all_headers /\
    forall col st,
      In (col, st) (columns scenario_analysis) ->
      List.length (sample_values st) <= 3 /\
      NoDup (sample_values st) /\
      forall s,
        In s (sample_values st) ->
        exists v,
          In v (column_values default_config all_headers (data_rows f) col) /\
          nonblank v = true /\
          ((String.length v <= 80 /\ s = v) \/
           (80 < String.length v /\ s = take 80 v ++ "...")).
Proof.
  apply (samples_bounded_distinct default_config (only scenario_file)
           "bills.csv" scenario_analysis).
  vm_compute. reflexivity.
Defined.

(** A long cell is stored as its first 80 characters and the marker, and
    a fourth distinct value is not stored. *)
Example samples_truncated :
  let long := repeat_char "a" 81 in
  exists a,
    analyze_rows default_config ["A"]
      [[long]; [long]; ["b"]; ["c"]; ["d"]] = Ok a /\
    columns a =
    [("A", {| total := 5; filled := 5; empty := 0;
              types := [("string", 5)];
              sample_values :=
                [repeat_char "a" 80 ++ "..."; "b"; "c"] |})].
Proof. eexists. split; vm_compute; reflexivity. Qed.

End Scenarios.

(* ================================================================== *)
(** ** The report: buckets *)
(* ================================================================== *)

Module BucketFacts.

Import Py CsvAnalyzer DictFacts.

Local Open Scope Q_scope.

Inductive bucket : Type := Always | Mostly | Sometimes | Rarely.

(** The list of [print_report] a bucket names. *)
Definition select (k : bucket) (b : buckets) : list entry :=
  match k with
  | Always => always_filled b
  | Mostly => mostly_filled b
  | Sometimes => sometimes_filled b
  | Rarely => rarely_filled b
  end.

(** The bucket the conditions of lines 202-209 choose. *)
Definition bucket_of (st : ColumnStat) : bucket :=
  if Qeq_bool (fill_rate st) 100 then Always
  else if Qle_bool 90 (fill_rate st) then Mostly
  else if Qle_bool 50 (fill_rate st) then Sometimes
  else Rarely.

Definition bucket_eqb (j k : bucket) : bool :=
  match j, k with
  | Always, Always | Mostly, Mostly
  | Sometimes, Sometimes | Rarely, Rarely => true
  | _, _ => false
  end.

Lemma bucket_eqb_eq (j k : bucket) : bucket_eqb j k = true <-> j = k.
Proof. destruct j, k; simpl; split; congruence. Qed.

Definition entry_of (kv : string * ColumnStat) : entry :=
  (fst kv, snd kv, fill_rate (snd kv)).

Definition entry_name (e : entry) : string := fst (fst e).

Definition in_bucket (k : bucket) (kv : string * ColumnStat) : bool :=
  bucket_eqb (bucket_of (snd kv)) k.

Lemma select_place (k : bucket) (b : buckets) (col : string)
    (st : ColumnStat) :
  select k (place b col st) =
  (select k b ++ if in_bucket k (col, st) then [entry_of (col, st)] else [])%list.
Proof.
  unfold place, in_bucket, bucket_of, entry_of. cbn [fst snd].
  destruct (Qeq_bool (fill_rate st) 100);
    [|destruct (Qle_bool 90 (fill_rate st));
      [|destruct (Qle_bool 50 (fill_rate st))]];
    destruct k; cbn [select always_filled mostly_filled sometimes_filled
                     rarely_filled bucket_eqb];
    rewrite ?app_nil_r; reflexivity.
Qed.

Lemma select_fold (k : bucket) (cols : Dict.t ColumnStat) :
  forall b,
    select k (fold_left (fun b '(col, st) => place b col st) cols b) =
    (select k b ++ map entry_of (filter (in_bucket k) cols))%list.
Proof.
  induction cols as [|[col st] r IH]; intros b; cbn [fold_left filter].
  - rewrite app_nil_r. reflexivity.
  - rewrite IH, select_place.
    destruct (in_bucket k (col, st)); cbn [map].
    + rewrite <- app_assoc. reflexivity.
    + rewrite app_nil_r. reflexivity.
Qed.

(** A bucket holds, in their order, the columns whose fill rate chooses it. *)
Lemma select_categorize (k : bucket) (cols : Dict.t ColumnStat) :
  select k (categorize cols) = map entry_of (filter (in_bucket k) cols).
Proof.
  unfold categorize. rewrite select_fold. destruct k; reflexivity.
Qed.

Lemma filter_buckets_length (cols : Dict.t ColumnStat) :
  (List.length (filter (in_bucket Always) cols)
   + List.length (filter (in_bucket Mostly) cols)
   + List.length (filter (in_bucket Sometimes) cols)
   + List.length (filter (in_bucket Rarely) cols)
   = List.length cols)%nat.
Proof.
  induction cols as [|[col st] r IH]; [reflexivity|].
  cbn [filter]. unfold in_bucket in *. cbn [snd].
  destruct (bucket_of st); cbn [bucket_eqb List.length]; lia.
Qed.

(** *** Fill rates *)

Lemma of_nat_Q_pos (n : nat) : (0 < n)%nat -> 0 < of_nat_Q n.
Proof.
  intros H. unfold of_nat_Q, Qlt. simpl. lia.
Qed.

Lemma of_nat_Q_le (m n : nat) : (m <= n)%nat -> of_nat_Q m <= of_nat_Q n.
Proof.
  intros H. unfold of_nat_Q, Qle. simpl. lia.
Qed.

Lemma fill_rate_zero (st : ColumnStat) : total st = 0%nat -> fill_rate st == 0.
Proof.
  intros H. unfold fill_rate. rewrite H. reflexivity.
Qed.

Lemma fill_rate_le_100 (st : ColumnStat) :
  (filled st <= total st)%nat -> fill_rate st <= 100.
Proof.
  intros H. unfold fill_rate.
  destruct (0 <? total st)%nat eqn:E; [|discriminate].
  apply Nat.ltb_lt in E.
  assert (Hq : of_nat_Q (filled st) / of_nat_Q (total st) <= 1).
  { apply Qle_shift_div_r; [apply of_nat_Q_pos; exact E|].
    rewrite Qmult_1_l. apply of_nat_Q_le. exact H. }
  setoid_replace 100 with (1 * 100) at 2 by reflexivity.
  apply Qmult_le_compat_r; [exact Hq|discriminate].
Qed.

Lemma bucket_of_Always (st : ColumnStat) :
  bucket_of st = Always <-> fill_rate st == 100.
Proof.
  unfold bucket_of. rewrite <- Qeq_bool_iff.
  destruct (Qeq_bool (fill_rate st) 100); [tauto|].
  destruct (Qle_bool 90 (fill_rate st)); [split; discriminate|].
  destruct (Qle_bool 50 (fill_rate st)); split; discriminate.
Qed.

Lemma Qle_bool_false (x y : Q) : Qle_bool x y = false <-> y < x.
Proof.
  split.
  - intros H. apply Qnot_le_lt. intros L. apply Qle_bool_iff in L. congruence.
  - intros H. destruct (Qle_bool x y) eqn:E; [|reflexivity].
    apply Qle_bool_iff in E. exfalso. exact (Qlt_not_le _ _ H E).
Qed.

Lemma Qeq_bool_false (x y : Q) : Qeq_bool x y = false <-> ~ x == y.
Proof.
  rewrite <- Qeq_bool_iff. destruct (Qeq_bool x y); split; congruence.
Qed.

(** The routing of a fill rate that is at most 100. *)
Lemma bucket_of_ranges (st : ColumnStat) :
  fill_rate st <= 100 ->
  (bucket_of st = Mostly <-> 90 <= fill_rate st /\ fill_rate st < 100) /\
  (bucket_of st = Sometimes <-> 50 <= fill_rate st /\ fill_rate st < 90) /\
  (bucket_of st = Rarely <-> fill_rate st < 50).
Proof.
  intros Hle. unfold bucket_of.
  destruct (Qeq_bool (fill_rate st) 100) eqn:E1;
    [apply Qeq_bool_iff in E1
    |apply Qeq_bool_false in E1;
     assert (Hlt : fill_rate st < 100)
       by (apply Qle_lteq in Hle; destruct Hle; [assumption|contradiction]);
     destruct (Qle_bool 90 (fill_rate st)) eqn:E2;
     [apply Qle_bool_iff in E2
     |apply Qle_bool_false in E2;
      destruct (Qle_bool 50 (fill_rate st)) eqn:E3;
      [apply Qle_bool_iff in E3|apply Qle_bool_false in E3]]];
    (split; [|split]);
    (split;
     [intros H; first [discriminate H | split; lra | lra]
     |intros H; first [reflexivity | exfalso; lra]]).
Qed.

Lemma bucket_of_empty (st : ColumnStat) :
  total st = 0%nat -> bucket_of st = Rarely.
Proof.
  intros H. unfold bucket_of, fill_rate. rewrite H. reflexivity.
Qed.


(** The fill rate of a column with rows is the filled share in percent. *)
Lemma fill_rate_percent (st : ColumnStat) :
  (0 < total st)%nat ->
  fill_rate st == of_nat_Q (filled st) / of_nat_Q (total st) * 100.
Proof.
  intros H. unfold fill_rate.
  apply Nat.ltb_lt in H. rewrite H. reflexivity.
Qed.

(** Comparing the percentage with a whole number is comparing whole
    numbers. *)
Lemma percent_compare (f t : nat) (c : Z) :
  (0 < t)%nat ->
  (inject_Z c <= of_nat_Q f / of_nat_Q t * 100
   <-> (c * Z.of_nat t <= 100 * Z.of_nat f)%Z) /\
  (of_nat_Q f / of_nat_Q t * 100 < inject_Z c
   <-> (100 * Z.of_nat f < c * Z.of_nat t)%Z) /\
  (of_nat_Q f / of_nat_Q t * 100 == inject_Z c
   <-> (100 * Z.of_nat f = c * Z.of_nat t)%Z).
Proof.
  intros H.
  assert (E : of_nat_Q f / of_nat_Q t * 100
              == (100 * Z.of_nat f) # (Pos.of_nat t)).
  { unfold of_nat_Q, Qdiv, Qinv, Qmult, Qeq, inject_Z. cbn [Qnum Qden].
    destruct t as [|t']; [lia|].
    rewrite <- Pos.of_nat_succ. cbn [Z.of_nat Qnum Qden].
    rewrite Pos.mul_1_l, Pos.mul_1_r. ring. }
  rewrite E. unfold Qle, Qlt, Qeq, inject_Z. cbn [Qnum Qden].
  assert (P : Z.pos (Pos.of_nat t) = Z.of_nat t).
  { destruct t as [|t']; [lia|].
    rewrite <- Pos.of_nat_succ. reflexivity. }
  rewrite P. repeat split; intros; lia.
Qed.

(** The routing in whole numbers: what the thresholds ask of the filled
    and total counts of a column. *)
Lemma bucket_of_counts (st : ColumnStat) :
  (filled st <= total st)%nat ->
  (bucket_of st = Always <-> (0 < total st /\ filled st = total st)%nat) /\
  (bucket_of st = Mostly <->
   (0 < total st /\ 90 * total st <= 100 * filled st
    /\ filled st < total st)%nat) /\
  (bucket_of st = Sometimes <->
   (0 < total st /\ 50 * total st <= 100 * filled st
    /\ 100 * filled st < 90 * total st)%nat) /\
  (bucket_of st = Rarely <->
   (total st = 0 \/ 100 * filled st < 50 * total st)%nat).
Proof.
  intros Hle. destruct (Nat.eq_dec (total st) 0) as [H0|Hpos].
  - rewrite (bucket_of_empty st H0).
    repeat split; intros; try discriminate; try reflexivity; try lia;
      left; exact H0.
  - assert (Ht : (0 < total st)%nat) by lia.
    pose proof (bucket_of_Always st) as HA.
    pose proof (bucket_of_ranges st (fill_rate_le_100 st Hle)) as [HM [HS HR]].
    pose proof (fill_rate_percent st Ht) as E.
    destruct (percent_compare (filled st) (total st) 100 Ht) as [_ [L100 E100]].
    destruct (percent_compare (filled st) (total st) 90 Ht) as [G90 [L90 _]].
    destruct (percent_compare (filled st) (total st) 50 Ht) as [G50 [L50 _]].
    change (inject_Z 100) with 100 in *.
    change (inject_Z 90) with 90 in *.
    change (inject_Z 50) with 50 in *.
    rewrite E in HA, HM, HS, HR.
    rewrite HA, HM, HS, HR, E100, L100, G90, L90, G50, L50.
    repeat split; lia.
Qed.

(** C6: the four buckets take every column once and nothing else.  A
    column with rows has the fill rate filled/total in percent, and its
    name is in always-filled exactly when filled = total, in mostly-filled
    when the rate is from 90 to below 100, in sometimes-filled when it is
    from 50 to below 90, in rarely-filled when it is below 50; a column
    with total 0 has fill rate 0 and is rarely-filled.  The thresholds are
    given on the rate and, in whole numbers, on the two counts. *)
Theorem buckets_partition (cols : Dict.t ColumnStat) :
  NoDup (Dict.keys cols) ->
  (forall col st, In (col, st) cols -> (filled st <= total st)%nat) ->
  let b := categorize cols in
  (List.length (always_filled b) + List.length (mostly_filled b)
   + List.length (sometimes_filled b) + List.length (rarely_filled b)
   = List.length cols)%nat /\
  forall col st,
    In (col, st) cols ->
    In (col, st, fill_rate st) (select (bucket_of st) b) /\
    (forall k, In col (map entry_name (select k b)) <-> k = bucket_of st) /\
    (bucket_of st = Always <-> fill_rate st == 100) /\
    (bucket_of st = Mostly <-> 90 <= fill_rate st /\ fill_rate st < 100) /\
    (bucket_of st = Sometimes <-> 50 <= fill_rate st /\ fill_rate st < 90) /\
    (bucket_of st = Rarely <-> fill_rate st < 50) /\
    (total st = 0%nat -> fill_rate st == 0 /\ bucket_of st = Rarely) /\
    ((0 < total st)%nat ->
     fill_rate st == of_nat_Q (filled st) / of_nat_Q (total st) * 100) /\
    (In col (map entry_name (always_filled b)) <->
     (0 < total st /\ filled st = total st)%nat) /\
    (In col (map entry_name (mostly_filled b)) <->
     (0 < total st /\ 90 * total st <= 100 * filled st
      /\ filled st < total st)%nat) /\
    (In col (map entry_name (sometimes_filled b)) <->
     (0 < total st /\ 50 * total st <= 100 * filled st
      /\ 100 * filled st < 90 * total st)%nat) /\
    (In col (map entry_name (rarely_filled b)) <->
     (total st = 0 \/ 100 * filled st < 50 * total st)%nat).
Proof.
  intros ND Hle b. subst b. split.
  - rewrite <- (filter_buckets_length cols).
    change (always_filled (categorize cols)) with (select Always (categorize cols)).
    change (mostly_filled (categorize cols)) with (select Mostly (categorize cols)).
    change (sometimes_filled (categorize cols))
      with (select Sometimes (categorize cols)).
    change (rarely_filled (categorize cols)) with (select Rarely (categorize cols)).
    rewrite !select_categorize, !length_map. reflexivity.
  - intros col st Hin.
    assert (Hmem : forall k, In col (map entry_name (select k (categorize cols)))
                             <-> k = bucket_of st).
    { intros k. rewrite select_categorize, map_map. split.
      - intros H. apply in_map_iff in H. destruct H as [[col' st'] [Hn Hf]].
        unfold entry_name, entry_of in Hn. cbn [fst snd] in Hn. subst col'.
        apply filter_In in Hf. destruct Hf as [Hin' Hb].
        assert (st' = st).
        { apply (In_get cols col st') in Hin'; [|exact ND].
          apply (In_get cols col st) in Hin; [|exact ND]. congruence. }
        subst st'. unfold in_bucket in Hb. cbn [snd] in Hb.
        apply bucket_eqb_eq in Hb. congruence.
      - intros Hk. subst k. apply in_map_iff. exists (col, st).
        split; [reflexivity|]. apply filter_In. split; [exact Hin|].
        unfold in_bucket. apply bucket_eqb_eq. reflexivity. }
    split; [|split; [exact Hmem|]].
    + rewrite select_categorize.
      change (col, st, fill_rate st) with (entry_of (col, st)).
      apply in_map, filter_In. split; [exact Hin|].
      unfold in_bucket. apply bucket_eqb_eq. reflexivity.
    + split; [apply bucket_of_Always|].
      pose proof (bucket_of_ranges st (fill_rate_le_100 st (Hle col st Hin)))
        as [H1 [H2 H3]].
      split; [exact H1|]. split; [exact H2|]. split; [exact H3|].
      split;
        [intros H0; split; [apply fill_rate_zero|apply bucket_of_empty]; exact H0|].
      split; [apply fill_rate_percent|].
      destruct (bucket_of_counts st (Hle col st Hin)) as [CA [CM [CS CR]]].
      pose proof (Hmem Always) as MA. pose proof (Hmem Mostly) as MM.
      pose proof (Hmem Sometimes) as MS. pose proof (Hmem Rarely) as MR.
      cbn [select] in MA, MM, MS, MR.
      split; [rewrite MA, <- CA; split; intros H; symmetry; exact H|].
      split; [rewrite MM, <- CM; split; intros H; symmetry; exact H|].
      split; [rewrite MS, <- CS; split; intros H; symmetry; exact H|].
      rewrite MR, <- CR; split; intros H; symmetry; exact H.
Qed.

Definition stat_of (total filled : nat) : ColumnStat :=
  {| total := total; filled := filled; empty := total - filled;
     types := []; sample_values := [] |}.

Definition five_columns : Dict.t ColumnStat :=
  [("A", stat_of 10 10); ("B", stat_of 10 9); ("C", stat_of 10 5);
   ("D", stat_of 10 4); ("E", stat_of 0 0)].

Example five_columns_buckets :
  map (map entry_name)
      [always_filled (categorize five_columns);
       mostly_filled (categorize five_columns);
       sometimes_filled (categorize five_columns);
       rarely_filled (categorize five_columns)]
  = [["A"]; ["B"]; ["C"]; ["D"; "E"]].
Proof. reflexivity. Qed.

Lemma buckets_partition_witness :
  let b := categorize five_columns in
  (List.length (always_filled b) + List.length (mostly_filled b)
   + List.length (sometimes_filled b) + List.length (rarely_filled b)
   = List.length five_columns)%nat /\
  forall col st,
    In (col, st) five_columns ->
    In (col, st, fill_rate st) (select (bucket_of st) b) /\
    (forall k, In col (map entry_name (select k b)) <-> k = bucket_of st) /\
    (bucket_of st = Always <-> fill_rate st == 100) /\
    (bucket_of st = Mostly <-> 90 <= fill_rate st /\ fill_rate st < 100) /\
    (bucket_of st = Sometimes <-> 50 <= fill_rate st /\ fill_rate st < 90) /\
    (bucket_of st = Rarely <-> fill_rate st < 50) /\
    (total st = 0%nat -> fill_rate st == 0 /\ bucket_of st = Rarely) /\
    ((0 < total st)%nat ->
     fill_rate st == of_nat_Q (filled st) / of_nat_Q (total st) * 100) /\
    (In col (map entry_name (always_filled b)) <->
     (0 < total st /\ filled st = total st)%nat) /\
    (In col (map entry_name (mostly_filled b)) <->
     (0 < total st /\ 90 * total st <= 100 * filled st
      /\ filled st < total st)%nat) /\
    (In col (map entry_name (sometimes_filled b)) <->
     (0 < total st /\ 50 * total st <= 100 * filled st
      /\ 100 * filled st < 90 * total st)%nat) /\
    (In col (map entry_name (rarely_filled b)) <->
     (total st = 0 \/ 100 * filled st < 50 * total st)%nat).
Proof.
  apply (buckets_partition five_columns).
  - unfold five_columns, Dict.keys. cbn [map fst].
    repeat constructor; cbn [In]; intros H;
      repeat (destruct H as [H|H]; [discriminate H|]); exact H.
  - intros col st H. unfold five_columns in H. cbn [In] in H.
    repeat (destruct H as [H|H];
            [inversion H; cbn [stat_of filled total]; lia|]).
    contradiction.
Defined.

End BucketFacts.

(* ================================================================== *)
(** ** The report and the entry point *)
(* ================================================================== *)

Module ReportFacts.

Import Py CsvAnalyzer DictFacts AnalysisFacts BucketFacts.

(** *** Printing that completes, printing that raises *)

Definition completes (p : printed) : Prop := snd p = None.
Definition raises (e : exn) (p : printed) : Prop := snd p = Some e.

Lemma and_then_completes (p q : printed) :
  completes p -> p >> q = ((fst p ++ fst q)%list, snd q).
Proof. destruct p as [ls [e|]]; [discriminate|reflexivity]. Qed.

Lemma and_then_raises (e : exn) (p q : printed) :
  raises e p -> p >> q = p.
Proof.
  destruct p as [ls [e'|]]; [reflexivity|discriminate].
Qed.

Lemma completes_and_then (p q : printed) :
  completes p -> completes q -> completes (p >> q).
Proof. intros Hp Hq. rewrite and_then_completes by exact Hp. exact Hq. Qed.

Lemma completes_print (l : report_line) : completes (print l).
Proof. reflexivity. Qed.

Lemma completes_nothing : completes nothing.
Proof. reflexivity. Qed.

Lemma completes_for_each {A : Type} (f : A -> printed) (l : list A) :
  (forall x, In x l -> completes (f x)) -> completes (for_each f l).
Proof.
  induction l as [|x r IH]; intros H; cbn [for_each]; [reflexivity|].
  apply completes_and_then.
  - apply H. left. reflexivity.
  - apply IH. intros y Hy. apply H. right. exact Hy.
Qed.

Lemma completes_section (title : string) (body : printed) :
  completes body -> completes (section title body).
Proof.
  intros H. unfold section.
  repeat apply completes_and_then; try apply completes_print. exact H.
Qed.

Lemma In_and_then_l (p q : printed) (x : report_line) :
  In x (fst p) -> In x (fst (p >> q)).
Proof.
  destruct p as [ls [e|]]; cbn [and_then fst]; [tauto|].
  intros H. apply in_or_app. left. exact H.
Qed.

Create HintDb printing.

#[local] Hint Resolve completes_and_then completes_print completes_nothing
  completes_section : printing.

(** *** The buckets of an analysis without rows *)

Lemma max_by_cons {A : Type} (key : A -> nat) (x : A) (l : list A) :
  exists y, max_by key (x :: l) = Ok y.
Proof. eexists. reflexivity. Qed.

(** The dominant type over the typed cells is always found. *)
Lemma primary_type_non_empty_Ok (default : string) (st : ColumnStat) :
  exists t, primary_type_non_empty default st = Ok t.
Proof.
  unfold primary_type_non_empty.
  destruct (non_empty_types st) as [|x l]; [eexists; reflexivity|].
  destruct (max_by_cons (fun x : string * nat => snd x) x l) as [y Hy].
  rewrite Hy. eexists. reflexivity.
Qed.

Lemma completes_print_rarely (l : list entry) : completes (print_rarely l).
Proof.
  unfold print_rarely. apply completes_section.
  unfold or_none. destruct l as [|e r]; [reflexivity|].
  apply completes_for_each. intros [[col st] rate] _.
  destruct (primary_type_non_empty_Ok "N/A" st) as [t Ht].
  rewrite Ht. cbn [with_value]. auto with printing.
Qed.

Lemma completes_print_always_nil : completes (print_always []).
Proof. reflexivity. Qed.

Lemma completes_print_partly_nil (title : string) :
  completes (print_partly title []).
Proof. reflexivity. Qed.

Lemma select_empty_totals (cols : Dict.t ColumnStat) (k : bucket) :
  (forall col st, In (col, st) cols -> total st = 0) ->
  k <> Rarely -> select k (categorize cols) = [].
Proof.
  intros H Hk. rewrite select_categorize.
  induction cols as [|[col st] r IH]; [reflexivity|].
  cbn [filter]. unfold in_bucket at 1. cbn [snd].
  rewrite (bucket_of_empty st) by (apply (H col); left; reflexivity).
  destruct k; try contradiction; cbn [bucket_eqb];
    apply IH; intros c s Hin; apply (H c); right; exact Hin.
Qed.

(** Line 268 divides by the number of rows. *)
Lemma print_cosponsors_no_rows (a : analysis) :
  total_rows a = 0 -> raises ZeroDivisionError (print_cosponsors a).
Proof.
  intros H. unfold print_cosponsors, percent, true_div. rewrite H.
  reflexivity.
Qed.

(** With no rows, and so no cell in any column, the report is printed up
    to the title of the cosponsor section and stops there on a division
    by zero. *)
Lemma print_report_no_rows (a : analysis) :
  total_rows a = 0 ->
  (forall col st, In (col, st) (columns a) -> total st = 0) ->
  exists ls,
    print_report a = (ls, Some ZeroDivisionError) /\
    In (TotalRows 0) ls /\
    In (Title "COSPONSOR ANALYSIS") ls.
Proof.
  intros Hn Hcols. unfold print_report.
  change (always_filled (categorize (columns a)))
    with (select Always (categorize (columns a))).
  change (mostly_filled (categorize (columns a)))
    with (select Mostly (categorize (columns a))).
  change (sometimes_filled (categorize (columns a)))
    with (select Sometimes (categorize (columns a))).
  rewrite !(select_empty_totals (columns a)) by (exact Hcols || discriminate).
  rewrite Hn.
  set (prefix := print Rule >> print (Title "CSV DATA ANALYSIS REPORT")
                 >> print Rule >> print (TotalRows 0)
                 >> print (AnalyzedColumns (List.length (columns a)))
                 >> print_always []
                 >> print_partly "MOSTLY FILLED (90-99%) - Consider NULLABLE" []
                 >> print_partly "SOMETIMES FILLED (50-89%) - NULLABLE" []
                 >> print_rarely (rarely_filled (categorize (columns a)))).
  assert (Hp : completes prefix).
  { unfold prefix.
    repeat apply completes_and_then; try apply completes_print;
      try reflexivity.
    apply completes_print_rarely. }
  assert (Hc : raises ZeroDivisionError (prefix >> print_cosponsors a)).
  { rewrite and_then_completes by exact Hp.
    apply print_cosponsors_no_rows. exact Hn. }
  rewrite (and_then_raises _ (prefix >> print_cosponsors a) _ Hc).
  rewrite (and_then_raises _ (prefix >> print_cosponsors a) _ Hc).
  exists (fst (prefix >> print_cosponsors a)).
  split; [|split].
  - rewrite <- Hc. destruct (prefix >> print_cosponsors a). reflexivity.
  - apply In_and_then_l. unfold prefix.
    do 5 apply In_and_then_l. cbn. auto.
  - rewrite and_then_completes by exact Hp. cbn [fst].
    apply in_or_app. right.
    unfold print_cosponsors, section. cbn. auto.
Qed.

(** *** The entry point *)

Lemma main_with_path (cfg : config) (w : world) (filepath : string) :
  resolve_path w = Some filepath ->
  main cfg w =
  {| stdout := Analyzing filepath :: PleaseWait
               :: stdout (analyze_and_report cfg w filepath);
     exit_status := exit_status (analyze_and_report cfg w filepath) |}.
Proof. intros H. unfold main. rewrite H. reflexivity. Qed.

(** C2: for a file with no data row the pass returns with no rows and
    every relevant column at total 0, filled 0 and empty 0, in the
    rarely-filled bucket; but the report is not completed: it stops at
    line 268 on the division by the number of rows, which lines 175 and
    200 guard against and line 268 does not.  The program prints the first
    sections of the report, then the error, and exits with status 1. *)
Theorem report_crashes_without_rows (cfg : config) (w : world)
    (filepath : string) (a : analysis) :
  resolve_path w = Some filepath ->
  analyze_csv cfg (open_file w) filepath = Ok a ->
  total_rows a = 0 ->
  (forall col st,
      In (col, st) (columns a) ->
      total st = 0 /\ filled st = 0 /\ empty st = 0
      /\ bucket_of st = Rarely) /\
  exists ls,
    print_report a = (ls, Some ZeroDivisionError) /\
    In (TotalRows 0) ls /\
    In (Title "COSPONSOR ANALYSIS") ls /\
    stdout (main cfg w) =
      (Analyzing filepath :: PleaseWait :: map Report ls
       ++ [ErrorMessage ZeroDivisionError])%list /\
    exit_status (main cfg w) = 1.
Proof.
  intros Hpath Ha Hn.
  destruct (analyze_csv_inv cfg counts_ok (open_file w) filepath a
              counts_ok_init (counts_ok_step cfg) Ha)
    as [f [h [_ [_ [_ [_ [Hrows Hcols]]]]]]].
  assert (Hzero : forall col st, In (col, st) (columns a) -> total st = 0).
  { intros col st Hin. destruct (Hcols col st Hin) as [_ [H _]].
    unfold column_values in H. rewrite length_map in H. lia. }
  split.
  - intros col st Hin. destruct (Hcols col st Hin) as [H1 _].
    pose proof (Hzero col st Hin) as H0.
    repeat split; try lia. apply bucket_of_empty. exact H0.
  - destruct (print_report_no_rows a Hn Hzero) as [ls [Hr [H1 H2]]].
    exists ls. split; [exact Hr|]. split; [exact H1|]. split; [exact H2|].
    rewrite (main_with_path cfg w filepath Hpath).
    unfold analyze_and_report. rewrite Ha, Hr. split; reflexivity.
Qed.

Definition empty_file : Csv.stream :=
  Scenarios.file_of_lines ["meta 1"; "meta 2"; "meta 3"; "A,B"].

Definition world_of (f : result Csv.stream) : world :=
  {| argv := ["csv_analyzer.py"; "bills.csv"];
     default_path := "../all_bills.csv";
     default_path_exists := false;
     open_file := fun _ => f |}.

Definition empty_analysis : analysis :=
  {| total_rows := 0;
     columns := [("A", new_stat); ("B", new_stat)];
     relevant_headers := ["A"; "B"];
     subject_terms := [];
     bills_with_subject_terms := 0;
     cosponsors := Scenarios.no_cosponsors |}.

(** The run on a file that ends after its header, line by line. *)
Example empty_file_run :
  main default_config (world_of (Ok empty_file)) =
  {| stdout :=
       [Analyzing "bills.csv"; PleaseWait;
        Report Rule; Report (Title "CSV DATA ANALYSIS REPORT"); Report Rule;
        Report (TotalRows 0); Report (AnalyzedColumns 2);
        Report (Title "ALWAYS FILLED (100%) - Safe for NOT NULL");
        Report Rule; Report NoneLine;
        Report (Title "MOSTLY FILLED (90-99%) - Consider NULLABLE");
        Report Rule; Report NoneLine;
        Report (Title "SOMETIMES FILLED (50-89%) - NULLABLE");
        Report Rule; Report NoneLine;
        Report (Title "RARELY FILLED (<50%) - Optional/NULLABLE");
        Report Rule;
        Report (ColumnName "A"); Report (FillRateFilled 0 0 0);
        Report (TypeLine "N/A");
        Report (ColumnName "B"); Report (FillRateFilled 0 0 0);
        Report (TypeLine "N/A");
        Report (Title "COSPONSOR ANALYSIS"); Report Rule;
        ErrorMessage ZeroDivisionError];
     exit_status := 1 |}.
Proof. vm_compute. reflexivity. Qed.

Lemma report_crashes_without_rows_witness :
  (forall col st,
      In (col, st) (columns empty_analysis) ->
      total st = 0 /\ filled st = 0 /\ empty st = 0
      /\ bucket_of st = Rarely) /\
  exists ls,
    print_report empty_analysis = (ls, Some ZeroDivisionError) /\
    In (TotalRows 0) ls /\
    In (Title "COSPONSOR ANALYSIS") ls /\
    stdout (main default_config (world_of (Ok empty_file))) =
      (Analyzing "bills.csv" :: PleaseWait :: map Report ls
       ++ [ErrorMessage ZeroDivisionError])%list /\
    exit_status (main default_config (world_of (Ok empty_file))) = 1.
Proof.
  apply (report_crashes_without_rows default_config (world_of (Ok empty_file))
           "bills.csv" empty_analysis).
  - reflexivity.
  - vm_compute. reflexivity.
  - reflexivity.
Defined.

(** The analysis of a file is what buckets are made of: its records have
    unique names and no more filled cells than cells. *)
Lemma analysis_columns_wellformed (cfg : config)
    (open_file : string -> result Csv.stream) (filepath : string)
    (a : analysis) :
  analyze_csv cfg open_file filepath = Ok a ->
  NoDup (Dict.keys (columns a)) /\
  forall col st, In (col, st) (columns a) -> filled st <= total st.
Proof.
  intros H.
  destruct (analyze_csv_inv cfg counts_ok open_file filepath a
              counts_ok_init (counts_ok_step cfg) H)
    as [f [h [_ [_ [_ [Hkeys [_ Hcols]]]]]]].
  split.
  - rewrite Hkeys. apply relevant_NoDup.
  - intros col st Hin. destruct (Hcols col st Hin) as [H1 _]. lia.
Qed.

(** C9: with a path to read, when the file is missing the program prints
    the diagnostic that names the path and exits with status 1; when the
    analysis pass fails in any way it exits with status 1 and no line of
    the report is printed; and a line of the report is printed only when
    the pass has returned. *)
Theorem failed_analysis_prints_no_report (cfg : config) (w : world)
    (filepath : string) :
  resolve_path w = Some filepath ->
  (forall p,
      open_file w filepath = Raise (FileNotFoundError p) ->
      main cfg w =
      {| stdout := [Analyzing filepath; PleaseWait; ErrorFileNotFound filepath];
         exit_status := 1 |}) /\
  (forall e,
      analyze_csv cfg (open_file w) filepath = Raise e ->
      exit_status (main cfg w) = 1 /\
      forall l, ~ In (Report l) (stdout (main cfg w))) /\
  (forall l,
      In (Report l) (stdout (main cfg w)) ->
      exists a, analyze_csv cfg (open_file w) filepath = Ok a).
Proof.
  intros Hpath. rewrite (main_with_path cfg w filepath Hpath).
  unfold analyze_and_report. split; [|split].
  - intros p Hp. unfold analyze_csv. rewrite Hp. reflexivity.
  - intros e He. rewrite He. cbn [stdout exit_status].
    split; [destruct e; reflexivity|].
    intros l H. destruct H as [H|[H|H]]; try discriminate.
    destruct e; cbn [stdout In] in H;
      destruct H as [H|[]]; discriminate.
  - intros l H. destruct (analyze_csv cfg (open_file w) filepath) as [a|e].
    + exists a. reflexivity.
    + exfalso. cbn [stdout] in H.
      destruct H as [H|[H|H]]; try discriminate.
      destruct e; cbn [stdout In] in H;
        destruct H as [H|[]]; discriminate.
Qed.

Lemma failed_analysis_prints_no_report_witness :
  let w := world_of (Raise (FileNotFoundError "bills.csv")) in
  (forall p,
      open_file w "bills.csv" = Raise (FileNotFoundError p) ->
      main default_config w =
      {| stdout := [Analyzing "bills.csv"; PleaseWait;
                    ErrorFileNotFound "bills.csv"];
         exit_status := 1 |}) /\
  (forall e,
      analyze_csv default_config (open_file w) "bills.csv" = Raise e ->
      exit_status (main default_config w) = 1 /\
      forall l, ~ In (Report l) (stdout (main default_config w))) /\
  (forall l,
      In (Report l) (stdout (main default_config w)) ->
      exists a, analyze_csv default_config (open_file w) "bills.csv" = Ok a).
Proof.
  apply (failed_analysis_prints_no_report default_config
           (world_of (Raise (FileNotFoundError "bills.csv"))) "bills.csv").
  reflexivity.
Defined.

(** Runs that fail in the analysis pass: a missing file, a file of two
    lines, and a file that cannot be decoded after its header. *)
Example failing_runs :
  main default_config (world_of (Raise (FileNotFoundError "bills.csv"))) =
  {| stdout := [Analyzing "bills.csv"; PleaseWait;
                ErrorFileNotFound "bills.csv"];
     exit_status := 1 |} /\
  main default_config (world_of (Ok (Scenarios.file_of_lines ["a"; "b"]))) =
  {| stdout := [Analyzing "bills.csv"; PleaseWait; ErrorMessage StopIteration];
     exit_status := 1 |} /\
  main default_config
       (world_of (Ok {| Csv.lines := Csv.lines Scenarios.scenario_file;
                        Csv.tail := Some UnicodeDecodeError |})) =
  {| stdout := [Analyzing "bills.csv"; PleaseWait;
                ErrorMessage UnicodeDecodeError];
     exit_status := 1 |}.
Proof. repeat split; vm_compute; reflexivity. Qed.

End ReportFacts.

(* ================================================================== *)
(** ** More on the analysis pass: headers and rows *)
(* ================================================================== *)

Module RowFacts.

Import Py CsvAnalyzer DictFacts AnalysisFacts.

(** *** Which headers get a record *)

Lemma relevant_loop_acc (cfg : config) (hs : list string) :
  forall seen acc x, In x acc -> In x (relevant_loop cfg hs seen acc).
Proof.
  induction hs as [|h r IH]; intros seen acc x H; cbn [relevant_loop];
    [exact H|].
  destruct (negb (str_in h seen) && negb (String.eqb h (SUBJECT_TERM cfg))
            && negb (should_ignore_column cfg h)).
  - apply IH. apply in_or_app. left. exact H.
  - apply IH. exact H.
Qed.

Lemma relevant_loop_complete (cfg : config) (hs : list string) :
  forall seen acc x,
    (forall y, In y seen -> In y acc) ->
    In x hs -> x <> SUBJECT_TERM cfg -> should_ignore_column cfg x = false ->
    In x (relevant_loop cfg hs seen acc).
Proof.
  induction hs as [|h r IH]; intros seen acc x Hseen Hin Htag Hign;
    [contradiction|].
  cbn [relevant_loop].
  destruct (str_in h seen) eqn:Es; cbn [negb andb].
  - destruct Hin as [Hin|Hin].
    + subst h. apply relevant_loop_acc, Hseen, str_in_In, Es.
    + apply IH; assumption.
  - destruct (negb (String.eqb h (SUBJECT_TERM cfg))
              && negb (should_ignore_column cfg h)) eqn:Ek.
    + destruct Hin as [Hin|Hin].
      * subst h. apply relevant_loop_acc, in_or_app. right. left. reflexivity.
      * apply IH; try assumption.
        intros y [Hy|Hy]; apply in_or_app;
          [right; left; exact Hy|left; apply Hseen; exact Hy].
    + destruct Hin as [Hin|Hin].
      * subst h. apply String.eqb_neq in Htag. rewrite Htag, Hign in Ek.
        discriminate.
      * apply IH; assumption.
Qed.

(** The relevant headers are, without repetition, exactly the header names
    that are not the tag name and match no ignore pattern. *)
Lemma relevant_of_exactly (cfg : config) (all_headers : list string) :
  NoDup (relevant_of cfg all_headers) /\
  forall x,
    In x (relevant_of cfg all_headers) <->
    In x all_headers /\ x <> SUBJECT_TERM cfg
    /\ should_ignore_column cfg x = false.
Proof.
  split; [apply relevant_NoDup|]. intros x. split.
  - intros H. apply relevant_loop_In in H. destruct H as [[]|H]. exact H.
  - intros [H1 [H2 H3]]. apply relevant_loop_complete; try assumption.
    intros y [].
Qed.

(** The columns of an analysis: one record for each header name of the
    file that is not the tag name and matches no ignore pattern, each name
    once, and no other record. *)
Theorem columns_are_the_kept_headers (cfg : config)
    (open_file : string -> result Csv.stream) (filepath : string)
    (a : analysis) :
  analyze_csv cfg open_file filepath = Ok a ->
  exists f all_headers,
    open_file filepath = Ok f /\
    header_row f = Ok all_headers /\
    Dict.keys (columns a) = relevant_headers a /\
    NoDup (relevant_headers a) /\
    forall x,
      In x (relevant_headers a) <->
      In x all_headers /\ x <> SUBJECT_TERM cfg
      /\ should_ignore_column cfg x = false.
Proof.
  intros H.
  destruct (analyze_csv_inv cfg (fun _ _ => True) open_file filepath a I
              (fun _ _ _ _ => I) H)
    as [f [h [Hf [Hh [Hrel [Hkeys _]]]]]].
  exists f, h. split; [exact Hf|]. split; [exact Hh|].
  split; [congruence|]. rewrite Hrel. apply relevant_of_exactly.
Qed.

Lemma columns_are_the_kept_headers_witness :
  exists f all_headers,
    Scenarios.only Scenarios.scenario_file "bills.csv" = Ok f /\
    header_row f = Ok all_headers /\
    Dict.keys (columns Scenarios.scenario_analysis)
    = relevant_headers Scenarios.scenario_analysis /\
    NoDup (relevant_headers Scenarios.scenario_analysis) /\
    forall x,
      In x (relevant_headers Scenarios.scenario_analysis) <->
      In x all_headers /\ x <> SUBJECT_TERM default_config
      /\ should_ignore_column default_config x = false.
Proof.
  apply (columns_are_the_kept_headers default_config
           (Scenarios.only Scenarios.scenario_file) "bills.csv"
           Scenarios.scenario_analysis).
  vm_compute. reflexivity.
Defined.

(** *** Rows shorter than the header *)

(** A row with empty cells added up to a width. *)
Definition pad_to (width : nat) (row : list string) : list string :=
  (row ++ repeat "" (width - List.length row))%list.

Lemma nonblank_empty : nonblank "" = false.
Proof. reflexivity. Qed.

Lemma cell_nonblank_pad (row : list string) (n idx : nat) :
  cell_nonblank (row ++ repeat "" n) idx = cell_nonblank row idx.
Proof.
  unfold cell_nonblank.
  destruct (Nat.lt_ge_cases idx (List.length row)) as [L|G].
  - rewrite nth_error_app1 by exact L. reflexivity.
  - rewrite nth_error_app2 by exact G.
    rewrite (proj2 (nth_error_None row idx) G).
    destruct (nth_error (repeat "" n) (idx - List.length row)) as [v|] eqn:E;
      [|reflexivity].
    apply nth_error_In, repeat_spec in E. subst v. reflexivity.
Qed.

Lemma nth_pad (row : list string) (n idx : nat) :
  nth idx (row ++ repeat "" n) "" = nth idx row "".
Proof.
  destruct (Nat.lt_ge_cases idx (List.length row)) as [L|G].
  - apply app_nth1. exact L.
  - rewrite app_nth2 by exact G. rewrite (nth_overflow row "" G).
    destruct (Nat.lt_ge_cases (idx - List.length row) n) as [L'|G'].
    + apply nth_repeat_lt. exact L'.
    + apply nth_overflow. rewrite repeat_length. exact G'.
Qed.

Lemma subject_terms_loop_pad (row : list string) (n : nat) (idxs : list nat) :
  forall terms counts,
    subject_terms_loop (row ++ repeat "" n) idxs terms counts =
    subject_terms_loop row idxs terms counts.
Proof.
  induction idxs as [|idx r IH]; intros terms counts;
    cbn [subject_terms_loop]; [reflexivity|].
  rewrite cell_nonblank_pad, nth_pad.
  destruct (cell_nonblank row idx); apply IH.
Qed.

Lemma cosponsor_loop_pad (row : list string) (n : nat) (idxs : list nat) :
  forall k,
    cosponsor_loop (row ++ repeat "" n) idxs k = cosponsor_loop row idxs k.
Proof.
  induction idxs as [|idx r IH]; intros k; cbn [cosponsor_loop];
    [reflexivity|].
  rewrite cell_nonblank_pad. apply IH.
Qed.

Lemma row_dict_loop_pad (relevant row : list string) (n : nat)
    (hs : list string) :
  forall i d,
    row_dict_loop relevant (row ++ repeat "" n) i hs d =
    row_dict_loop relevant row i hs d.
Proof.
  induction hs as [|h r IH]; intros i d; cbn [row_dict_loop]; [reflexivity|].
  rewrite nth_pad. apply IH.
Qed.

Lemma process_row_pad (cfg : config) (all_headers relevant : list string)
    (a : acc) (row : list string) (n : nat) :
  process_row cfg all_headers relevant a (row ++ repeat "" n) =
  process_row cfg all_headers relevant a row.
Proof.
  unfold process_row.
  rewrite subject_terms_loop_pad, cosponsor_loop_pad, row_dict_loop_pad.
  reflexivity.
Qed.

Lemma rows_loop_pad (cfg : config) (all_headers relevant : list string)
    (width : nat) (rows : list (list string)) :
  forall a,
    rows_loop cfg all_headers relevant a (map (pad_to width) rows) =
    rows_loop cfg all_headers relevant a rows.
Proof.
  induction rows as [|row r IH]; intros a; cbn [map rows_loop];
    [reflexivity|].
  unfold pad_to at 1. rewrite process_row_pad.
  destruct (process_row cfg all_headers relevant a row); cbn [bind];
    [apply IH|reflexivity].
Qed.

(** A row that ends before the header does is analysed as the row with
    empty cells up to the header's width: the whole result is the same. *)
Theorem short_rows_are_padded (cfg : config) (all_headers : list string)
    (rows : list (list string)) :
  analyze_rows cfg all_headers
               (map (pad_to (List.length all_headers)) rows) =
  analyze_rows cfg all_headers rows.
Proof.
  unfold analyze_rows. rewrite rows_loop_pad. reflexivity.
Qed.

End RowFacts.

(* ================================================================== *)
(** ** More on the analysis pass: the counters *)
(* ================================================================== *)

Module CounterFacts.

Import Py CsvAnalyzer DictFacts AnalysisFacts.

(** The occurrence columns of a field in which a row has a cell that is
    not blank. *)
Definition filled_cells (name : string) (all_headers row : list string)
  : list nat :=
  filter (cell_nonblank row) (indices_of name all_headers).

Definition is_nil {A : Type} (l : list A) : bool :=
  match l with [] => true | _ => false end.

Lemma subject_terms_loop_terms (row : list string) (idxs : list nat) :
  forall terms counts,
    fst (subject_terms_loop row idxs terms counts) =
    (terms ++ map (fun idx => strip (nth idx row ""))
                  (filter (cell_nonblank row) idxs))%list.
Proof.
  induction idxs as [|idx r IH]; intros terms counts;
    cbn [subject_terms_loop filter].
  - rewrite app_nil_r. reflexivity.
  - destruct (cell_nonblank row idx); rewrite IH; [|reflexivity].
    cbn [map]. rewrite <- app_assoc. reflexivity.
Qed.

Lemma subject_terms_loop_sum (row : list string) (idxs : list nat) :
  forall terms counts,
    list_sum (Dict.values (snd (subject_terms_loop row idxs terms counts))) =
    list_sum (Dict.values counts)
    + List.length (filter (cell_nonblank row) idxs).
Proof.
  induction idxs as [|idx r IH]; intros terms counts;
    cbn [subject_terms_loop filter]; [cbn [List.length snd]; lia|].
  destruct (cell_nonblank row idx); rewrite IH; [|reflexivity].
  rewrite sum_values_incr. cbn [List.length]. lia.
Qed.

Lemma cosponsor_loop_count (row : list string) (idxs : list nat) :
  forall k,
    cosponsor_loop row idxs k =
    k + List.length (filter (cell_nonblank row) idxs).
Proof.
  induction idxs as [|idx r IH]; intros k; cbn [cosponsor_loop filter];
    [cbn [List.length]; lia|].
  rewrite IH. destruct (cell_nonblank row idx); cbn [List.length]; lia.
Qed.

(** What one row does to the counters. *)
Lemma process_row_counters (cfg : config) (all_headers relevant : list string)
    (a a' : acc) (row : list string) :
  process_row cfg all_headers relevant a row = Ok a' ->
  a_total_rows a' = S (a_total_rows a) /\
  a_bills_with_subject_terms a' =
    a_bills_with_subject_terms a
    + (if is_nil (filled_cells (SUBJECT_TERM cfg) all_headers row) then 0 else 1) /\
  list_sum (Dict.values (a_subject_term_counts a')) =
    list_sum (Dict.values (a_subject_term_counts a))
    + List.length (filled_cells (SUBJECT_TERM cfg) all_headers row) /\
  a_total_cosponsors a' =
    a_total_cosponsors a
    + List.length (filled_cells (COSPONSOR cfg) all_headers row) /\
  a_bills_with_cosponsors a' =
    a_bills_with_cosponsors a
    + (if is_nil (filled_cells (COSPONSOR cfg) all_headers row) then 0 else 1).
Proof.
  unfold process_row, filled_cells.
  pose proof (subject_terms_loop_terms row
                (indices_of (SUBJECT_TERM cfg) all_headers) []
                (a_subject_term_counts a)) as Ht.
  pose proof (subject_terms_loop_sum row
                (indices_of (SUBJECT_TERM cfg) all_headers) []
                (a_subject_term_counts a)) as Hs.
  destruct (subject_terms_loop row _ [] (a_subject_term_counts a))
    as [terms counts].
  cbn [fst snd] in Ht, Hs.
  rewrite (cosponsor_loop_count row (indices_of (COSPONSOR cfg) all_headers) 0).
  cbn [Nat.add].
  destruct (columns_loop cfg _ relevant (a_stats a)); cbn [bind];
    [|discriminate].
  intros H. inversion H. subst a'. clear H.
  cbn [a_total_rows a_bills_with_subject_terms a_subject_term_counts
       a_total_cosponsors a_bills_with_cosponsors].
  split; [reflexivity|]. split.
  - subst terms. cbn [app].
    destruct (filter (cell_nonblank row)
                     (indices_of (SUBJECT_TERM cfg) all_headers));
      cbn [map is_nil]; lia.
  - split; [exact Hs|].
    destruct (filter (cell_nonblank row)
                     (indices_of (COSPONSOR cfg) all_headers));
      cbn [List.length is_nil Nat.ltb Nat.leb]; split; lia.
Qed.

(** The rows with a filled cell of a field, and the filled cells of the
    field over all rows. *)
Definition rows_with (name : string) (all_headers : list string)
    (rows : list (list string)) : nat :=
  List.length
    (filter (fun row => negb (is_nil (filled_cells name all_headers row))) rows).

Definition cells_of (name : string) (all_headers : list string)
    (rows : list (list string)) : nat :=
  list_sum (map (fun row => List.length (filled_cells name all_headers row)) rows).

Lemma rows_with_cons (name : string) (all_headers row : list string)
    (rows : list (list string)) :
  rows_with name all_headers (row :: rows) =
  (if is_nil (filled_cells name all_headers row) then 0 else 1)
  + rows_with name all_headers rows.
Proof.
  unfold rows_with. cbn [filter].
  destruct (is_nil (filled_cells name all_headers row)); reflexivity.
Qed.

Lemma cells_of_cons (name : string) (all_headers row : list string)
    (rows : list (list string)) :
  cells_of name all_headers (row :: rows) =
  List.length (filled_cells name all_headers row)
  + cells_of name all_headers rows.
Proof. reflexivity. Qed.

Lemma rows_with_le (name : string) (all_headers : list string)
    (rows : list (list string)) :
  rows_with name all_headers rows <= List.length rows /\
  rows_with name all_headers rows <= cells_of name all_headers rows.
Proof.
  induction rows as [|row r [IH1 IH2]]; [split; reflexivity|].
  rewrite rows_with_cons, cells_of_cons. cbn [List.length].
  destruct (filled_cells name all_headers row); cbn [is_nil List.length];
    split; lia.
Qed.

Lemma rows_with_zero (name : string) (all_headers : list string)
    (rows : list (list string)) :
  rows_with name all_headers rows = 0 -> cells_of name all_headers rows = 0.
Proof.
  induction rows as [|row r IH]; [reflexivity|].
  rewrite rows_with_cons, cells_of_cons.
  destruct (filled_cells name all_headers row); cbn [is_nil List.length];
    [exact IH|discriminate].
Qed.

Lemma rows_loop_counters (cfg : config) (all_headers relevant : list string)
    (rows : list (list string)) :
  forall a a',
    rows_loop cfg all_headers relevant a rows = Ok a' ->
    a_total_rows a' = a_total_rows a + List.length rows /\
    a_bills_with_subject_terms a' =
      a_bills_with_subject_terms a
      + rows_with (SUBJECT_TERM cfg) all_headers rows /\
    list_sum (Dict.values (a_subject_term_counts a')) =
      list_sum (Dict.values (a_subject_term_counts a))
      + cells_of (SUBJECT_TERM cfg) all_headers rows /\
    a_total_cosponsors a' =
      a_total_cosponsors a + cells_of (COSPONSOR cfg) all_headers rows /\
    a_bills_with_cosponsors a' =
      a_bills_with_cosponsors a + rows_with (COSPONSOR cfg) all_headers rows.
Proof.
  induction rows as [|row r IH]; intros a a' H; cbn [rows_loop] in H.
  - inversion H. subst a'. unfold rows_with, cells_of.
    cbn [List.length filter map list_sum fold_right]. repeat split; lia.
  - destruct (process_row cfg all_headers relevant a row) as [a1|e] eqn:E;
      cbn [bind] in H; [|discriminate].
    apply process_row_counters in E.
    destruct E as [E1 [E2 [E3 [E4 E5]]]].
    destruct (IH a1 a' H) as [H1 [H2 [H3 [H4 H5]]]].
    rewrite !rows_with_cons, !cells_of_cons. cbn [List.length].
    repeat split; lia.
Qed.

Lemma analyze_rows_acc (cfg : config) (all_headers : list string)
    (rows : list (list string)) (a : analysis) :
  analyze_rows cfg all_headers rows = Ok a ->
  exists a',
    rows_loop cfg all_headers (relevant_of cfg all_headers)
              (init_acc (relevant_of cfg all_headers)) rows = Ok a' /\
    a = finish (relevant_of cfg all_headers) a'.
Proof.
  unfold analyze_rows. intros H.
  destruct (rows_loop cfg all_headers _ _ rows) as [a'|e]; cbn [bind] in H;
    [|discriminate].
  exists a'. split; [reflexivity|]. inversion H. reflexivity.
Qed.

Local Open Scope Q_scope.

(** The counters of the cosponsor field: the rows with a cosponsor are
    the rows with a filled cell in a cosponsor column, the cosponsors are
    those cells, so there are no more such rows than rows or cosponsors;
    the average is 0 when no row has one, and otherwise the cosponsors
    divided by those rows. *)
Theorem cosponsor_counters (cfg : config) (all_headers : list string)
    (rows : list (list string)) (a : analysis) :
  analyze_rows cfg all_headers rows = Ok a ->
  let cs := cosponsors a in
  bills_with_cosponsors cs = rows_with (COSPONSOR cfg) all_headers rows /\
  total_cosponsors cs = cells_of (COSPONSOR cfg) all_headers rows /\
  (bills_with_cosponsors cs <= total_rows a)%nat /\
  (bills_with_cosponsors cs <= total_cosponsors cs)%nat /\
  (bills_with_cosponsors cs = 0%nat ->
   total_cosponsors cs = 0%nat /\ avg_per_bill cs = 0) /\
  ((0 < bills_with_cosponsors cs)%nat ->
   avg_per_bill cs =
   of_nat_Q (total_cosponsors cs) / of_nat_Q (bills_with_cosponsors cs)).
Proof.
  intros H cs. subst cs.
  destruct (analyze_rows_acc cfg all_headers rows a H) as [a' [Hloop Ha]].
  subst a. apply rows_loop_counters in Hloop.
  destruct Hloop as [H1 [_ [_ [H4 H5]]]].
  cbn [init_acc a_total_rows a_total_cosponsors a_bills_with_cosponsors
       Nat.add] in H1, H4, H5.
  destruct (rows_with_le (COSPONSOR cfg) all_headers rows) as [L1 L2].
  cbn [finish cosponsors bills_with_cosponsors total_cosponsors avg_per_bill
       total_rows].
  split; [exact H5|]. split; [exact H4|].
  split; [lia|]. split; [lia|]. split.
  - intros H0. rewrite H0. split; [|reflexivity].
    rewrite H4. apply rows_with_zero. congruence.
  - intros Hpos. apply Nat.ltb_lt in Hpos. rewrite Hpos. reflexivity.
Qed.

Lemma cosponsor_counters_witness :
  let a :=
    {| total_rows := 2; columns := []; relevant_headers := [];
       subject_terms := []; bills_with_subject_terms := 0;
       cosponsors := {| bills_with_cosponsors := 1; total_cosponsors := 2;
                        avg_per_bill := 2 # 1 |} |} in
  let rows := [["Ann"; " "; "Bob"]; [""; ""; ""]] in
  let h := ["Cosponsor"; "Cosponsor"; "Cosponsor"] in
  let cs := cosponsors a in
  bills_with_cosponsors cs = rows_with "Cosponsor" h rows /\
  total_cosponsors cs = cells_of "Cosponsor" h rows /\
  (bills_with_cosponsors cs <= total_rows a)%nat /\
  (bills_with_cosponsors cs <= total_cosponsors cs)%nat /\
  (bills_with_cosponsors cs = 0%nat ->
   total_cosponsors cs = 0%nat /\ avg_per_bill cs = 0) /\
  ((0 < bills_with_cosponsors cs)%nat ->
   avg_per_bill cs =
   of_nat_Q (total_cosponsors cs) / of_nat_Q (bills_with_cosponsors cs)).
Proof.
  apply (cosponsor_counters default_config
           ["Cosponsor"; "Cosponsor"; "Cosponsor"]
           [["Ann"; " "; "Bob"]; [""; ""; ""]]).
  vm_compute. reflexivity.
Defined.

Local Close Scope Q_scope.

(** The counters of the tag field: the rows with a tag are the rows with
    a filled cell in a tag column, and are no more than the rows; the
    frequencies are all positive, have one entry for a tag, and add up to
    the filled cells of the tag columns, so to at least the rows with a
    tag. *)
Theorem tag_counters (cfg : config) (all_headers : list string)
    (rows : list (list string)) (a : analysis) :
  analyze_rows cfg all_headers rows = Ok a ->
  bills_with_subject_terms a = rows_with (SUBJECT_TERM cfg) all_headers rows /\
  bills_with_subject_terms a <= total_rows a /\
  list_sum (Dict.values (subject_terms a))
  = cells_of (SUBJECT_TERM cfg) all_headers rows /\
  bills_with_subject_terms a <= list_sum (Dict.values (subject_terms a)) /\
  (forall t n, Dict.get (subject_terms a) t = Some n -> 0 < n) /\
  (bills_with_subject_terms a = 0 <-> subject_terms a = []).
Proof.
  intros H.
  destruct (analyze_rows_acc cfg all_headers rows a H) as [a' [Hloop Ha]].
  subst a.
  pose proof (rows_loop_counters _ _ _ _ _ _ Hloop) as [H1 [H2 [H3 _]]].
  apply rows_loop_counts in Hloop; [|intros k n; discriminate].
  destruct Hloop as [Hpos _].
  cbn [init_acc a_total_rows a_bills_with_subject_terms
       a_subject_term_counts Dict.values map list_sum fold_right Nat.add]
    in H1, H2, H3.
  destruct (rows_with_le (SUBJECT_TERM cfg) all_headers rows) as [L1 L2].
  cbn [finish bills_with_subject_terms subject_terms total_rows].
  split; [exact H2|]. split; [lia|]. split; [exact H3|].
  split; [lia|]. split; [exact Hpos|].
  split.
  - intros H0. destruct (a_subject_term_counts a') as [|[t n] r] eqn:E;
      [reflexivity|].
    exfalso. assert (Hn : 0 < n).
    { apply (Hpos t). cbn [Dict.get]. rewrite String.eqb_refl. reflexivity. }
    assert (Hz : cells_of (SUBJECT_TERM cfg) all_headers rows = 0).
    { apply rows_with_zero. congruence. }
    rewrite Hz in H3. cbn [Dict.values map list_sum fold_right snd] in H3.
    lia.
  - intros E. rewrite E in H3.
    cbn [Dict.values map list_sum fold_right] in H3. lia.
Qed.

Lemma tag_counters_witness :
  let a :=
    {| total_rows := 2; columns := []; relevant_headers := [];
       subject_terms := [("x", 2); ("y", 1)];
       bills_with_subject_terms := 2;
       cosponsors := Scenarios.no_cosponsors |} in
  let rows := [["x"; "x"]; ["y"; " "]] in
  let h := ["billSubjectTerm"; "billSubjectTerm"] in
  bills_with_subject_terms a = rows_with "billSubjectTerm" h rows /\
  bills_with_subject_terms a <= total_rows a /\
  list_sum (Dict.values (subject_terms a)) = cells_of "billSubjectTerm" h rows /\
  bills_with_subject_terms a <= list_sum (Dict.values (subject_terms a)) /\
  (forall t n, Dict.get (subject_terms a) t = Some n -> 0 < n) /\
  (bills_with_subject_terms a = 0 <-> subject_terms a = []).
Proof.
  apply (tag_counters default_config ["billSubjectTerm"; "billSubjectTerm"]
           [["x"; "x"]; ["y"; " "]]).
  vm_compute. reflexivity.
Defined.




End CounterFacts.

(* ================================================================== *)
(** ** More on the analysis pass: histograms and blank rows *)
(* ================================================================== *)

Module HistogramFacts.

Import Py CsvAnalyzer DictFacts AnalysisFacts InferenceFacts CounterFacts.

Lemma incr_cons (k0 : string) (v0 : nat) (r : Dict.t nat) (k : string) :
  Dict.incr ((k0, v0) :: r) k =
  if String.eqb k0 k then (k0, S v0) :: r else (k0, v0) :: Dict.incr r k.
Proof.
  unfold Dict.incr. cbn [Dict.set Dict.get].
  destruct (String.eqb k0 k); reflexivity.
Qed.

(** The cells of a histogram that are typed, summed. *)
Definition typed_sum (d : Dict.t nat) : nat :=
  list_sum (Dict.values
              (filter (fun x : string * nat => negb (String.eqb (fst x) "empty")) d)).

Lemma typed_sum_cons (k : string) (v : nat) (r : Dict.t nat) :
  typed_sum ((k, v) :: r) =
  (if String.eqb k "empty" then 0 else v) + typed_sum r.
Proof.
  unfold typed_sum. cbn [filter fst].
  destruct (String.eqb k "empty"); reflexivity.
Qed.

Lemma typed_sum_incr (d : Dict.t nat) (k : string) :
  typed_sum (Dict.incr d k) =
  (if String.eqb k "empty" then 0 else 1) + typed_sum d.
Proof.
  induction d as [|[k0 v0] r IH].
  - unfold Dict.incr. cbn [Dict.get Dict.set]. rewrite typed_sum_cons.
    unfold typed_sum. cbn. lia.
  - rewrite incr_cons. destruct (String.eqb_spec k0 k) as [E|N].
    + subst k0. rewrite !typed_sum_cons.
      destruct (String.eqb k "empty"); lia.
    + rewrite !typed_sum_cons, IH. lia.
Qed.

Lemma Forall_incr (Q : string -> Prop) (d : Dict.t nat) (k : string) :
  Q k ->
  Forall (fun kv : string * nat => Q (fst kv) /\ 0 < snd kv) d ->
  Forall (fun kv : string * nat => Q (fst kv) /\ 0 < snd kv) (Dict.incr d k).
Proof.
  intros Hk. induction d as [|[k0 v0] r IH]; intros H.
  - unfold Dict.incr. cbn [Dict.get Dict.set].
    constructor; [split; [exact Hk|cbn; lia]|constructor].
  - inversion H as [|? ? [H1 H2] H3]; subst. rewrite incr_cons.
    destruct (String.eqb k0 k).
    + constructor; [split; [exact H1|cbn; lia]|exact H3].
    + constructor; [split; assumption|apply IH; exact H3].
Qed.

Lemma NoDup_keys_set {V : Type} (d : Dict.t V) (k : string) (v : V) :
  NoDup (Dict.keys d) -> NoDup (Dict.keys (Dict.set d k v)).
Proof.
  intros H. destruct (in_dec string_dec k (Dict.keys d)) as [I|N].
  - rewrite keys_set_old by exact I. exact H.
  - rewrite keys_set_new by exact N.
    apply NoDup_app; [exact H|constructor; [simpl; tauto|constructor]|].
    intros x Hx [Hy|[]]. subst x. contradiction.
Qed.

(** A well-formed histogram: the [empty] entry counts the empty cells,
    the other entries add up to the filled cells, every key is a type
    tag, no count is zero and no key is there twice. *)
Definition histogram_ok (vs : list string) (st : ColumnStat) : Prop :=
  Dict.count (types st) "empty" = empty st /\
  typed_sum (types st) = filled st /\
  Forall (fun kv : string * nat => In (fst kv) type_tags /\ 0 < snd kv)
         (types st) /\
  NoDup (Dict.keys (types st)).

Lemma histogram_ok_init : histogram_ok [] new_stat.
Proof.
  repeat split; cbn; constructor.
Qed.

Lemma histogram_ok_step (cfg : config) (vs : list string) (st : ColumnStat)
    (v : string) :
  histogram_ok vs st -> histogram_ok (vs ++ [v]) (update_stat cfg st v).
Proof.
  intros [H1 [H2 [H3 H4]]]. unfold histogram_ok, update_stat.
  destruct (nonblank v) eqn:Hnb; cbn [types empty filled].
  - pose proof (infer_type_nonblank cfg v Hnb) as Hne.
    apply String.eqb_neq in Hne.
    rewrite count_incr, typed_sum_incr, Hne.
    split; [exact H1|]. split; [lia|]. split.
    + apply (Forall_incr (fun k => In k type_tags));
        [apply infer_type_tag|exact H3].
    + apply NoDup_keys_set. exact H4.
  - rewrite count_incr, typed_sum_incr. cbn [String.eqb Ascii.eqb Bool.eqb].
    split; [lia|]. split; [lia|]. split.
    + apply (Forall_incr (fun k => In k type_tags)); [cbn; auto|exact H3].
    + apply NoDup_keys_set. exact H4.
Qed.

Lemma typed_sum_zero (d : Dict.t nat) :
  Forall (fun kv : string * nat => In (fst kv) type_tags /\ 0 < snd kv) d ->
  typed_sum d = 0 ->
  filter (fun x : string * nat => negb (String.eqb (fst x) "empty")) d = [].
Proof.
  induction d as [|[k v] r IH]; intros H Hz; [reflexivity|].
  inversion H as [|? ? [_ Hv] Hr]; subst. cbn [snd] in Hv.
  rewrite typed_sum_cons in Hz. cbn [filter fst].
  destruct (String.eqb k "empty"); cbn [negb]; [apply IH; [exact Hr|lia]|lia].
Qed.

(** The type histogram of every column of an analysis: its [empty] entry
    is the number of empty cells, its other entries add up to the filled
    cells, its keys are type tags without repetition, none with a zero
    count; and there is a typed entry exactly when a cell was filled. *)
Theorem histogram_matches_counts (cfg : config)
    (open_file : string -> result Csv.stream) (filepath : string)
    (a : analysis) :
  analyze_csv cfg open_file filepath = Ok a ->
  forall col st,
    In (col, st) (columns a) ->
    Dict.count (types st) "empty" = empty st /\
    list_sum (Dict.values (non_empty_types st)) = filled st /\
    (forall t n, Dict.get (types st) t = Some n ->
                 In t type_tags /\ 0 < n) /\
    NoDup (Dict.keys (types st)) /\
    (filled st = 0 <-> non_empty_types st = []).
Proof.
  intros H col st Hin.
  destruct (analyze_csv_inv cfg histogram_ok open_file filepath a
              histogram_ok_init (histogram_ok_step cfg) H)
    as [f [h [_ [_ [_ [_ [_ HP]]]]]]].
  destruct (HP col st Hin) as [H1 [H2 [H3 H4]]].
  split; [exact H1|]. split; [exact H2|]. split; [|split; [exact H4|]].
  - intros t n Hg. apply get_In in Hg.
    rewrite Forall_forall in H3. apply (H3 (t, n) Hg).
  - split.
    + intros Hz. apply typed_sum_zero; [exact H3|congruence].
    + intros E. rewrite <- H2. unfold typed_sum.
      change (filter _ (types st)) with (non_empty_types st).
      rewrite E. reflexivity.
Qed.

Lemma histogram_matches_counts_witness :
  let st := Scenarios.column_B in
  Dict.count (types st) "empty" = empty st /\
  list_sum (Dict.values (non_empty_types st)) = filled st /\
  (forall t n, Dict.get (types st) t = Some n ->
               In t type_tags /\ 0 < n) /\
  NoDup (Dict.keys (types st)) /\
  (filled st = 0 <-> non_empty_types st = []).
Proof.
  apply (histogram_matches_counts default_config
           (Scenarios.only Scenarios.scenario_file) "bills.csv"
           Scenarios.scenario_analysis) with (col := "B").
  - vm_compute. reflexivity.
  - right. left. reflexivity.
Defined.

(** *** A row of blank cells *)

Definition all_blank (row : list string) : Prop :=
  Forall (fun c => nonblank c = false) row.

Lemma cell_nonblank_blank (row : list string) (idx : nat) :
  all_blank row -> cell_nonblank row idx = false.
Proof.
  intros H. unfold cell_nonblank.
  destruct (nth_error row idx) as [v|] eqn:E; [|reflexivity].
  apply nth_error_In in E. unfold all_blank in H.
  rewrite Forall_forall in H. apply H. exact E.
Qed.

Lemma nth_blank (row : list string) (i : nat) :
  all_blank row -> nonblank (nth i row "") = false.
Proof.
  intros H. destruct (nth_in_or_default i row "") as [E|E].
  - unfold all_blank in H. rewrite Forall_forall in H. apply H. exact E.
  - rewrite E. reflexivity.
Qed.

Lemma subject_terms_loop_blank (row : list string) (idxs : list nat)
    (terms : list string) (counts : Dict.t nat) :
  all_blank row ->
  subject_terms_loop row idxs terms counts = (terms, counts).
Proof.
  intros H. induction idxs as [|idx r IH]; cbn [subject_terms_loop];
    [reflexivity|].
  rewrite cell_nonblank_blank by exact H. exact IH.
Qed.

Lemma cosponsor_loop_blank (row : list string) (idxs : list nat) (k : nat) :
  all_blank row -> cosponsor_loop row idxs k = k.
Proof.
  intros H. induction idxs as [|idx r IH]; cbn [cosponsor_loop];
    [reflexivity|].
  rewrite cell_nonblank_blank by exact H. exact IH.
Qed.

Lemma row_dict_loop_blank (relevant row : list string) (hs : list string) :
  all_blank row ->
  forall i d,
    (forall k v, Dict.get d k = Some v -> nonblank v = false) ->
    forall k v,
      Dict.get (row_dict_loop relevant row i hs d) k = Some v ->
      nonblank v = false.
Proof.
  intros H. induction hs as [|h r IH]; intros i d Hd k v;
    cbn [row_dict_loop]; [apply Hd|].
  apply IH. destruct (str_in h relevant && negb (Dict.mem d h)); [|exact Hd].
  intros k' v'. rewrite get_set. destruct (String.eqb h k').
  - intros E. inversion E. apply nth_blank. exact H.
  - apply Hd.
Qed.

(** What an empty cell does to the record of a column. *)
Definition count_empty (st : ColumnStat) : ColumnStat :=
  {| total := S (total st);
     filled := filled st;
     empty := S (empty st);
     types := Dict.incr (types st) "empty";
     sample_values := sample_values st |}.

Lemma update_stat_blank (cfg : config) (st : ColumnStat) (v : string) :
  nonblank v = false -> update_stat cfg st v = count_empty st.
Proof. intros H. unfold update_stat. rewrite H. reflexivity. Qed.

Lemma rows_loop_app (cfg : config) (all_headers relevant : list string)
    (rows more : list (list string)) :
  forall a,
    rows_loop cfg all_headers relevant a (rows ++ more) =
    (a1 <- rows_loop cfg all_headers relevant a rows ;;
     rows_loop cfg all_headers relevant a1 more).
Proof.
  induction rows as [|row r IH]; intros a; cbn [app rows_loop bind];
    [reflexivity|].
  destruct (process_row cfg all_headers relevant a row); cbn [bind];
    [apply IH|reflexivity].
Qed.

(** A row whose cells are all blank, such as the empty row the reader
    yields for a blank line, is counted as a row: every column gets one
    more empty cell, and the tag and cosponsor counters stay as they are. *)
Theorem blank_row_is_counted (cfg : config) (all_headers : list string)
    (rows : list (list string)) (row : list string) (a : analysis) :
  all_blank row ->
  analyze_rows cfg all_headers rows = Ok a ->
  exists a',
    analyze_rows cfg all_headers (rows ++ [row]) = Ok a' /\
    total_rows a' = S (total_rows a) /\
    relevant_headers a' = relevant_headers a /\
    subject_terms a' = subject_terms a /\
    bills_with_subject_terms a' = bills_with_subject_terms a /\
    cosponsors a' = cosponsors a /\
    forall col,
      Dict.get (columns a') col = option_map count_empty (Dict.get (columns a) col).
Proof.
  intros Hblank H.
  destruct (analyze_rows_acc cfg all_headers rows a H) as [a1 [Hloop Ha]].
  subst a.
  destruct (rows_loop_inv cfg all_headers (fun _ _ => True)
              (fun _ _ _ _ => I) rows [] _
              (init_acc_inv cfg all_headers (fun _ _ => True) I))
    as [a1' [Hloop' [Hkeys _]]].
  rewrite Hloop in Hloop'. inversion Hloop'. subst a1'. clear Hloop'.
  set (relevant := relevant_of cfg all_headers) in *.
  destruct (columns_loop_spec cfg
              (row_dict_loop relevant row 0 all_headers [])
              relevant (a_stats a1) (relevant_NoDup cfg all_headers))
    as [stats' [Hrun [_ Hget]]].
  { intros c Hc. rewrite Hkeys. exact Hc. }
  eexists. split.
  - unfold analyze_rows. fold relevant.
    rewrite rows_loop_app, Hloop. cbn [bind rows_loop].
    unfold process_row.
    rewrite subject_terms_loop_blank by exact Hblank.
    rewrite cosponsor_loop_blank by exact Hblank.
    fold relevant. rewrite Hrun. cbn [bind]. reflexivity.
  - cbn [finish total_rows relevant_headers subject_terms
         bills_with_subject_terms cosponsors columns a_total_rows a_stats
         a_subject_term_counts a_bills_with_subject_terms a_total_cosponsors
         a_bills_with_cosponsors Nat.ltb Nat.leb].
    repeat (split; [reflexivity|]).
    intros col. rewrite Hget.
    destruct (str_in col relevant) eqn:E.
    + destruct (Dict.get (a_stats a1) col) as [st|]; [|reflexivity].
      cbn [option_map]. f_equal. apply update_stat_blank.
      destruct (Dict.get (row_dict_loop relevant row 0 all_headers []) col)
        as [v|] eqn:Ev; [|reflexivity].
      apply (row_dict_loop_blank relevant row all_headers Hblank 0 [])
        with (k := col); [intros k v'; discriminate|exact Ev].
    + destruct (Dict.get (a_stats a1) col) as [st|] eqn:Es; [|reflexivity].
      exfalso. apply str_in_false in E. apply E. rewrite <- Hkeys.
      eapply get_Some_keys. exact Es.
Qed.

Lemma blank_row_is_counted_witness :
  exists a',
    analyze_rows default_config ["A"; "B"; "B"]
                 ([["1"; ""; "x"]; ["2"; "y"; ""]] ++ [[]]) = Ok a' /\
    total_rows a' = S (total_rows Scenarios.scenario_analysis) /\
    relevant_headers a' = relevant_headers Scenarios.scenario_analysis /\
    subject_terms a' = subject_terms Scenarios.scenario_analysis /\
    bills_with_subject_terms a'
    = bills_with_subject_terms Scenarios.scenario_analysis /\
    cosponsors a' = cosponsors Scenarios.scenario_analysis /\
    forall col,
      Dict.get (columns a') col =
      option_map count_empty
                 (Dict.get (columns Scenarios.scenario_analysis) col).
Proof.
  apply (blank_row_is_counted default_config ["A"; "B"; "B"]
           [["1"; ""; "x"]; ["2"; "y"; ""]] [] Scenarios.scenario_analysis).
  - constructor.
  - vm_compute. reflexivity.
Defined.

(** The reader yields an empty row for a blank line between two rows. *)
Example blank_line_is_a_row :
  Csv.reader_of (Scenarios.file_of_lines ["1,2"; ""; "3,4"]) =
  ([["1"; "2"]; []; ["3"; "4"]], None).
Proof. reflexivity. Qed.

End HistogramFacts.

(* ================================================================== *)
(** ** The report: sorting and identifiers *)
(* ================================================================== *)

From Stdlib Require Import Sorted.

Module SortFacts.

Import Py CsvAnalyzer.

Definition count_ge (x y : string * nat) : Prop := snd y <= snd x.

Definition has_count (n : nat) (x : string * nat) : bool := snd x =? n.

Lemma filter_none {A : Type} (p : A -> bool) (l : list A) :
  (forall x, In x l -> p x = false) -> filter p l = [].
Proof.
  induction l as [|x r IH]; intros H; cbn [filter]; [reflexivity|].
  rewrite (H x (or_introl eq_refl)). apply IH.
  intros y Hy. apply H. right. exact Hy.
Qed.

Lemma insert_desc_Permutation (x : string * nat) (l : list (string * nat)) :
  Permutation (insert_desc x l) (x :: l).
Proof.
  induction l as [|y r IH]; cbn [insert_desc]; [reflexivity|].
  destruct (snd y <? snd x); [reflexivity|].
  rewrite IH. apply perm_swap.
Qed.

Lemma insert_desc_sorted (x : string * nat) (l : list (string * nat)) :
  StronglySorted count_ge l -> StronglySorted count_ge (insert_desc x l).
Proof.
  induction l as [|y r IH]; intros H; cbn [insert_desc].
  - constructor; constructor.
  - inversion H as [|? ? Hr Hy]; subst.
    destruct (snd y <? snd x) eqn:E.
    + apply Nat.ltb_lt in E. constructor; [exact H|].
      constructor; [unfold count_ge; lia|].
      eapply Forall_impl; [|exact Hy].
      intros z Hz. unfold count_ge in *. lia.
    + apply Nat.ltb_ge in E. constructor; [apply IH; exact Hr|].
      apply (Permutation_Forall (Permutation_sym (insert_desc_Permutation x r))).
      constructor; [exact E|exact Hy].
Qed.

(** An entry goes behind the entries with its own count. *)
Lemma insert_desc_stable (n : nat) (x : string * nat)
    (l : list (string * nat)) :
  StronglySorted count_ge l ->
  filter (has_count n) (insert_desc x l) =
  (filter (has_count n) l ++ if has_count n x then [x] else [])%list.
Proof.
  induction l as [|y r IH]; intros H; cbn [insert_desc filter].
  - destruct (has_count n x); reflexivity.
  - inversion H as [|? ? Hr Hy]; subst.
    destruct (snd y <? snd x) eqn:E.
    + apply Nat.ltb_lt in E. cbn [filter].
      destruct (has_count n x) eqn:Ex.
      * unfold has_count in Ex. apply Nat.eqb_eq in Ex.
        assert (Hnone : filter (has_count n) (y :: r) = []).
        { apply filter_none. intros z Hz.
          assert (snd z <= snd y).
          { destruct Hz as [Hz|Hz]; [subst; lia|].
            rewrite Forall_forall in Hy. apply (Hy z Hz). }
          unfold has_count. apply Nat.eqb_neq. lia. }
        cbn [filter] in Hnone. rewrite Hnone. reflexivity.
      * rewrite app_nil_r. reflexivity.
    + cbn [filter]. rewrite (IH Hr).
      destruct (has_count n y); reflexivity.
Qed.

Lemma sorted_fold (l : list (string * nat)) :
  forall acc,
    StronglySorted count_ge acc ->
    Permutation (fold_left (fun acc x => insert_desc x acc) l acc) (acc ++ l) /\
    StronglySorted count_ge (fold_left (fun acc x => insert_desc x acc) l acc) /\
    forall n,
      filter (has_count n) (fold_left (fun acc x => insert_desc x acc) l acc) =
      (filter (has_count n) acc ++ filter (has_count n) l)%list.
Proof.
  induction l as [|x r IH]; intros acc Hacc; cbn [fold_left].
  - rewrite app_nil_r. split; [reflexivity|]. split; [exact Hacc|].
    intros n. cbn [filter]. rewrite app_nil_r. reflexivity.
  - destruct (IH (insert_desc x acc) (insert_desc_sorted x acc Hacc))
      as [Hp [Hs Hf]].
    split; [|split; [exact Hs|]].
    + rewrite Hp, insert_desc_Permutation.
      change (x :: acc)%list with ([x] ++ acc)%list.
      rewrite (Permutation_app_comm [x] acc), <- app_assoc. reflexivity.
    + intros n. rewrite Hf, (insert_desc_stable n x acc Hacc).
      cbn [filter]. rewrite <- app_assoc.
      destruct (has_count n x); reflexivity.
Qed.

(** The order of the tags in the report: the same entries, by descending
    count, and entries of equal count in the order the dictionary has
    them; so the thirty printed are thirty of the highest counts. *)
Theorem sorted_desc_stable_sort (l : list (string * nat)) :
  Permutation (sorted_desc l) l /\
  StronglySorted (fun x y => snd y <= snd x) (sorted_desc l) /\
  (forall n,
      filter (fun x => snd x =? n) (sorted_desc l) =
      filter (fun x => snd x =? n) l) /\
  (forall x y,
      In x (firstn 30 (sorted_desc l)) ->
      In y (skipn 30 (sorted_desc l)) -> snd y <= snd x).
Proof.
  destruct (sorted_fold l [] (SSorted_nil _)) as [Hp [Hs Hf]].
  split; [exact Hp|]. split; [exact Hs|]. split; [exact Hf|].
  intros x y Hx Hy. unfold sorted_desc.
  set (s := fold_left (fun acc x => insert_desc x acc) l []) in *.
  fold s in Hx, Hy. unfold sorted_desc in Hx, Hy. fold s in Hx, Hy.
  clearbody s. clear - Hs Hx Hy.
  rewrite <- (firstn_skipn 30 s) in Hs.
  revert Hs Hx. generalize (firstn 30 s) as front.
  induction front as [|z r IH]; intros Hs Hx; [contradiction|].
  cbn [app] in Hs. inversion Hs as [|? ? Hr Hz]; subst.
  destruct Hx as [Hx|Hx].
  - subst z. rewrite Forall_forall in Hz.
    apply (Hz y). apply in_or_app. right. exact Hy.
  - apply IH; assumption.
Qed.

(** *** Column identifiers *)

(** What [column_identifier] does to one character. *)
Definition identifier_char (c : ascii) : ascii :=
  let c1 := lower_char c in
  let c2 := if Ascii.eqb c1 " "%char then "_"%char else c1 in
  if Ascii.eqb c2 "-"%char then "_"%char else c2.

Fixpoint map_chars (f : ascii -> ascii) (s : string) : string :=
  match s with
  | EmptyString => EmptyString
  | String c r => String (f c) (map_chars f r)
  end.

Lemma column_identifier_chars (col : string) :
  column_identifier col = map_chars identifier_char col.
Proof.
  unfold column_identifier.
  induction col as [|c r IH]; [reflexivity|].
  cbn [lower replace map_chars]. rewrite IH. reflexivity.
Qed.

Lemma identifier_char_facts (c : ascii) :
  identifier_char c <> " "%char /\
  identifier_char c <> "-"%char /\
  in_range 65 90 (identifier_char c) = false /\
  identifier_char (identifier_char c) = identifier_char c.
Proof.
  destruct c as [[] [] [] [] [] [] [] []]; vm_compute;
    repeat split; discriminate.
Qed.

(** Spaces and hyphens become underscores after the name was put in
    lower case, whatever lower case is: the two replacements leave neither
    in a text, and change no other character. *)
Lemma replacements_clean (lowered : string) :
  replace "-"%char "_"%char (replace " "%char "_"%char lowered)
  = map_chars (fun c => if Ascii.eqb c " "%char || Ascii.eqb c "-"%char
                        then "_"%char else c) lowered /\
  forall c,
    In c (list_ascii_of_string
            (replace "-"%char "_"%char (replace " "%char "_"%char lowered))) ->
    c <> " "%char /\ c <> "-"%char.
Proof.
  split.
  - induction lowered as [|c r IH]; [reflexivity|].
    cbn [replace map_chars]. rewrite IH. f_equal.
    destruct (Ascii.eqb c " ") eqn:E; [reflexivity|].
    cbn [orb]. reflexivity.
  - induction lowered as [|c r IH]; cbn [replace list_ascii_of_string];
      intros x Hx; [contradiction|].
    destruct Hx as [Hx|Hx]; [|apply IH; exact Hx]. subst x.
    destruct (Ascii.eqb c " ") eqn:E1.
    + split; discriminate.
    + destruct (Ascii.eqb c "-") eqn:E2.
      * split; discriminate.
      * apply Ascii.eqb_neq in E1. apply Ascii.eqb_neq in E2.
        split; assumption.
Qed.

(** The identifier made of a column name is the lower-cased name with an
    underscore for every space and hyphen: it has no space, no hyphen and
    no capital letter A to Z in it, and is its own identifier.  Nothing is
    said of its length: lower case can be longer than the name on text
    beyond the code points modelled here. *)
Theorem column_identifier_normal (col : string) :
  column_identifier col
  = map_chars (fun c => if Ascii.eqb c " "%char || Ascii.eqb c "-"%char
                        then "_"%char else c) (lower col) /\
  (forall c, In c (list_ascii_of_string (column_identifier col)) ->
             c <> " "%char /\ c <> "-"%char /\ in_range 65 90 c = false) /\
  column_identifier (column_identifier col) = column_identifier col.
Proof.
  split; [apply (replacements_clean (lower col))|].
  rewrite !column_identifier_chars. split.
  - induction col as [|c r IH]; cbn [map_chars list_ascii_of_string];
      intros x Hx; [contradiction|].
    destruct Hx as [Hx|Hx]; [|apply IH; exact Hx].
    subst x. destruct (identifier_char_facts c) as [H1 [H2 [H3 _]]].
    repeat split; assumption.
  - induction col as [|c r IH]; cbn [map_chars]; [reflexivity|].
    rewrite IH. destruct (identifier_char_facts c) as [_ [_ [_ H]]].
    rewrite H. reflexivity.
Qed.

(** Names that differ only in case, or in a space for a hyphen or an
    underscore, get one identifier. *)
Example identifiers_collide :
  column_identifier "Bill Number" = "bill_number" /\
  column_identifier "bill-number" = "bill_number" /\
  column_identifier "BILL_NUMBER" = "bill_number".
Proof. vm_compute. repeat split. Qed.

End SortFacts.

(* ================================================================== *)
(** ** The report of an analysis with rows *)
(* ================================================================== *)

Module FullReport.

Import Py CsvAnalyzer DictFacts AnalysisFacts InferenceFacts BucketFacts.
Import ReportFacts CounterFacts HistogramFacts.

(** *** What [analyze_csv] hands to [print_report] *)

Definition all_positive (d : Dict.t nat) : Prop :=
  Forall (fun kv : string * nat => 0 < snd kv) d.

Definition ready (a : analysis) : Prop :=
  (forall col st, In (col, st) (columns a) ->
                  total st = total_rows a /\ filled st <= total st /\
                  exists vs, histogram_ok vs st) /\
  all_positive (subject_terms a).

Lemma all_positive_incr (d : Dict.t nat) (k : string) :
  all_positive d -> all_positive (Dict.incr d k).
Proof.
  unfold all_positive. intros H.
  assert (H' : Forall (fun kv : string * nat => True /\ 0 < snd kv) d).
  { eapply Forall_impl; [|exact H]. intros kv Hkv. split; [exact I|exact Hkv]. }
  apply (Forall_incr (fun _ => True) d k I) in H'.
  eapply Forall_impl; [|exact H']. intros kv [_ Hkv]. exact Hkv.
Qed.

Lemma subject_terms_loop_all_positive (row : list string) (idxs : list nat) :
  forall terms counts,
    all_positive counts ->
    all_positive (snd (subject_terms_loop row idxs terms counts)).
Proof.
  induction idxs as [|idx r IH]; intros terms counts H;
    cbn [subject_terms_loop]; [exact H|].
  destruct (cell_nonblank row idx); apply IH;
    [apply all_positive_incr|]; exact H.
Qed.

Lemma rows_loop_all_positive (cfg : config) (all_headers relevant : list string)
    (rows : list (list string)) :
  forall a a',
    rows_loop cfg all_headers relevant a rows = Ok a' ->
    all_positive (a_subject_term_counts a) ->
    all_positive (a_subject_term_counts a').
Proof.
  induction rows as [|row r IH]; intros a a' H Hpos; cbn [rows_loop] in H.
  - inversion H. subst a'. exact Hpos.
  - destruct (process_row cfg all_headers relevant a row) as [a1|e] eqn:E;
      cbn [bind] in H; [|discriminate].
    apply (IH a1 a' H). rewrite (process_row_counts _ _ _ _ _ _ E).
    apply subject_terms_loop_all_positive. exact Hpos.
Qed.

Definition counts_and_histogram (vs : list string) (st : ColumnStat) : Prop :=
  counts_ok vs st /\ histogram_ok vs st.

Lemma analysis_ready (cfg : config) (open_file : string -> result Csv.stream)
    (filepath : string) (a : analysis) :
  analyze_csv cfg open_file filepath = Ok a -> ready a.
Proof.
  intros H. split.
  - destruct (analyze_csv_inv cfg counts_and_histogram open_file filepath a)
      as [f [h [_ [_ [_ [_ [Hn HP]]]]]]]; try exact H.
    { split; [apply counts_ok_init|apply histogram_ok_init]. }
    { intros vs st v [H1 H2].
      split; [apply counts_ok_step|apply histogram_ok_step]; assumption. }
    intros col st Hin. destruct (HP col st Hin) as [[H1 [H2 _]] Hh].
    unfold column_values in H2. rewrite length_map in H2.
    split; [congruence|]. split; [lia|]. eexists. exact Hh.
  - apply analyze_csv_Ok in H. destruct H as [f [h [_ [_ [_ H]]]]].
    apply analyze_rows_acc in H. destruct H as [a' [Hloop Ha]]. subst a.
    cbn [finish subject_terms].
    apply (rows_loop_all_positive _ _ _ _ _ _ Hloop). constructor.
Qed.

(** *** Dominant types *)

Lemma fold_max {A : Type} (key : A -> nat) (r : list A) :
  forall x,
    let y := fold_left (fun best z => if key best <? key z then z else best) r x in
    In y (x :: r) /\ forall z, In z (x :: r) -> key z <= key y.
Proof.
  induction r as [|w r IH]; intros x; cbn [fold_left].
  - split; [left; reflexivity|]. intros z [Hz|[]]. subst. lia.
  - destruct (key x <? key w) eqn:E.
    + destruct (IH w) as [H1 H2]. split.
      * right. exact H1.
      * apply Nat.ltb_lt in E. intros z [Hz|Hz].
        -- subst z. specialize (H2 w (or_introl eq_refl)). lia.
        -- apply H2. exact Hz.
    + destruct (IH x) as [H1 H2]. split.
      * destruct H1 as [H1|H1]; [left; exact H1|right; right; exact H1].
      * apply Nat.ltb_ge in E. intros z [Hz|[Hz|Hz]].
        -- subst z. apply H2. left. reflexivity.
        -- subst z. specialize (H2 x (or_introl eq_refl)). lia.
        -- apply H2. right. exact Hz.
Qed.

Lemma max_by_spec {A : Type} (key : A -> nat) (l : list A) (y : A) :
  max_by key l = Ok y -> In y l /\ forall z, In z l -> key z <= key y.
Proof.
  destruct l as [|x r]; cbn [max_by]; [discriminate|].
  intros H. inversion H. apply fold_max.
Qed.

Lemma typed_entry (d : Dict.t nat) :
  0 < typed_sum d ->
  exists kv, In kv d /\ fst kv <> "empty" /\ 0 < snd kv.
Proof.
  induction d as [|[k v] r IH]; [unfold typed_sum; cbn; lia|].
  rewrite typed_sum_cons. intros H.
  destruct (String.eqb_spec k "empty") as [E|N].
  - destruct (IH H) as [kv [H1 H2]]. exists kv. split; [right; exact H1|exact H2].
  - destruct v as [|v].
    + destruct (IH H) as [kv [H1 H2]].
      exists kv. split; [right; exact H1|exact H2].
    + exists (k, S v). split; [left; reflexivity|].
      split; [exact N|cbn; lia].
Qed.

(** With a filled cell, the dominant type is found and is a type tag
    other than [empty]. *)
Lemma primary_type_all_typed (vs : list string) (st : ColumnStat) :
  histogram_ok vs st -> 0 < filled st ->
  exists t, primary_type_all st = Ok t /\ t <> "empty" /\ In t type_tags.
Proof.
  intros [_ [H2 [H3 _]]] Hf. rewrite <- H2 in Hf.
  destruct (typed_entry (types st) Hf) as [kv [Hin [Hne Hpos]]].
  unfold primary_type_all.
  destruct (types st) as [|x r] eqn:E; [contradiction|].
  destruct (max_by_cons (fun x : string * nat =>
                           if String.eqb (fst x) "empty" then 0 else snd x) x r)
    as [y Hy].
  rewrite Hy. cbn [bind]. exists (fst y). split; [reflexivity|].
  apply max_by_spec in Hy. destruct Hy as [Hiny Hmax].
  split.
  - specialize (Hmax kv Hin). cbn beta in Hmax.
    apply String.eqb_neq in Hne. rewrite Hne in Hmax.
    intros Ey. apply String.eqb_eq in Ey. rewrite Ey in Hmax. lia.
  - rewrite Forall_forall in H3. apply (H3 y Hiny).
Qed.

Lemma primary_type_non_empty_typed (vs : list string) (default : string)
    (st : ColumnStat) :
  histogram_ok vs st ->
  exists t,
    primary_type_non_empty default st = Ok t /\
    (t = default \/ (t <> "empty" /\ In t type_tags)).
Proof.
  intros [_ [_ [H3 _]]]. unfold primary_type_non_empty.
  destruct (non_empty_types st) as [|x r] eqn:E.
  - exists default. split; [reflexivity|left; reflexivity].
  - destruct (max_by_cons (fun x : string * nat => snd x) x r) as [y Hy].
    rewrite Hy. cbn [bind]. exists (fst y). split; [reflexivity|]. right.
    apply max_by_spec in Hy. destruct Hy as [Hiny _].
    rewrite <- E in Hiny. unfold non_empty_types in Hiny.
    apply filter_In in Hiny. destruct Hiny as [Hin Hne].
    apply Bool.negb_true_iff, String.eqb_neq in Hne.
    split; [exact Hne|]. rewrite Forall_forall in H3. apply (H3 y Hin).
Qed.

(** *** Who is in which bucket *)

Lemma select_In (cols : Dict.t ColumnStat) (k : bucket) (e : entry) :
  In e (select k (categorize cols)) ->
  exists col st,
    e = (col, st, fill_rate st) /\ In (col, st) cols /\ bucket_of st = k.
Proof.
  rewrite select_categorize. intros H. apply in_map_iff in H.
  destruct H as [[col st] [He Hf]]. apply filter_In in Hf.
  destruct Hf as [Hin Hb]. exists col, st.
  split; [symmetry; exact He|]. split; [exact Hin|].
  apply bucket_eqb_eq. exact Hb.
Qed.

Local Open Scope Q_scope.

Lemma fill_rate_no_filled (st : ColumnStat) :
  filled st = 0%nat -> fill_rate st == 0.
Proof.
  intros H. unfold fill_rate. rewrite H.
  destruct (0 <? total st)%nat; [|reflexivity].
  unfold Qdiv. change (of_nat_Q 0) with 0. rewrite !Qmult_0_l. reflexivity.
Qed.

Lemma filled_of_bucket (st : ColumnStat) :
  bucket_of st <> Rarely -> (0 < filled st)%nat.
Proof.
  intros H. destruct (filled st) as [|n] eqn:E; [|lia].
  exfalso. apply H. pose proof (fill_rate_no_filled st E) as Hz.
  assert (Hle : fill_rate st <= 100) by (rewrite Hz; discriminate).
  apply (bucket_of_ranges st Hle). rewrite Hz. reflexivity.
Qed.

Local Close Scope Q_scope.

(** *** Sections that complete *)

Lemma completes_with_value {A : Type} (m : result A) (k : A -> printed) :
  (exists a, m = Ok a /\ completes (k a)) -> completes (with_value m k).
Proof. intros [a [E H]]. rewrite E. exact H. Qed.

Lemma completes_print_always (a : analysis) :
  ready a ->
  completes (print_always (select Always (categorize (columns a)))).
Proof.
  intros [Hcols _]. unfold print_always. apply completes_section.
  unfold or_none.
  destruct (select Always (categorize (columns a))) as [|e0 r] eqn:El;
    [reflexivity|].
  rewrite <- El. apply completes_for_each. intros e He.
  apply select_In in He. destruct He as [col [st [Ee [Hin Hb]]]]. subst e.
  destruct (Hcols col st Hin) as [_ [_ [vs Hh]]].
  destruct (primary_type_all_typed vs st Hh) as [t [Ht _]].
  { apply filled_of_bucket. rewrite Hb. discriminate. }
  apply completes_with_value. exists t. split; [exact Ht|].
  repeat apply completes_and_then; try apply completes_print.
  destruct (sample_values st); reflexivity.
Qed.

Lemma completes_print_partly (a : analysis) (title : string) (k : bucket) :
  ready a -> k <> Rarely ->
  completes (print_partly title (select k (categorize (columns a)))).
Proof.
  intros [Hcols _] Hk. unfold print_partly. apply completes_section.
  unfold or_none.
  destruct (select k (categorize (columns a))) as [|e0 r] eqn:El;
    [reflexivity|].
  rewrite <- El. apply completes_for_each. intros e He.
  apply select_In in He. destruct He as [col [st [Ee [Hin Hb]]]]. subst e.
  destruct (Hcols col st Hin) as [_ [_ [vs Hh]]].
  destruct (primary_type_all_typed vs st Hh) as [t [Ht _]].
  { apply filled_of_bucket. rewrite Hb. exact Hk. }
  apply completes_with_value. exists t. split; [exact Ht|].
  repeat apply completes_and_then; apply completes_print.
Qed.

Lemma true_div_Ok (n d : nat) :
  d <> 0 -> true_div n d = Ok (of_nat_Q n / of_nat_Q d)%Q.
Proof.
  intros H. unfold true_div. apply Nat.eqb_neq in H. rewrite H. reflexivity.
Qed.

Lemma completes_print_cosponsors (a : analysis) :
  0 < total_rows a -> completes (print_cosponsors a).
Proof.
  intros H. unfold print_cosponsors, percent.
  rewrite true_div_Ok by lia. cbn [bind with_value].
  apply completes_section.
  repeat apply completes_and_then; apply completes_print.
Qed.

Lemma completes_print_subject_terms (a : analysis) :
  0 < total_rows a -> all_positive (subject_terms a) ->
  completes (print_subject_terms a).
Proof.
  intros H Hpos. unfold print_subject_terms, percent.
  rewrite true_div_Ok by lia. cbn [bind with_value].
  apply completes_section.
  apply completes_and_then;
    [repeat apply completes_and_then; apply completes_print|].
  destruct (SortFacts.sorted_fold (subject_terms a) [] (SSorted_nil _))
    as [Hperm _].
  cbn [app] in Hperm. fold (sorted_desc (subject_terms a)) in Hperm.
  destruct (sorted_desc (subject_terms a)) as [|first rest] eqn:Es;
    [reflexivity|].
  assert (Hall : all_positive (first :: rest)).
  { unfold all_positive.
    apply (Permutation_Forall (Permutation_sym Hperm)). exact Hpos. }
  apply completes_and_then; [apply completes_and_then|].
  - apply completes_print.
  - apply completes_for_each. intros tc Htc. unfold print_term.
    rewrite true_div_Ok.
    + reflexivity.
    + inversion Hall as [|? ? H1 _]; subst. lia.
  - destruct (30 <? List.length (first :: rest)); reflexivity.
Qed.

Lemma completes_print_schema (a : analysis) :
  ready a -> completes (print_schema (categorize (columns a))).
Proof.
  intros [Hcols _]. unfold print_schema.
  repeat apply completes_and_then; try apply completes_print.
  - apply completes_for_each. intros e He.
    change (always_filled (categorize (columns a)))
      with (select Always (categorize (columns a))) in He.
    apply select_In in He. destruct He as [col [st [Ee [Hin Hb]]]]. subst e.
    destruct (Hcols col st Hin) as [_ [_ [vs Hh]]].
    destruct (primary_type_all_typed vs st Hh) as [t [Ht _]].
    { apply filled_of_bucket. rewrite Hb. discriminate. }
    apply completes_with_value. exists t. split; [exact Ht|reflexivity].
  - apply completes_for_each. intros [[col st] rate] _.
    destruct (primary_type_non_empty_Ok "string" st) as [t Ht].
    apply completes_with_value. exists t. split; [exact Ht|reflexivity].
Qed.

(** With a row, nothing in the report raises. *)
Lemma print_report_completes (a : analysis) :
  ready a -> 0 < total_rows a -> completes (print_report a).
Proof.
  intros Hr Hn. unfold print_report. cbv zeta.
  apply completes_and_then; [|apply completes_print_schema; exact Hr].
  apply completes_and_then;
    [|apply completes_print_subject_terms; [exact Hn|apply Hr]].
  apply completes_and_then; [|apply completes_print_cosponsors; exact Hn].
  apply completes_and_then; [|apply completes_print_rarely].
  apply completes_and_then;
    [|refine (completes_print_partly
                a "SOMETIMES FILLED (50-89%) - NULLABLE" Sometimes Hr _);
      discriminate].
  apply completes_and_then;
    [|refine (completes_print_partly
                a "MOSTLY FILLED (90-99%) - Consider NULLABLE" Mostly Hr _);
      discriminate].
  apply completes_and_then; [|exact (completes_print_always a Hr)].
  repeat apply completes_and_then; apply completes_print.
Qed.


(** *** The exit status *)

(** The program exits with status 0 exactly when it has a path, the
    analysis pass returns and the file has a data row; it has then printed
    the two progress lines and the whole report, and nothing else. *)
Theorem exit_status_zero_iff (cfg : config) (w : world) :
  (exit_status (main cfg w) = 0 <->
   exists filepath a,
     resolve_path w = Some filepath /\
     analyze_csv cfg (open_file w) filepath = Ok a /\
     0 < total_rows a) /\
  (forall filepath a,
      resolve_path w = Some filepath ->
      analyze_csv cfg (open_file w) filepath = Ok a ->
      0 < total_rows a ->
      snd (print_report a) = None /\
      main cfg w =
      {| stdout := Analyzing filepath :: PleaseWait
                   :: map Report (fst (print_report a));
         exit_status := 0 |}).
Proof.
  assert (Hfull : forall filepath a,
             resolve_path w = Some filepath ->
             analyze_csv cfg (open_file w) filepath = Ok a ->
             0 < total_rows a ->
             snd (print_report a) = None /\
             main cfg w =
             {| stdout := Analyzing filepath :: PleaseWait
                          :: map Report (fst (print_report a));
                exit_status := 0 |}).
  { intros filepath a Hp Ha Hn.
    pose proof (print_report_completes a (analysis_ready _ _ _ _ Ha) Hn) as Hc.
    split; [exact Hc|].
    rewrite (main_with_path cfg w filepath Hp).
    unfold analyze_and_report. rewrite Ha.
    unfold completes in Hc. destruct (print_report a) as [ls o].
    cbn [snd] in Hc. subst o. reflexivity. }
  split; [|exact Hfull]. split.
  - intros H. unfold main in H.
    destruct (resolve_path w) as [filepath|] eqn:Hp; [|discriminate].
    cbn [exit_status] in H. unfold analyze_and_report in H.
    destruct (analyze_csv cfg (open_file w) filepath) as [a|e] eqn:Ha;
      [|destruct e; discriminate].
    exists filepath, a. split; [reflexivity|]. split; [exact Ha|].
    destruct (total_rows a) as [|n] eqn:Hn; [|lia].
    exfalso.
    destruct (analysis_ready _ _ _ _ Ha) as [Hcols _].
    destruct (print_report_no_rows a Hn) as [ls [Hr _]].
    { intros col st Hin. destruct (Hcols col st Hin) as [Ht _]. lia. }
    rewrite Hr in H. discriminate.
  - intros [filepath [a [Hp [Ha Hn]]]].
    destruct (Hfull filepath a Hp Ha Hn) as [_ Hm]. rewrite Hm. reflexivity.
Qed.

(** *** The lines of the report *)

Lemma Forall_and_then (Q : report_line -> Prop) (p q : printed) :
  Forall Q (fst p) -> Forall Q (fst q) -> Forall Q (fst (p >> q)).
Proof.
  destruct p as [ls [e|]]; cbn [and_then fst]; intros Hp Hq; [exact Hp|].
  apply Forall_app. split; assumption.
Qed.

Lemma Forall_print (Q : report_line -> Prop) (l : report_line) :
  Q l -> Forall Q (fst (print l)).
Proof. intros H. constructor; [exact H|constructor]. Qed.

Lemma Forall_for_each {A : Type} (Q : report_line -> Prop)
    (f : A -> printed) (l : list A) :
  (forall x, In x l -> Forall Q (fst (f x))) ->
  Forall Q (fst (for_each f l)).
Proof.
  induction l as [|x r IH]; intros H; cbn [for_each]; [constructor|].
  apply Forall_and_then.
  - apply H. left. reflexivity.
  - apply IH. intros y Hy. apply H. right. exact Hy.
Qed.

Lemma Forall_with_value {A : Type} (Q : report_line -> Prop)
    (m : result A) (k : A -> printed) :
  (forall a, m = Ok a -> Forall Q (fst (k a))) ->
  Forall Q (fst (with_value m k)).
Proof.
  intros H. destruct m as [a|e]; cbn [with_value fst];
    [apply H; reflexivity|constructor].
Qed.

Lemma Forall_section (Q : report_line -> Prop) (title : string)
    (body : printed) :
  Q (Title title) -> Q Rule -> Forall Q (fst body) ->
  Forall Q (fst (section title body)).
Proof.
  intros H1 H2 H3. unfold section.
  repeat apply Forall_and_then; try apply Forall_print; assumption.
Qed.

(** A line of the report before the schema: a type it names is [N/A] or
    a type tag other than [empty], and it is no field of the schema. *)
Definition body_line (l : report_line) : Prop :=
  match l with
  | TypeLine t => t <> "empty" /\ (t = "N/A" \/ In t type_tags)
  | SqlField _ _ _ _ => False
  | Sql _ => False
  | _ => True
  end.

Lemma body_print_always (a : analysis) :
  ready a ->
  Forall body_line (fst (print_always (select Always (categorize (columns a))))).
Proof.
  intros [Hcols _]. unfold print_always.
  apply Forall_section; [exact I|exact I|]. unfold or_none.
  destruct (select Always (categorize (columns a))) as [|e0 r] eqn:El;
    [apply Forall_print; exact I|].
  rewrite <- El. apply Forall_for_each. intros e He.
  apply select_In in He. destruct He as [col [st [Ee [Hin Hb]]]]. subst e.
  destruct (Hcols col st Hin) as [_ [_ [vs Hh]]].
  destruct (primary_type_all_typed vs st Hh) as [t [Ht [Hne Htag]]].
  { apply filled_of_bucket. rewrite Hb. discriminate. }
  apply Forall_with_value. intros t' Ht'. rewrite Ht in Ht'.
  inversion Ht'. subst t'.
  repeat apply Forall_and_then; try (apply Forall_print; exact I).
  - apply Forall_print. split; [exact Hne|right; exact Htag].
  - destruct (sample_values st); [constructor|apply Forall_print; exact I].
Qed.

Lemma body_print_partly (a : analysis) (title : string) (k : bucket) :
  ready a -> k <> Rarely ->
  Forall body_line (fst (print_partly title (select k (categorize (columns a))))).
Proof.
  intros [Hcols _] Hk. unfold print_partly.
  apply Forall_section; [exact I|exact I|]. unfold or_none.
  destruct (select k (categorize (columns a))) as [|e0 r] eqn:El;
    [apply Forall_print; exact I|].
  rewrite <- El. apply Forall_for_each. intros e He.
  apply select_In in He. destruct He as [col [st [Ee [Hin Hb]]]]. subst e.
  destruct (Hcols col st Hin) as [_ [_ [vs Hh]]].
  destruct (primary_type_all_typed vs st Hh) as [t [Ht [Hne Htag]]].
  { apply filled_of_bucket. rewrite Hb. exact Hk. }
  apply Forall_with_value. intros t' Ht'. rewrite Ht in Ht'.
  inversion Ht'. subst t'.
  repeat apply Forall_and_then; try (apply Forall_print; exact I).
  apply Forall_print. split; [exact Hne|right; exact Htag].
Qed.

Lemma body_print_rarely (a : analysis) :
  ready a ->
  Forall body_line (fst (print_rarely (select Rarely (categorize (columns a))))).
Proof.
  intros [Hcols _]. unfold print_rarely.
  apply Forall_section; [exact I|exact I|]. unfold or_none.
  destruct (select Rarely (categorize (columns a))) as [|e0 r] eqn:El;
    [apply Forall_print; exact I|].
  rewrite <- El. apply Forall_for_each. intros e He.
  apply select_In in He. destruct He as [col [st [Ee [Hin Hb]]]]. subst e.
  destruct (Hcols col st Hin) as [_ [_ [vs Hh]]].
  destruct (primary_type_non_empty_typed vs "N/A" st Hh) as [t [Ht Hok]].
  apply Forall_with_value. intros t' Ht'. rewrite Ht in Ht'.
  inversion Ht'. subst t'.
  repeat apply Forall_and_then; try (apply Forall_print; exact I).
  apply Forall_print. destruct Hok as [E|[Hne Htag]].
  - subst t. split; [discriminate|left; reflexivity].
  - split; [exact Hne|right; exact Htag].
Qed.

Lemma body_print_cosponsors (a : analysis) :
  Forall body_line (fst (print_cosponsors a)).
Proof.
  unfold print_cosponsors. apply Forall_section; [exact I|exact I|].
  repeat apply Forall_and_then; try (apply Forall_print; exact I).
  apply Forall_with_value. intros pct _. apply Forall_print. exact I.
Qed.

Lemma body_print_subject_terms (a : analysis) :
  Forall body_line (fst (print_subject_terms a)).
Proof.
  unfold print_subject_terms. apply Forall_section; [exact I|exact I|].
  apply Forall_and_then; [apply Forall_and_then|].
  - apply Forall_with_value. intros pct _. apply Forall_print. exact I.
  - apply Forall_print. exact I.
  - destruct (sorted_desc (subject_terms a)) as [|first rest];
      [constructor|].
    apply Forall_and_then; [apply Forall_and_then|].
    + apply Forall_print. exact I.
    + apply Forall_for_each. intros tc _. unfold print_term.
      apply Forall_with_value. intros q _. apply Forall_print. exact I.
    + destruct (30 <? List.length (first :: rest));
        [apply Forall_print; exact I|constructor].
Qed.

(** The report up to the schema. *)
Definition report_body (a : analysis) : printed :=
  let b := categorize (columns a) in
  print Rule >> print (Title "CSV DATA ANALYSIS REPORT") >> print Rule
  >> print (TotalRows (total_rows a))
  >> print (AnalyzedColumns (List.length (columns a)))
  >> print_always (always_filled b)
  >> print_partly "MOSTLY FILLED (90-99%) - Consider NULLABLE" (mostly_filled b)
  >> print_partly "SOMETIMES FILLED (50-89%) - NULLABLE" (sometimes_filled b)
  >> print_rarely (rarely_filled b)
  >> print_cosponsors a
  >> print_subject_terms a.

Lemma print_report_body (a : analysis) :
  print_report a = report_body a >> print_schema (categorize (columns a)).
Proof. reflexivity. Qed.

Lemma body_report_body (a : analysis) :
  ready a -> Forall body_line (fst (report_body a)).
Proof.
  intros Hr. unfold report_body. cbv zeta.
  apply Forall_and_then; [|apply body_print_subject_terms].
  apply Forall_and_then; [|apply body_print_cosponsors].
  apply Forall_and_then; [|exact (body_print_rarely a Hr)].
  apply Forall_and_then;
    [|refine (body_print_partly
                a "SOMETIMES FILLED (50-89%) - NULLABLE" Sometimes Hr _);
      discriminate].
  apply Forall_and_then;
    [|refine (body_print_partly
                a "MOSTLY FILLED (90-99%) - Consider NULLABLE" Mostly Hr _);
      discriminate].
  apply Forall_and_then; [|exact (body_print_always a Hr)].
  repeat apply Forall_and_then; apply Forall_print; exact I.
Qed.

(** The schema prints no type line. *)
Lemma schema_no_type_line (b : buckets) :
  Forall (fun l => match l with TypeLine _ => False | _ => True end)
         (fst (print_schema b)).
Proof.
  unfold print_schema.
  repeat apply Forall_and_then; try (apply Forall_print; exact I).
  - apply Forall_for_each. intros [[col st] rate] _.
    apply Forall_with_value. intros t _. apply Forall_print. exact I.
  - apply Forall_for_each. intros [[col st] rate] _.
    apply Forall_with_value. intros t _. apply Forall_print. exact I.
Qed.

(** Whatever the report of an analysis prints, also when it stops early,
    the type it names for a column is never [empty]: it is the
    placeholder [N/A] or one of the five tags of filled cells. *)
Theorem report_never_names_empty_type (cfg : config)
    (open_file : string -> result Csv.stream) (filepath : string)
    (a : analysis) (t : string) :
  analyze_csv cfg open_file filepath = Ok a ->
  In (TypeLine t) (fst (print_report a)) ->
  t <> "empty" /\
  In t ["N/A"; "url"; "date"; "integer"; "float"; "string"].
Proof.
  intros Ha Hin.
  pose proof (body_report_body a (analysis_ready _ _ _ _ Ha)) as Hb.
  pose proof (schema_no_type_line (categorize (columns a))) as Hs.
  rewrite print_report_body in Hin.
  assert (Hor : In (TypeLine t) (fst (report_body a)) \/
                In (TypeLine t) (fst (print_schema (categorize (columns a))))).
  { destruct (report_body a) as [ls [e|]]; cbn [and_then fst] in Hin |- *;
      [left; exact Hin|apply in_app_or; exact Hin]. }
  destruct Hor as [H|H].
  - rewrite Forall_forall in Hb. destruct (Hb _ H) as [Hne Hok].
    split; [exact Hne|].
    destruct Hok as [E|Htag]; [subst t; left; reflexivity|].
    unfold type_tags in Htag. cbn [In] in Htag |- *.
    destruct Htag as [E|Htag]; [subst t; contradiction|]. tauto.
  - rewrite Forall_forall in Hs. destruct (Hs _ H).
Qed.

Lemma report_never_names_empty_type_witness :
  "integer" <> "empty" /\
  In "integer" ["N/A"; "url"; "date"; "integer"; "float"; "string"].
Proof.
  apply (report_never_names_empty_type default_config
           (Scenarios.only Scenarios.scenario_file) "bills.csv"
           Scenarios.scenario_analysis "integer").
  - vm_compute. reflexivity.
  - vm_compute. auto 20.
Defined.


(** *** The schema *)

(** The fields of the schema among printed lines: name, SQL type and
    whether the field is NOT NULL. *)
Definition sql_fields (ls : list report_line) : list (string * string * bool) :=
  flat_map (fun l => match l with
                     | SqlField name ty not_null _ => [(name, ty, not_null)]
                     | _ => []
                     end) ls.

Lemma sql_fields_body (ls : list report_line) :
  Forall body_line ls -> sql_fields ls = [].
Proof.
  induction 1 as [|l r Hl _ IH]; [reflexivity|].
  unfold sql_fields in *. cbn [flat_map]. rewrite IH.
  destruct l; try reflexivity; contradiction.
Qed.

Lemma for_each_prints {A : Type} (f : A -> printed) (g : A -> report_line)
    (l : list A) :
  (forall x, In x l -> f x = print (g x)) ->
  for_each f l = (map g l, None).
Proof.
  induction l as [|x r IH]; intros H; cbn [for_each map]; [reflexivity|].
  rewrite (H x (or_introl eq_refl)), IH; [reflexivity|].
  intros y Hy. apply H. right. exact Hy.
Qed.

(** The dominant type the schema uses for a column. *)
Definition schema_type (not_null : bool) (st : ColumnStat) : string :=
  match (if not_null then primary_type_all st
         else primary_type_non_empty "string" st) with
  | Ok t => sql_type_of t
  | Raise _ => "TEXT"
  end.

Definition field_of (not_null : bool) (e : entry) : string * string * bool :=
  (column_identifier (entry_name e), schema_type not_null (snd (fst e)),
   not_null).

Definition field_line (not_null : bool) (e : entry) : report_line :=
  SqlField (column_identifier (entry_name e))
           (schema_type not_null (snd (fst e))) not_null
           (if not_null then None else Some (snd e)).

Lemma sql_fields_app (l1 l2 : list report_line) :
  sql_fields (l1 ++ l2) = (sql_fields l1 ++ sql_fields l2)%list.
Proof. apply flat_map_app. Qed.

Lemma sql_fields_map (not_null : bool) (l : list entry) :
  sql_fields (map (field_line not_null) l) = map (field_of not_null) l.
Proof.
  induction l as [|e r IH]; [reflexivity|].
  unfold sql_fields in *. cbn [map flat_map app]. rewrite IH. reflexivity.
Qed.

Lemma sql_type_of_three (t : string) :
  In (sql_type_of t) ["DATE"; "INTEGER"; "TEXT"].
Proof.
  unfold sql_type_of.
  destruct (String.eqb t "date"); [cbn; auto|].
  destruct (String.eqb t "url"); [cbn; auto|].
  destruct (String.eqb t "integer"); cbn; auto.
Qed.

Lemma print_schema_lines (a : analysis) :
  ready a ->
  let b := categorize (columns a) in
  sql_fields (fst (print_schema b)) =
  (map (field_of true) (always_filled b)
   ++ map (field_of false)
          (mostly_filled b ++ sometimes_filled b ++ rarely_filled b))%list.
Proof.
  intros [Hcols _] b. unfold print_schema.
  rewrite (for_each_prints _ (field_line true) (always_filled b)).
  - rewrite (for_each_prints _ (field_line false)
               (mostly_filled b ++ sometimes_filled b ++ rarely_filled b)).
    + cbn [print and_then fst snd].
      rewrite !sql_fields_app, !sql_fields_map.
      cbn [sql_fields flat_map app]. rewrite !app_nil_r. reflexivity.
    + intros [[col st] rate] _. unfold field_line, schema_type, entry_name.
      cbn [fst snd].
      destruct (primary_type_non_empty_Ok "string" st) as [t Ht].
      rewrite Ht. reflexivity.
  - intros e He.
    change (always_filled b) with (select Always (categorize (columns a))) in He.
    apply select_In in He. destruct He as [col [st [Ee [Hin Hb]]]]. subst e.
    destruct (Hcols col st Hin) as [_ [_ [vs Hh]]].
    destruct (primary_type_all_typed vs st Hh) as [t [Ht _]].
    { apply filled_of_bucket. rewrite Hb. discriminate. }
    unfold field_line, schema_type, entry_name. cbn [fst snd].
    rewrite Ht. reflexivity.
Qed.

(** The schema of a report that is printed in full: one field for each
    column of the analysis; first the always-filled columns, NOT NULL,
    then the mostly-, sometimes- and rarely-filled ones, nullable; each
    named by the identifier of its column and typed DATE, INTEGER or
    TEXT. *)
Theorem schema_has_a_field_per_column (cfg : config)
    (open_file : string -> result Csv.stream) (filepath : string)
    (a : analysis) :
  analyze_csv cfg open_file filepath = Ok a ->
  0 < total_rows a ->
  let b := categorize (columns a) in
  let fields := sql_fields (fst (print_report a)) in
  map (fun f => (fst (fst f), snd f)) fields =
    (map (fun e => (column_identifier (entry_name e), true)) (always_filled b)
     ++ map (fun e => (column_identifier (entry_name e), false))
            (mostly_filled b ++ sometimes_filled b ++ rarely_filled b))%list /\
  List.length fields = List.length (columns a) /\
  forall f, In f fields -> In (snd (fst f)) ["DATE"; "INTEGER"; "TEXT"].
Proof.
  intros Ha Hn b fields.
  pose proof (analysis_ready _ _ _ _ Ha) as Hr.
  assert (Hf : fields =
               (map (field_of true) (always_filled b)
                ++ map (field_of false)
                       (mostly_filled b ++ sometimes_filled b
                        ++ rarely_filled b))%list).
  { subst fields. rewrite print_report_body.
    assert (Hc : completes (report_body a)).
    { pose proof (print_report_completes a Hr Hn) as Hc.
      rewrite print_report_body in Hc. unfold completes in *.
      destruct (report_body a) as [ls [e|]]; [discriminate Hc|reflexivity]. }
    rewrite and_then_completes by exact Hc. cbn [fst].
    rewrite sql_fields_app.
    rewrite (sql_fields_body _ (body_report_body a Hr)).
    cbn [app]. apply (print_schema_lines a Hr). }
  rewrite Hf. split; [|split].
  - rewrite map_app, !map_map. reflexivity.
  - rewrite length_app, !length_map, !length_app.
    subst b.
    change (always_filled (categorize (columns a)))
      with (select Always (categorize (columns a))).
    change (mostly_filled (categorize (columns a)))
      with (select Mostly (categorize (columns a))).
    change (sometimes_filled (categorize (columns a)))
      with (select Sometimes (categorize (columns a))).
    change (rarely_filled (categorize (columns a)))
      with (select Rarely (categorize (columns a))).
    rewrite !select_categorize, !length_map.
    rewrite <- (filter_buckets_length (columns a)). lia.
  - intros f Hin. apply in_app_or in Hin.
    destruct Hin as [Hin|Hin]; apply in_map_iff in Hin;
      destruct Hin as [e [Ee _]]; subst f; unfold field_of, schema_type;
      cbn [fst snd].
    + destruct (primary_type_all (snd (fst e)));
        [apply sql_type_of_three|cbn; auto].
    + destruct (primary_type_non_empty "string" (snd (fst e)));
        [apply sql_type_of_three|cbn; auto].
Qed.

Lemma schema_has_a_field_per_column_witness :
  let a := Scenarios.scenario_analysis in
  let b := categorize (columns a) in
  let fields := sql_fields (fst (print_report a)) in
  map (fun f => (fst (fst f), snd f)) fields =
    (map (fun e => (column_identifier (entry_name e), true)) (always_filled b)
     ++ map (fun e => (column_identifier (entry_name e), false))
            (mostly_filled b ++ sometimes_filled b ++ rarely_filled b))%list /\
  List.length fields = List.length (columns a) /\
  forall f, In f fields -> In (snd (fst f)) ["DATE"; "INTEGER"; "TEXT"].
Proof.
  apply (schema_has_a_field_per_column default_config
           (Scenarios.only Scenarios.scenario_file) "bills.csv"
           Scenarios.scenario_analysis).
  - vm_compute. reflexivity.
  - cbn. lia.
Defined.

(** The schema of the scenario file: [A] is always filled, [B] is not. *)
Example scenario_schema :
  sql_fields (fst (print_report Scenarios.scenario_analysis)) =
  [("a", "INTEGER", true); ("b", "TEXT", false)].
Proof. vm_compute. reflexivity. Qed.

End FullReport.

(* ================================================================== *)
(** ** The loader: the lines before the header *)
(* ================================================================== *)

Module LoaderFacts.

Import Py CsvAnalyzer AnalysisFacts.

(** How the iteration over a file with no line left stops. *)
Definition end_of (f : Csv.stream) : exn :=
  match Csv.tail f with
  | Some e => e
  | None => StopIteration
  end.

(** The loader reads four lines before any row: when [open] fails, the
    failure is the result; a file with fewer than four lines makes the
    pass raise what [next] raises at the end of the file (StopIteration
    at a plain end), and the three lines before the header are never
    looked at: any three lines in their place give the same result. *)
Theorem loader_skips_three_lines (cfg : config)
    (open_file : string -> result Csv.stream) (filepath : string) :
  (forall e, open_file filepath = Raise e ->
             analyze_csv cfg open_file filepath = Raise e) /\
  (forall f, open_file filepath = Ok f ->
             List.length (Csv.lines f) < 4 ->
             analyze_csv cfg open_file filepath = Raise (end_of f)) /\
  (forall f m1 m2 m3 rest n1 n2 n3,
      open_file filepath = Ok f ->
      Csv.lines f = m1 :: m2 :: m3 :: rest ->
      analyze_csv cfg open_file filepath =
      analyze_csv cfg
        (fun _ => Ok {| Csv.lines := n1 :: n2 :: n3 :: rest;
                        Csv.tail := Csv.tail f |})
        filepath).
Proof.
  split; [|split].
  - intros e H. unfold analyze_csv. rewrite H. reflexivity.
  - intros [ls tl] H Hlen. unfold analyze_csv, end_of. rewrite H.
    cbn [Csv.lines Csv.tail] in *.
    destruct ls as [|l1 [|l2 [|l3 [|l4 ls]]]]; cbn [List.length] in Hlen;
      try lia; destruct tl; reflexivity.
  - intros [ls tl] m1 m2 m3 rest n1 n2 n3 H Hls.
    cbn [Csv.lines Csv.tail] in *. subst ls.
    unfold analyze_csv. rewrite H. reflexivity.
Qed.

End LoaderFacts.

(* ================================================================== *)
(** ** More on the scalar coercion of the storage wrapper *)
(* ================================================================== *)

Module CoercionConverse.

Import Py SupaBaseCsvParser.

Definition nulls : list string := ["null"; "none"; "nil"].
Definition trues : list string := ["true"; "yes"; "1"].
Definition falses : list string := ["false"; "no"; "0"].

Lemma str_in_tuple_In (x : string) (l : list string) :
  str_in_tuple x l = true <-> In x l.
Proof.
  unfold str_in_tuple. rewrite existsb_exists. split.
  - intros [y [H1 H2]]. apply String.eqb_eq in H2. subst. exact H1.
  - intros H. exists x. split; [exact H|apply String.eqb_refl].
Qed.

Lemma str_in_tuple_not (x : string) (l : list string) :
  str_in_tuple x l = false <-> ~ In x l.
Proof.
  rewrite <- str_in_tuple_In. destruct (str_in_tuple x l); split; congruence.
Qed.

Lemma words_apart (x : string) :
  (In x nulls -> ~ In x trues /\ ~ In x falses) /\
  (In x trues -> ~ In x falses).
Proof.
  unfold nulls, trues, falses. cbn [In]. split.
  - intros [H|[H|[H|[]]]]; subst x; split;
      intros [H|[H|[H|[]]]]; discriminate.
  - intros [H|[H|[H|[]]]]; subst x; intros [H|[H|[H|[]]]]; discriminate.
Qed.

(** The branch of [_infer_type] a text takes. *)
Inductive branch (int : string -> option Z) (float : string -> option string)
    (v : string) : value -> Prop :=
| branch_empty : v = "" -> branch int float v PyNone
| branch_null : v <> "" -> In (lower v) nulls -> branch int float v PyNone
| branch_true :
    v <> "" -> ~ In (lower v) nulls -> In (lower v) trues ->
    branch int float v (PyBool true)
| branch_false :
    v <> "" -> ~ In (lower v) nulls -> ~ In (lower v) trues ->
    In (lower v) falses -> branch int float v (PyBool false)
| branch_int (z : Z) :
    v <> "" -> ~ In (lower v) nulls -> ~ In (lower v) trues ->
    ~ In (lower v) falses -> int v = Some z -> branch int float v (PyInt z)
| branch_float (f : string) :
    v <> "" -> ~ In (lower v) nulls -> ~ In (lower v) trues ->
    ~ In (lower v) falses -> int v = None -> float v = Some f ->
    branch int float v (PyFloat f)
| branch_str :
    v <> "" -> ~ In (lower v) nulls -> ~ In (lower v) trues ->
    ~ In (lower v) falses -> int v = None -> float v = None ->
    branch int float v (PyStr v).

Lemma _infer_type_branch (int : string -> option Z)
    (float : string -> option string) (v : string) :
  branch int float v (_infer_type int float (Some v)).
Proof.
  unfold _infer_type.
  destruct (String.eqb_spec v "") as [E|N]; [apply branch_empty; exact E|].
  fold nulls trues falses.
  destruct (str_in_tuple (lower v) nulls) eqn:E1;
    [apply branch_null; [exact N|apply str_in_tuple_In; exact E1]|].
  apply str_in_tuple_not in E1.
  destruct (str_in_tuple (lower v) trues) eqn:E2;
    [apply branch_true; [exact N|exact E1|apply str_in_tuple_In; exact E2]|].
  apply str_in_tuple_not in E2.
  destruct (str_in_tuple (lower v) falses) eqn:E3;
    [apply branch_false; try assumption; apply str_in_tuple_In; exact E3|].
  apply str_in_tuple_not in E3.
  destruct (int v) as [z|] eqn:Ei; [apply branch_int; assumption|].
  destruct (float v) as [f|] eqn:Ef;
    [apply branch_float; assumption|apply branch_str; assumption].
Qed.

(** The results of [_infer_type], read backwards: None comes only from
    None, the empty string and the three null words; a boolean only from
    the words of its truth value; an integer or a float only from what
    [int] or [float] made of the text; and a string is returned only when
    both refused it, and is then the text itself, which is never empty. *)
Theorem coercion_results (int : string -> option Z)
    (float : string -> option string) (v : string) :
  let r := _infer_type int float (Some v) in
  (r = PyNone <-> v = "" \/ In (lower v) ["null"; "none"; "nil"]) /\
  (r = PyBool true <-> v <> "" /\ In (lower v) ["true"; "yes"; "1"]) /\
  (r = PyBool false <-> v <> "" /\ In (lower v) ["false"; "no"; "0"]) /\
  (forall z, r = PyInt z -> int v = Some z) /\
  (forall f, r = PyFloat f -> int v = None /\ float v = Some f) /\
  (forall s, r = PyStr s ->
             s = v /\ v <> "" /\ int v = None /\ float v = None).
Proof.
  cbv zeta. fold nulls trues falses.
  pose proof (_infer_type_branch int float v) as Hb.
  pose proof (words_apart (lower v)) as [Hn Ht].
  assert (He : v = "" -> ~ In (lower v) trues /\ ~ In (lower v) falses).
  { intros E. subst v. split; intros [H|[H|[H|[]]]]; discriminate. }
  remember (_infer_type int float (Some v)) as r eqn:Er. clear Er.
  split; [|split; [|split; [|split; [|split]]]].
  - split.
    + intros E. subst r. inversion Hb; [left|right]; assumption.
    + intros H. destruct Hb; try reflexivity; exfalso;
        destruct H as [H|H]; contradiction.
  - split.
    + intros E. subst r. inversion Hb. split; assumption.
    + intros [H1 H2]. destruct Hb; try reflexivity; exfalso;
        try contradiction.
      apply (proj1 (Hn ltac:(eassumption))). exact H2.
  - split.
    + intros E. subst r. inversion Hb. split; assumption.
    + intros [H1 H2]. destruct Hb; try reflexivity; exfalso;
        try contradiction.
      * apply (proj2 (Hn ltac:(eassumption))). exact H2.
      * apply (Ht ltac:(eassumption)). exact H2.
  - intros z E. subst r. inversion Hb. assumption.
  - intros f E. subst r. inversion Hb. split; assumption.
  - intros s E. subst r. inversion Hb. repeat split; assumption.
Qed.

(** [None] is returned as None. *)
Example coercion_of_None (int : string -> option Z)
    (float : string -> option string) :
  _infer_type int float None = PyNone.
Proof. reflexivity. Qed.

(** Only the six words are booleans: other spellings of zero and one are
    integers, and a decimal point makes a float. *)
Example coercion_numbers :
  map (infer 4300) [Some "0"; Some "00"; Some "+1"; Some "1.0"; Some "2";
                    Some "TRUE"; Some "nil"; Some "n/a"; Some "1_000"]
  = [PyBool false; PyInt 0; PyInt 1; PyFloat "1.0"; PyInt 2;
     PyBool true; PyNone; PyStr "n/a"; PyInt 1000].
Proof. reflexivity. Qed.

End CoercionConverse.

(* ================================================================== *)
(** ** [src/n8n/supaBaseCsvParser.py]: from CSV text to rows *)
(* ================================================================== *)

Module SupaBaseRows.

Import Py SupaBaseCsvParser.

(** How a call ends that does not return: with an exception of the
    reader or the decoder, or with the AttributeError of [None.strip()]. *)
Inductive failure : Type :=
| Raised (e : exn)
| AttributeError.

Inductive outcome (A : Type) : Type :=
| Returned (a : A)
| Failed (f : failure).
Arguments Returned {A} a.
Arguments Failed {A} f.

(** The lines [io.StringIO(text)] yields: they end at a line feed, which
    they keep; nothing is translated. *)
Fixpoint splitlines (s : string) : list string :=
  match s with
  | EmptyString => []
  | String c r =>
      if code c =? 10 then String c EmptyString :: splitlines r
      else match splitlines r with
           | [] => [String c EmptyString]
           | l :: ls => String c l :: ls
           end
  end.

(** A row as [csv.DictReader] yields it: the cells under the field names
    (None where the row has no cell left), and under the key None the
    cells past the last field name, when there are any. *)
Record dict_row : Type :=
  { named : Dict.t (option string); rest : option (list string) }.

(** [dict(zip(fieldnames, row))] *)
Definition zip_row (fieldnames row : list string) : Dict.t (option string) :=
  fold_left (fun d kv => Dict.set d (fst kv) (Some (snd kv)))
            (combine fieldnames row) [].

(** The body of [DictReader.__next__] after a row that is not empty was
    read. *)
Definition reader_dict (fieldnames row : list string) : dict_row :=
  let d := zip_row fieldnames row in
  let lf := List.length fieldnames in
  let lr := List.length row in
  if lf <? lr then {| named := d; rest := Some (skipn lf row) |}
  else {| named := fold_left (fun d key => Dict.set d key None)
                             (skipn lr fieldnames) d;
          rest := None |}.

(** Lines 86-89 on one value *)
Definition clean_value (max_str_digits : N) (auto_convert_types : bool)
    (v : option string) : value :=
  let clean := option_map strip v in
  if auto_convert_types then infer max_str_digits clean
  else match clean with
       | Some s => PyStr s
       | None => PyNone
       end.

(** Lines 83-91 on the named cells *)
Definition clean_named (max_str_digits : N) (auto_convert_types : bool)
    (d : Dict.t (option string)) : Dict.t value :=
  fold_left (fun cleaned kv =>
               Dict.set cleaned (strip (fst kv))
                        (clean_value max_str_digits auto_convert_types (snd kv)))
            d [].

(** Lines 83-92: the key None, which comes last, has no [strip]. *)
Definition clean_row (max_str_digits : N) (auto_convert_types : bool)
    (r : dict_row) : outcome (Dict.t value) :=
  match rest r with
  | Some _ => Failed AttributeError
  | None => Returned (clean_named max_str_digits auto_convert_types (named r))
  end.

(** The loop over the reader (lines 82-92); it passes over empty rows. *)
Fixpoint rows_of (max_str_digits : N) (auto_convert_types : bool)
    (fieldnames : list string) (data : list (list string))
  : outcome (list (Dict.t value)) :=
  match data with
  | [] => Returned []
  | [] :: more => rows_of max_str_digits auto_convert_types fieldnames more
  | row :: more =>
      match clean_row max_str_digits auto_convert_types
                      (reader_dict fieldnames row) with
      | Failed f => Failed f
      | Returned c =>
          match rows_of max_str_digits auto_convert_types fieldnames more with
          | Returned cs => Returned (c :: cs)
          | Failed f => Failed f
          end
      end
  end.

(** def csv_bytes_to_rows(csv_bytes, encoding, auto_convert_types)

    [decoded] is what [csv_bytes.decode(encoding)] gives.  The first row
    of the reader is the field names; an exception of the reader comes
    after the rows it yielded. *)
Definition csv_bytes_to_rows (max_str_digits : N) (decoded : result string)
    (auto_convert_types : bool) : outcome (list (Dict.t value)) :=
  match decoded with
  | Raise e => Failed (Raised e)
  | Ok csv_string =>
      match Csv.reader_rows Csv.parse_reset (splitlines csv_string) None with
      | ([], Some e) => Failed (Raised e)
      | ([], None) => Returned []
      | (fieldnames :: data, stop) =>
          match rows_of max_str_digits auto_convert_types fieldnames data with
          | Failed f => Failed f
          | Returned rows =>
              match stop with
              | Some e => Failed (Raised e)
              | None => Returned rows
              end
          end
      end
  end.

End SupaBaseRows.

(* ================================================================== *)
(** ** Facts about the rows of the storage wrapper *)
(* ================================================================== *)

Module RowsFacts.

Import Py SupaBaseCsvParser SupaBaseRows DictFacts.

(** *** Dictionaries filled in a loop *)

Lemma In_keys_set {V : Type} (d : Dict.t V) (k k' : string) (v : V) :
  In k (Dict.keys (Dict.set d k' v)) <-> k = k' \/ In k (Dict.keys d).
Proof.
  destruct (in_dec string_dec k' (Dict.keys d)) as [I|N].
  - rewrite keys_set_old by exact I. split; [tauto|].
    intros [E|H]; [subst; exact I|exact H].
  - rewrite keys_set_new by exact N. rewrite in_app_iff. cbn [In].
    split; [intros [H|[H|[]]]; auto|intros [H|H]; auto].
Qed.

Section FoldSet.
Context {A V : Type}.
Variable f : A -> string.
Variable g : A -> V.

Definition fill (l : list A) (d : Dict.t V) : Dict.t V :=
  fold_left (fun d x => Dict.set d (f x) (g x)) l d.

Lemma keys_fill (l : list A) :
  forall d k,
    In k (Dict.keys (fill l d)) <-> In k (Dict.keys d) \/ In k (map f l).
Proof.
  induction l as [|x r IH]; intros d k; cbn [fill fold_left map In].
  - tauto.
  - fold (fill r (Dict.set d (f x) (g x))). rewrite IH, In_keys_set.
    split; [intros [[H|H]|H]|intros [H|[H|H]]]; auto.
Qed.

Lemma NoDup_keys_fill (l : list A) :
  forall d, NoDup (Dict.keys d) -> NoDup (Dict.keys (fill l d)).
Proof.
  induction l as [|x r IH]; intros d H; cbn [fill fold_left]; [exact H|].
  apply IH, HistogramFacts.NoDup_keys_set, H.
Qed.

Lemma get_fill_other (l : list A) :
  forall d k, ~ In k (map f l) -> Dict.get (fill l d) k = Dict.get d k.
Proof.
  induction l as [|x r IH]; intros d k H; cbn [fill fold_left];
    [reflexivity|].
  fold (fill r (Dict.set d (f x) (g x))).
  cbn [map In] in H. rewrite IH by tauto. rewrite get_set.
  destruct (String.eqb_spec (f x) k) as [E|N]; [tauto|reflexivity].
Qed.

(** With keys that differ, what was stored under a key is found there. *)
Lemma get_fill (l : list A) :
  forall d x,
    NoDup (map f l) -> In x l -> Dict.get (fill l d) (f x) = Some (g x).
Proof.
  induction l as [|x0 r IH]; intros d x ND Hin; [contradiction|].
  cbn [map] in ND. inversion ND as [|? ? Hn ND']; subst.
  cbn [fill fold_left]. fold (fill r (Dict.set d (f x0) (g x0))).
  destruct Hin as [E|Hin].
  - subst x0. rewrite get_fill_other by exact Hn.
    rewrite get_set, String.eqb_refl. reflexivity.
  - apply IH; assumption.
Qed.
End FoldSet.

Lemma map_fst_combine {A B : Type} (l1 : list A) (l2 : list B) :
  map fst (combine l1 l2) = firstn (List.length l2) l1.
Proof.
  revert l2. induction l1 as [|a r IH]; intros [|b l2]; cbn; try reflexivity.
  rewrite IH. reflexivity.
Qed.

(** *** One row *)

Lemma zip_row_fill (fieldnames row : list string) :
  zip_row fieldnames row =
  fill fst (fun kv : string * string => Some (snd kv))
       (combine fieldnames row) [].
Proof. reflexivity. Qed.

(** A row no longer than the field names has a cell or None under every
    field name, and under nothing else. *)
Lemma reader_dict_keys (fieldnames row : list string) :
  List.length row <= List.length fieldnames ->
  rest (reader_dict fieldnames row) = None /\
  NoDup (Dict.keys (named (reader_dict fieldnames row))) /\
  forall k, In k (Dict.keys (named (reader_dict fieldnames row)))
            <-> In k fieldnames.
Proof.
  intros Hle. unfold reader_dict. cbv zeta.
  apply Nat.ltb_ge in Hle. rewrite Hle. cbn [rest named].
  split; [reflexivity|].
  change (fold_left (fun d key => Dict.set d key None)
                    (skipn (List.length row) fieldnames)
                    (zip_row fieldnames row))
    with (fill (fun key : string => key) (fun _ => @None string)
               (skipn (List.length row) fieldnames)
               (zip_row fieldnames row)).
  split.
  - apply NoDup_keys_fill. rewrite zip_row_fill.
    apply NoDup_keys_fill. constructor.
  - intros k. rewrite keys_fill, zip_row_fill, keys_fill.
    rewrite map_id, map_fst_combine. cbn [Dict.keys map In].
    rewrite <- (firstn_skipn (List.length row) fieldnames) at 3.
    rewrite in_app_iff. tauto.
Qed.

Lemma reader_dict_long (fieldnames row : list string) :
  List.length fieldnames < List.length row ->
  rest (reader_dict fieldnames row)
  = Some (skipn (List.length fieldnames) row).
Proof.
  intros H. unfold reader_dict. cbv zeta.
  apply Nat.ltb_lt in H. rewrite H. reflexivity.
Qed.

Lemma clean_named_keys (m : N) (auto : bool) (d : Dict.t (option string)) :
  NoDup (Dict.keys (clean_named m auto d)) /\
  forall k, In k (Dict.keys (clean_named m auto d))
            <-> In k (map strip (Dict.keys d)).
Proof.
  unfold clean_named.
  change (fold_left _ d [])
    with (fill (fun kv : string * option string => strip (fst kv))
               (fun kv => clean_value m auto (snd kv)) d []).
  split.
  - apply NoDup_keys_fill. constructor.
  - intros k. rewrite keys_fill. unfold Dict.keys at 2. rewrite map_map.
    cbn [Dict.keys map In]. tauto.
Qed.

(** *** All rows *)

Definition is_empty_row (row : list string) : bool :=
  match row with [] => true | _ => false end.

Lemma rows_of_long (m : N) (auto : bool) (fieldnames : list string)
    (data : list (list string)) :
  (exists row, In row data /\ List.length fieldnames < List.length row) ->
  rows_of m auto fieldnames data = Failed AttributeError.
Proof.
  induction data as [|row more IH]; intros [r [Hin Hlen]]; [contradiction|].
  cbn [rows_of].
  destruct (Nat.lt_ge_cases (List.length fieldnames) (List.length row))
    as [L|G].
  - destruct row as [|c cs]; [cbn in L; lia|].
    unfold clean_row. rewrite (reader_dict_long _ _ L). reflexivity.
  - assert (Hmore : rows_of m auto fieldnames more = Failed AttributeError).
    { apply IH. destruct Hin as [E|Hin]; [subst r; lia|].
      exists r. split; assumption. }
    destruct row as [|c cs]; [exact Hmore|].
    unfold clean_row.
    rewrite (proj1 (reader_dict_keys fieldnames (c :: cs) G)).
    rewrite Hmore. reflexivity.
Qed.

Lemma rows_of_short (m : N) (auto : bool) (fieldnames : list string)
    (data : list (list string)) :
  (forall row, In row data -> List.length row <= List.length fieldnames) ->
  exists rows,
    rows_of m auto fieldnames data = Returned rows /\
    List.length rows
    = List.length (filter (fun row => negb (is_empty_row row)) data) /\
    forall c, In c rows ->
              NoDup (Dict.keys c) /\
              forall k, In k (Dict.keys c) <-> In k (map strip fieldnames).
Proof.
  induction data as [|row more IH]; intros H.
  - exists []. repeat split; contradiction.
  - destruct IH as [rows [Hr [Hlen Hkeys]]].
    { intros r Hr. apply H. right. exact Hr. }
    destruct row as [|c cs].
    + exists rows. cbn [rows_of filter is_empty_row negb].
      split; [exact Hr|]. split; [exact Hlen|exact Hkeys].
    + pose proof (reader_dict_keys fieldnames (c :: cs)
                    (H _ (or_introl eq_refl))) as [Hrest [Hnd Hk]].
      exists (clean_named m auto (named (reader_dict fieldnames (c :: cs)))
              :: rows).
      cbn [rows_of filter is_empty_row negb List.length].
      unfold clean_row. rewrite Hrest, Hr.
      split; [reflexivity|]. split; [rewrite Hlen; reflexivity|].
      intros d [E|Hin]; [|apply Hkeys; exact Hin]. subst d.
      destruct (clean_named_keys m auto
                  (named (reader_dict fieldnames (c :: cs)))) as [H1 H2].
      split; [exact H1|]. intros k. rewrite H2, !in_map_iff.
      split; intros [x [E Hx]]; exists x; (split; [exact E|]);
        apply Hk; exact Hx.
Qed.

(** A data row with more cells than the header has field names stops the
    conversion with an AttributeError, whatever else the text holds; when
    no row is that long and the reader raises nothing, there is a record
    for each data row that is not empty, and the keys of every record
    are the stripped field names, each once. *)
Theorem rows_or_attribute_error (m : N) (auto : bool) (csv_string : string)
    (fieldnames : list string) (data : list (list string))
    (stop : option exn) :
  Csv.reader_rows Csv.parse_reset (splitlines csv_string) None
  = (fieldnames :: data, stop) ->
  ((exists row, In row data /\ List.length fieldnames < List.length row) ->
   csv_bytes_to_rows m (Ok csv_string) auto = Failed AttributeError) /\
  ((forall row, In row data -> List.length row <= List.length fieldnames) ->
   match stop with
   | Some e => csv_bytes_to_rows m (Ok csv_string) auto = Failed (Raised e)
   | None =>
       exists rows,
         csv_bytes_to_rows m (Ok csv_string) auto = Returned rows /\
         List.length rows
         = List.length (filter (fun row => negb (is_empty_row row)) data) /\
         forall c, In c rows ->
                   NoDup (Dict.keys c) /\
                   forall k, In k (Dict.keys c) <-> In k (map strip fieldnames)
   end).
Proof.
  intros Hreader. unfold csv_bytes_to_rows. rewrite Hreader. split.
  - intros Hlong. rewrite (rows_of_long m auto fieldnames data Hlong).
    reflexivity.
  - intros Hshort.
    destruct (rows_of_short m auto fieldnames data Hshort)
      as [rows [Hr [Hlen Hkeys]]].
    rewrite Hr. destruct stop as [e|]; [reflexivity|].
    exists rows. split; [reflexivity|]. split; [exact Hlen|exact Hkeys].
Qed.

Definition LF : string := String (ascii_of_nat 10) "".

Definition sample_text : string :=
  " id ,name,score" ++ LF ++ "7, Ann ,2.5" ++ LF ++ LF ++ "8,Bob" ++ LF.

Lemma rows_or_attribute_error_witness :
  ((exists row, In row [["7"; " Ann "; "2.5"]; []; ["8"; "Bob"]]
                /\ 3 < List.length row) ->
   csv_bytes_to_rows 4300 (Ok sample_text) true = Failed AttributeError) /\
  ((forall row, In row [["7"; " Ann "; "2.5"]; []; ["8"; "Bob"]] ->
                List.length row <= 3) ->
   exists rows,
     csv_bytes_to_rows 4300 (Ok sample_text) true = Returned rows /\
     List.length rows = 2 /\
     forall c, In c rows ->
               NoDup (Dict.keys c) /\
               forall k, In k (Dict.keys c)
                         <-> In k (map strip [" id "; "name"; "score"])).
Proof.
  apply (rows_or_attribute_error 4300 true sample_text
           [" id "; "name"; "score"]
           [["7"; " Ann "; "2.5"]; []; ["8"; "Bob"]] None).
  vm_compute. reflexivity.
Defined.

Example sample_text_rows :
  csv_bytes_to_rows 4300 (Ok sample_text) true =
  Returned [[("id", PyInt 7); ("name", PyStr "Ann"); ("score", PyFloat "2.5")];
            [("id", PyInt 8); ("name", PyStr "Bob"); ("score", PyNone)]].
Proof. vm_compute. reflexivity. Qed.

Example long_row_text :
  csv_bytes_to_rows 4300 (Ok ("a,b" ++ LF ++ "1,2,3" ++ LF)) true
  = Failed AttributeError.
Proof. vm_compute. reflexivity. Qed.


(** *** Looking a cell up *)

Lemma NoDup_map_injective {A B : Type} (f : A -> B) (l : list A) :
  NoDup (map f l) ->
  forall a b, In a l -> In b l -> f a = f b -> a = b.
Proof.
  induction l as [|x r IH]; intros ND a b Ha Hb E; [contradiction|].
  cbn [map] in ND. inversion ND as [|? ? Hn ND']; subst.
  destruct Ha as [Ha|Ha], Hb as [Hb|Hb].
  - congruence.
  - subst x. exfalso. apply Hn. rewrite E. apply in_map. exact Hb.
  - subst x. exfalso. apply Hn. rewrite <- E. apply in_map. exact Ha.
  - apply IH; assumption.
Qed.

Lemma NoDup_map_incl {A B : Type} (f : A -> B) (l l' : list A) :
  NoDup (map f l) -> NoDup l' -> incl l' l -> NoDup (map f l').
Proof.
  intros ND. induction l' as [|a r IH]; intros ND' Hincl; [constructor|].
  inversion ND' as [|? ? Hn ND'']; subst. cbn [map]. constructor.
  - intros H. apply in_map_iff in H. destruct H as [b [E Hb]].
    assert (b = a).
    { apply (NoDup_map_injective f l ND); [| |exact E].
      - apply Hincl. right. exact Hb.
      - apply Hincl. left. reflexivity. }
    subst b. contradiction.
  - apply IH; [exact ND''|]. intros x Hx. apply Hincl. right. exact Hx.
Qed.

Lemma In_combine_nth {A B : Type} (l1 : list A) (l2 : list B) :
  forall i a b,
    nth_error l1 i = Some a -> nth_error l2 i = Some b ->
    In (a, b) (combine l1 l2).
Proof.
  revert l2.
  induction l1 as [|x r IH]; intros [|y l2] [|i] a b H1 H2;
    cbn in *; try discriminate.
  - inversion H1. inversion H2. left. reflexivity.
  - right. eapply IH; eassumption.
Qed.

Lemma nth_error_firstn_In {A : Type} (l : list A) (n i : nat) (a : A) :
  nth_error l i = Some a -> i < n -> In a (firstn n l).
Proof.
  revert n i. induction l as [|x r IH]; intros [|n] [|i] H L; cbn in *;
    try discriminate; try lia.
  - inversion H. left. reflexivity.
  - right. apply (IH n i); [exact H|lia].
Qed.

Lemma nth_error_skipn_In {A : Type} (l : list A) (n i : nat) (a : A) :
  nth_error l i = Some a -> n <= i -> In a (skipn n l).
Proof.
  revert n i. induction l as [|x r IH]; intros [|n] [|i] H L; cbn in *;
    try discriminate; try lia.
  - inversion H. left. reflexivity.
  - right. apply nth_error_In in H. exact H.
  - apply (IH n i); [exact H|lia].
Qed.

Lemma NoDup_firstn_skipn {A : Type} (l : list A) (n : nat) (a : A) :
  NoDup l -> In a (firstn n l) -> ~ In a (skipn n l).
Proof.
  intros ND H1 H2. rewrite <- (firstn_skipn n l) in ND.
  apply NoDup_app_remove_l in ND as ND2.
  revert ND H1 H2. generalize (skipn n l) as back.
  induction (firstn n l) as [|x r IH]; intros back ND H1 H2;
    [contradiction|].
  cbn [app] in ND. inversion ND as [|? ? Hn ND']; subst.
  destruct H1 as [E|H1].
  - subst x. apply Hn. apply in_or_app. right. exact H2.
  - apply (IH back ND' H1 H2).
Qed.

(** The cell of a row under a field name, before cleaning. *)
Lemma reader_dict_get (fieldnames row : list string) (i : nat)
    (name : string) :
  NoDup fieldnames ->
  List.length row <= List.length fieldnames ->
  nth_error fieldnames i = Some name ->
  Dict.get (named (reader_dict fieldnames row)) name
  = Some (nth_error row i).
Proof.
  intros ND Hle Hname. unfold reader_dict. cbv zeta.
  apply Nat.ltb_ge in Hle as Hle'. rewrite Hle'. cbn [named].
  change (fold_left (fun d key => Dict.set d key None)
                    (skipn (List.length row) fieldnames)
                    (zip_row fieldnames row))
    with (fill (fun key : string => key) (fun _ => @None string)
               (skipn (List.length row) fieldnames)
               (zip_row fieldnames row)).
  destruct (Nat.lt_ge_cases i (List.length row)) as [L|G].
  - destruct (nth_error row i) as [cell|] eqn:Ec;
      [|apply nth_error_None in Ec; lia].
    rewrite get_fill_other.
    + rewrite zip_row_fill.
      apply (get_fill fst (fun kv : string * string => Some (snd kv))
                      (combine fieldnames row) [] (name, cell)).
      * rewrite map_fst_combine.
        rewrite <- (firstn_skipn (List.length row) fieldnames) in ND.
        apply NoDup_app_remove_r in ND. exact ND.
      * eapply In_combine_nth; eassumption.
    + rewrite map_id. apply NoDup_firstn_skipn; [exact ND|].
      eapply nth_error_firstn_In; eassumption.
  - rewrite (proj2 (nth_error_None row i) G).
    apply (get_fill (fun key : string => key) (fun _ => @None string)
                    (skipn (List.length row) fieldnames)
                    (zip_row fieldnames row) name).
    + rewrite map_id.
      rewrite <- (firstn_skipn (List.length row) fieldnames) in ND.
      apply NoDup_app_remove_l in ND. exact ND.
    + eapply nth_error_skipn_In; eassumption.
Qed.

(** When the stripped field names differ from each other, every cell of
    a row is found, cleaned, under the stripped name of its column, and a
    column the row has no cell for holds None. *)
Theorem cell_lookup (m : N) (auto : bool) (fieldnames row : list string)
    (i : nat) (name : string) :
  NoDup (map strip fieldnames) ->
  List.length row <= List.length fieldnames ->
  nth_error fieldnames i = Some name ->
  clean_row m auto (reader_dict fieldnames row)
  = Returned (clean_named m auto (named (reader_dict fieldnames row))) /\
  Dict.get (clean_named m auto (named (reader_dict fieldnames row)))
           (strip name)
  = Some (clean_value m auto (nth_error row i)) /\
  (List.length row <= i ->
   Dict.get (clean_named m auto (named (reader_dict fieldnames row)))
            (strip name) = Some PyNone).
Proof.
  intros ND Hle Hname.
  destruct (reader_dict_keys fieldnames row Hle) as [Hrest [Hnd Hk]].
  split; [unfold clean_row; rewrite Hrest; reflexivity|].
  assert (Hget : Dict.get (clean_named m auto (named (reader_dict fieldnames row)))
                          (strip name)
                 = Some (clean_value m auto (nth_error row i))).
  { pose proof (reader_dict_get fieldnames row i name
                  (NoDup_map_inv _ _ ND) Hle Hname) as Hg.
    apply get_In in Hg. unfold clean_named.
    apply (get_fill (fun kv : string * option string => strip (fst kv))
                    (fun kv => clean_value m auto (snd kv))
                    (named (reader_dict fieldnames row)) []
                    (name, nth_error row i)); [|exact Hg].
    rewrite <- (map_map fst strip).
    apply (NoDup_map_incl strip fieldnames); [exact ND|exact Hnd|].
    intros k Hin. apply Hk. exact Hin. }
  split; [exact Hget|].
  intros G. rewrite Hget, (proj2 (nth_error_None row i) G).
  unfold clean_value. cbn [option_map]. destruct auto; reflexivity.
Qed.

Lemma cell_lookup_witness :
  clean_row 4300 true (reader_dict [" id "; "name"; "score"] ["8"; "Bob"])
  = Returned (clean_named 4300 true
                (named (reader_dict [" id "; "name"; "score"] ["8"; "Bob"]))) /\
  Dict.get (clean_named 4300 true
              (named (reader_dict [" id "; "name"; "score"] ["8"; "Bob"])))
           (strip " id ")
  = Some (clean_value 4300 true (nth_error ["8"; "Bob"] 0)) /\
  (List.length ["8"; "Bob"] <= 0 ->
   Dict.get (clean_named 4300 true
               (named (reader_dict [" id "; "name"; "score"] ["8"; "Bob"])))
            (strip " id ") = Some PyNone).
Proof.
  apply (cell_lookup 4300 true [" id "; "name"; "score"] ["8"; "Bob"] 0 " id ").
  - vm_compute. repeat constructor; cbn; intuition discriminate.
  - cbn. lia.
  - reflexivity.
Defined.

(** Field names that are the same once stripped share one key: the cell
    of the later column is the one kept. *)
Example colliding_field_names :
  csv_bytes_to_rows 4300 (Ok (" a ,a" ++ LF ++ "x,y" ++ LF)) false
  = Returned [[("a", PyStr "y")]].
Proof. vm_compute. reflexivity. Qed.

End RowsFacts.
(* ================================================================== *)
(** ** [src/n8n/supaBaseCsvParser.py]: fetching from the bucket *)
(* ================================================================== *)

Module SupaBaseFetch.

Import Py SupaBaseCsvParser SupaBaseRows.

(** The calls that leave the program. *)
Inductive call : Type :=
| CreateClient (url key : string)
| Download (bucket path : string).

(** Truth of a value that is a string or None. *)
Definition nonempty (v : option string) : option string :=
  match v with
  | Some s => if String.eqb s "" then None else Some s
  | None => None
  end.

(** [a or b] *)
Definition or_ (a b : option string) : option string :=
  match nonempty a with
  | Some _ => a
  | None => b
  end.

Section Fetch.

(** What lies outside the module: the environment once [load_dotenv()]
    has run, the Supabase library, the decoder and the encoder. *)
Variable Client : Type.
Variable bytes : Type.
Variable library_error : Type.
Variable getenv : string -> option string.
Variable create_client : string -> string -> Client + library_error.
Variable storage_download : Client -> string -> string -> bytes + library_error.
Variable decode_utf8 : bytes -> result string.
Variable toon_encode : string -> list (Dict.t value) -> string + library_error.
Variable max_str_digits : N.

(** What ends a call early: an exception the module raises itself, one
    that comes out of a library, or one from inside [csv_bytes_to_rows]. *)
Inductive stop : Type :=
| Config (e : exn)
| Outside (e : library_error)
| Conversion (f : failure).

(** A computation: the calls it made, in order, and how it ended. *)
Definition traced (A : Type) : Type := (list call * (A + stop))%type.

Definition calls {A : Type} (m : traced A) : list call := fst m.
Definition result_of {A : Type} (m : traced A) : A + stop := snd m.

Definition ret {A : Type} (a : A) : traced A := ([], inl a).
Definition raise {A : Type} (s : stop) : traced A := ([], inr s).

Definition then_ {A B : Type} (m : traced A) (k : A -> traced B) : traced B :=
  match m with
  | (t, inl a) => ((t ++ calls (k a))%list, result_of (k a))
  | (t, inr s) => (t, inr s)
  end.

Definition external {A : Type} (c : call) (r : A + library_error) : traced A :=
  ([c], match r with
        | inl a => inl a
        | inr e => inr (Outside e)
        end).

Definition local {A : Type} (r : A + library_error) : traced A :=
  match r with
  | inl a => ret a
  | inr e => raise (Outside e)
  end.

(** def get_supabase_client() -> Client *)
Definition get_supabase_client : traced Client :=
  let url := getenv "SUPABASE_URL" in
  let key := getenv "SUPABASE_KEY" in
  match nonempty url, nonempty key with
  | Some url, Some key => external (CreateClient url key) (create_client url key)
  | _, _ =>
      raise (Config (ValueError
        "Missing Supabase credentials. Ensure SUPABASE_URL and SUPABASE_KEY are set in your .env file."))
  end.

(** def download_csv_from_bucket(client, bucket_name, file_path) -> bytes *)
Definition download_csv_from_bucket (client : Client)
    (bucket_name file_path : string)
  : traced bytes :=
  external (Download bucket_name file_path)
           (storage_download client bucket_name file_path).

(** [csv_bytes_to_rows(csv_bytes)], with the defaults of its other
    arguments. *)
Definition rows_of_bytes (csv_bytes : bytes) : traced (list (Dict.t value)) :=
  match csv_bytes_to_rows max_str_digits (decode_utf8 csv_bytes) true with
  | Returned rows => ret rows
  | Failed f => raise (Conversion f)
  end.

(** def rows_to_toon(rows, root_name) -> str *)
Definition rows_to_toon (rows : list (Dict.t value)) (root_name : string)
  : traced string :=
  local (toon_encode root_name rows).

(** def fetch_kickstart_csv_as_toon(root_name) -> str *)
Definition fetch_kickstart_csv_as_toon (root_name : string) : traced string :=
  let bucket_name := getenv "SUPABASE_BUCKET_NAME" in
  let csv_filename := getenv "KICKSTART_CSV_NAME" in
  match nonempty bucket_name with
  | None => raise (Config (ValueError
              "SUPABASE_BUCKET_NAME not set in environment."))
  | Some bucket_name =>
      match nonempty csv_filename with
      | None => raise (Config (ValueError
                  "KICKSTART_CSV_NAME not set in environment."))
      | Some csv_filename =>
          then_ get_supabase_client (fun client =>
          then_ (download_csv_from_bucket client bucket_name csv_filename)
                (fun csv_bytes =>
          then_ (rows_of_bytes csv_bytes) (fun rows =>
          rows_to_toon rows root_name)))
      end
  end.

(** def fetch_csv_as_rows(bucket_name=None, file_path=None) *)
Definition fetch_csv_as_rows (bucket_name file_path : option string)
  : traced (list (Dict.t value)) :=
  let bucket := or_ bucket_name (getenv "SUPABASE_BUCKET_NAME") in
  let file_name := or_ file_path (getenv "KICKSTART_CSV_NAME") in
  match nonempty bucket with
  | None => raise (Config (ValueError
              "Bucket name must be provided or set via SUPABASE_BUCKET_NAME."))
  | Some bucket =>
      match nonempty file_name with
      | None => raise (Config (ValueError
                  "File path must be provided or set via KICKSTART_CSV_NAME."))
      | Some file_name =>
          then_ get_supabase_client (fun client =>
          then_ (download_csv_from_bucket client bucket file_name)
                (fun csv_bytes =>
          rows_of_bytes csv_bytes))
      end
  end.

(** def fetch_csv_as_toon(bucket_name=None, file_path=None, root_name) *)
Definition fetch_csv_as_toon (bucket_name file_path : option string)
    (root_name : string) : traced string :=
  let bucket := or_ bucket_name (getenv "SUPABASE_BUCKET_NAME") in
  let file_name := or_ file_path (getenv "KICKSTART_CSV_NAME") in
  match nonempty bucket with
  | None => raise (Config (ValueError
              "Bucket name must be provided or set via SUPABASE_BUCKET_NAME."))
  | Some bucket =>
      match nonempty file_name with
      | None => raise (Config (ValueError
                  "File path must be provided or set via KICKSTART_CSV_NAME."))
      | Some file_name =>
          then_ get_supabase_client (fun client =>
          then_ (download_csv_from_bucket client bucket file_name)
                (fun csv_bytes =>
          then_ (rows_of_bytes csv_bytes) (fun rows =>
          rows_to_toon rows root_name)))
      end
  end.

(** def fetch_kickstart_csv_as_json() *)
Definition fetch_kickstart_csv_as_json : traced (list (Dict.t value)) :=
  fetch_csv_as_rows None None.

End Fetch.

End SupaBaseFetch.
(* ================================================================== *)
(** ** Facts about fetching *)
(* ================================================================== *)

Module FetchFacts.

Import Py SupaBaseCsvParser SupaBaseRows SupaBaseFetch.

Section Facts.

Variable client : Type.
Variable bytes : Type.
Variable library_error : Type.
Variable getenv : string -> option string.
Variable create_client : string -> string -> client + library_error.
Variable storage_download : client -> string -> string -> bytes + library_error.
Variable decode_utf8 : bytes -> result string.
Variable toon_encode : string -> list (Dict.t value) -> string + library_error.
Variable max_str_digits : N.

(** The configuration a fetch works with: an argument that is given and
    not empty, and the variable of the environment otherwise. *)
Definition bucket_of (bucket_name : option string) : option string :=
  nonempty (or_ bucket_name (getenv "SUPABASE_BUCKET_NAME")).

Definition file_of (file_path : option string) : option string :=
  nonempty (or_ file_path (getenv "KICKSTART_CSV_NAME")).

Definition url_of : option string := nonempty (getenv "SUPABASE_URL").
Definition key_of : option string := nonempty (getenv "SUPABASE_KEY").

Definition is_value_error (s : stop library_error) : Prop :=
  exists msg, s = Config library_error (ValueError msg).

Lemma nonempty_idem (v : option string) (s : string) :
  nonempty v = Some s -> v = Some s.
Proof.
  destruct v as [t|]; cbn; [|discriminate].
  destruct (String.eqb t ""); [discriminate|]. intros H. exact H.
Qed.

Lemma or_given (a b : option string) (s : string) :
  nonempty a = Some s -> nonempty (or_ a b) = Some s.
Proof. intros H. unfold or_. rewrite H. exact H. Qed.

Lemma or_missing (a b : option string) :
  nonempty a = None -> nonempty (or_ a b) = nonempty b.
Proof. intros H. unfold or_. rewrite H. reflexivity. Qed.

Lemma then_assoc {A B C : Type} (m : traced library_error A)
    (f : A -> traced library_error B) (g : B -> traced library_error C) :
  then_ library_error (then_ library_error m f) g
  = then_ library_error m (fun a => then_ library_error (f a) g).
Proof.
  destruct m as [t [a|s]]; [|reflexivity].
  unfold then_ at 2 3. destruct (f a) as [t' [b|s]]; cbn.
  - rewrite app_assoc. reflexivity.
  - reflexivity.
Qed.

(** The client, then the download, then the rows (lines 235-238). *)
Definition fetch_rows (bucket file_name : string)
  : traced library_error (list (Dict.t value)) :=
  then_ library_error
    (get_supabase_client client library_error getenv create_client)
    (fun c =>
       then_ library_error
         (download_csv_from_bucket client bytes library_error
            storage_download c bucket file_name)
         (rows_of_bytes bytes library_error decode_utf8 max_str_digits)).

(** The same three steps followed by the encoder (lines 174-178 and
    206-210) are [fetch_rows] followed by the encoder. *)
Lemma fetch_rows_then {B : Type} (bucket file_name : string)
    (k : list (Dict.t value) -> traced library_error B) :
  then_ library_error
    (get_supabase_client client library_error getenv create_client)
    (fun c =>
       then_ library_error
         (download_csv_from_bucket client bytes library_error
            storage_download c bucket file_name)
         (fun csv_bytes =>
            then_ library_error
              (rows_of_bytes bytes library_error decode_utf8 max_str_digits
                 csv_bytes) k))
  = then_ library_error (fetch_rows bucket file_name) k.
Proof.
  unfold fetch_rows. rewrite then_assoc.
  destruct (get_supabase_client _ _ _ _) as [t [c|s]]; [|reflexivity].
  unfold then_ at 1 4. rewrite then_assoc. reflexivity.
Qed.

(** The client, then the download: what [fetch_rows] does with a bucket
    and a file. *)
Lemma fetch_rows_calls (bucket file_name : string) :
  match url_of, key_of with
  | Some url, Some key =>
      match create_client url key with
      | inr e =>
          fetch_rows bucket file_name
          = ([CreateClient url key], inr (Outside library_error e))
      | inl c =>
          calls library_error (fetch_rows bucket file_name)
          = [CreateClient url key; Download bucket file_name]
      end
  | _, _ =>
      calls library_error (fetch_rows bucket file_name) = [] /\
      exists s, result_of library_error (fetch_rows bucket file_name) = inr s /\
                is_value_error s
  end.
Proof.
  unfold fetch_rows, get_supabase_client, url_of, key_of.
  destruct (nonempty (getenv "SUPABASE_URL")) as [url|];
    [destruct (nonempty (getenv "SUPABASE_KEY")) as [key|]|].
  - unfold external, then_. destruct (create_client url key) as [c|e];
      [|reflexivity].
    unfold download_csv_from_bucket, external.
    destruct (storage_download c bucket file_name) as [b|e]; [|reflexivity].
    unfold rows_of_bytes.
    destruct (csv_bytes_to_rows _ _ _); reflexivity.
  - split; [reflexivity|]. eexists. split; [reflexivity|].
    eexists. reflexivity.
  - split; [reflexivity|]. eexists. split; [reflexivity|].
    eexists. reflexivity.
Qed.

(** [fetch_csv_as_rows] reaches outside only with a complete
    configuration: it makes no call exactly when the bucket, the file,
    the URL or the key is missing or empty, and then raises a ValueError;
    every call it makes is the creation of the client with the URL and
    the key of the environment, or the download of the file from the
    bucket, and a download comes only after a client was created. *)
Theorem no_call_without_configuration (bucket_name file_path : option string) :
  let run := fetch_csv_as_rows client bytes library_error getenv create_client
               storage_download decode_utf8 max_str_digits
               bucket_name file_path in
  (calls library_error run = [] <->
   bucket_of bucket_name = None \/ file_of file_path = None \/
   url_of = None \/ key_of = None) /\
  (calls library_error run = [] ->
   exists s, result_of library_error run = inr s /\ is_value_error s) /\
  (calls library_error run <> [] ->
   exists bucket file_name url key,
     bucket_of bucket_name = Some bucket /\ file_of file_path = Some file_name /\
     url_of = Some url /\ key_of = Some key /\
     (calls library_error run = [CreateClient url key] \/
      calls library_error run
      = [CreateClient url key; Download bucket file_name])).
Proof.
  cbv zeta. unfold fetch_csv_as_rows, bucket_of, file_of.
  destruct (nonempty (or_ bucket_name (getenv "SUPABASE_BUCKET_NAME")))
    as [bucket|].
  2:{ split; [|split].
      - split; [intros _; left; reflexivity|reflexivity].
      - intros _. eexists. split; [reflexivity|]. eexists. reflexivity.
      - intros H. exfalso. apply H. reflexivity. }
  destruct (nonempty (or_ file_path (getenv "KICKSTART_CSV_NAME")))
    as [file_name|].
  2:{ split; [|split].
      - split; [intros _; right; left; reflexivity|reflexivity].
      - intros _. eexists. split; [reflexivity|]. eexists. reflexivity.
      - intros H. exfalso. apply H. reflexivity. }
  pose proof (fetch_rows_calls bucket file_name) as H.
  change (then_ library_error _ _) with (fetch_rows bucket file_name).
  destruct url_of as [url|]; [destruct key_of as [key|]|].
  - assert (Hc : calls library_error (fetch_rows bucket file_name)
                 = [CreateClient url key] \/
                 calls library_error (fetch_rows bucket file_name)
                 = [CreateClient url key; Download bucket file_name]).
    { destruct (create_client url key); [right; exact H|].
      left. rewrite H. reflexivity. }
    split; [|split].
    + split.
      * intros E. destruct Hc as [Hc|Hc]; rewrite Hc in E; discriminate.
      * intros [E|[E|[E|E]]]; discriminate.
    + intros E. destruct Hc as [Hc|Hc]; rewrite Hc in E; discriminate.
    + intros _. exists bucket, file_name, url, key.
      repeat (split; [reflexivity|]). exact Hc.
  - destruct H as [Hc Hs]. split; [|split].
    + split; [intros _; right; right; right; reflexivity|intros _; exact Hc].
    + intros _. exact Hs.
    + intros Hn. contradiction.
  - destruct H as [Hc Hs]. split; [|split].
    + split; [intros _; right; right; left; reflexivity|intros _; exact Hc].
    + intros _. exact Hs.
    + intros Hn. contradiction.
Qed.

(** The three fetchers are one: [fetch_csv_as_toon] makes the calls of
    [fetch_csv_as_rows] and encodes its rows, and
    [fetch_kickstart_csv_as_toon] is [fetch_csv_as_toon] without a bucket
    and a file, up to the text of the ValueError when the bucket or the
    file is not configured. *)
Theorem fetchers_agree (bucket_name file_path : option string)
    (root_name : string) :
  let rows := fetch_csv_as_rows client bytes library_error getenv
                create_client storage_download decode_utf8 max_str_digits
                bucket_name file_path in
  let toon := fetch_csv_as_toon client bytes library_error getenv
                create_client storage_download decode_utf8 toon_encode
                max_str_digits in
  let kickstart := fetch_kickstart_csv_as_toon client bytes library_error
                     getenv create_client storage_download decode_utf8
                     toon_encode max_str_digits root_name in
  calls library_error (toon bucket_name file_path root_name)
  = calls library_error rows /\
  result_of library_error (toon bucket_name file_path root_name)
  = match result_of library_error rows with
    | inl found =>
        match toon_encode root_name found with
        | inl text => inl text
        | inr e => inr (Outside library_error e)
        end
    | inr s => inr s
    end /\
  (kickstart = toon None None root_name \/
   calls library_error kickstart = [] /\
   calls library_error (toon None None root_name) = [] /\
   (exists s, result_of library_error kickstart = inr s /\ is_value_error s) /\
   (exists s, result_of library_error (toon None None root_name) = inr s /\
              is_value_error s)).
Proof.
  cbv zeta. split; [|split].
  - unfold fetch_csv_as_toon, fetch_csv_as_rows.
    destruct (nonempty (or_ bucket_name _)) as [bucket|]; [|reflexivity].
    destruct (nonempty (or_ file_path _)) as [file_name|]; [|reflexivity].
    rewrite fetch_rows_then.
    change (calls library_error
              (then_ library_error (fetch_rows bucket file_name)
                     (fun rows => rows_to_toon library_error toon_encode
                                    rows root_name))
            = calls library_error (fetch_rows bucket file_name)).
    unfold then_.
    destruct (fetch_rows bucket file_name) as [t [found|halt]];
      [|reflexivity].
    unfold rows_to_toon, local.
    destruct (toon_encode root_name found); cbn; apply app_nil_r.
  - unfold fetch_csv_as_toon, fetch_csv_as_rows.
    destruct (nonempty (or_ bucket_name _)) as [bucket|]; [|reflexivity].
    destruct (nonempty (or_ file_path _)) as [file_name|]; [|reflexivity].
    rewrite fetch_rows_then.
    change (then_ library_error (get_supabase_client client library_error getenv create_client) _)
      with (fetch_rows bucket file_name).
    unfold then_.
    destruct (fetch_rows bucket file_name) as [t [found|halt]];
      [|reflexivity].
    unfold rows_to_toon, local, result_of. cbn [snd].
    destruct (toon_encode root_name found); reflexivity.
  - unfold fetch_kickstart_csv_as_toon, fetch_csv_as_toon.
    rewrite !or_missing by reflexivity.
    destruct (nonempty (getenv "SUPABASE_BUCKET_NAME")).
    + destruct (nonempty (getenv "KICKSTART_CSV_NAME")).
      * left. reflexivity.
      * right. repeat split; try reflexivity;
          (eexists; split; [reflexivity|]; eexists; reflexivity).
    + right. repeat split; try reflexivity;
        (eexists; split; [reflexivity|]; eexists; reflexivity).
Qed.

End Facts.

(** An argument that is given and not empty wins over the environment;
    an empty one does not. *)
Example argument_or_environment :
  let getenv := fun name : string =>
    if String.eqb name "SUPABASE_BUCKET_NAME" then Some "bills" else None in
  bucket_of getenv (Some "laws") = Some "laws" /\
  bucket_of getenv (Some "") = Some "bills" /\
  bucket_of getenv None = Some "bills" /\
  file_of getenv (Some "") = None.
Proof. vm_compute. repeat split. Qed.

End FetchFacts.
(* ================================================================== *)
(** ** What [infer_type] calls a date *)
(* ================================================================== *)

Module DateFacts.

Import Py PyFacts CsvAnalyzer InferenceFacts.

(** [sep.join(parts)] for a one-character separator. *)
Fixpoint join (sep : ascii) (parts : list string) : string :=
  match parts with
  | [] => EmptyString
  | a :: rest =>
      match rest with
      | [] => a
      | _ :: _ => a ++ String sep (join sep rest)
      end
  end.

(** No character of the text is the separator. *)
Definition without (sep : ascii) (s : string) : bool :=
  str_all (fun c => negb (Ascii.eqb c sep)) s.

Definition slash : ascii := "/"%char.

Lemma split_not_nil (sep : ascii) (s : string) : split sep s <> [].
Proof.
  destruct s as [|c r]; cbn [split]; [discriminate|].
  destruct (Ascii.eqb c sep); [discriminate|].
  destruct (split sep r); discriminate.
Qed.

(** Joining what [split] gave is the text again. *)
Lemma join_split (sep : ascii) (s : string) : join sep (split sep s) = s.
Proof.
  induction s as [|c r IH]; [reflexivity|]. cbn [split].
  destruct (Ascii.eqb c sep) eqn:E.
  - apply Ascii.eqb_eq in E. subst c.
    pose proof (split_not_nil sep r) as Hn.
    destruct (split sep r) as [|p ps]; [contradiction|].
    cbn [join] in IH |- *. rewrite IH. reflexivity.
  - pose proof (split_not_nil sep r) as Hn.
    destruct (split sep r) as [|p ps]; [contradiction|].
    cbn [join] in IH |- *. destruct ps as [|p' ps'].
    + rewrite IH. reflexivity.
    + cbn [append]. rewrite IH. reflexivity.
Qed.

Lemma split_without (sep : ascii) (a : string) :
  without sep a = true -> split sep a = [a].
Proof.
  induction a as [|c r IH]; [reflexivity|]. unfold without. cbn [str_all split].
  intros H. apply andb_prop in H. destruct H as [Hc Hr].
  apply Bool.negb_true_iff in Hc. rewrite Hc.
  rewrite (IH Hr). reflexivity.
Qed.

Lemma split_app (sep : ascii) (a rest : string) :
  without sep a = true ->
  split sep (a ++ String sep rest) = a :: split sep rest.
Proof.
  induction a as [|c r IH]; unfold without; cbn [str_all append split].
  - intros _. rewrite Ascii.eqb_refl. reflexivity.
  - intros H. apply andb_prop in H. destruct H as [Hc Hr].
    apply Bool.negb_true_iff in Hc. rewrite Hc.
    rewrite (IH Hr). reflexivity.
Qed.

Lemma isdigit_without_slash (a : string) :
  isdigit a = true -> without slash a = true.
Proof.
  intros H. assert (Ha : str_all isdigit_char a = true).
  { destruct a; [discriminate|exact H]. }
  clear H. unfold without. induction a as [|c r IH]; [reflexivity|].
  cbn [str_all] in *. apply andb_prop in Ha. destruct Ha as [Hc Hr].
  rewrite (IH Hr), Bool.andb_true_r. apply Bool.negb_true_iff.
  apply Ascii.eqb_neq. intros E. subst c. discriminate Hc.
Qed.

Lemma length_append (a b : string) :
  String.length (a ++ b) = String.length a + String.length b.
Proof. induction a as [|c r IH]; cbn; [reflexivity|]. rewrite IH. reflexivity. Qed.

Lemma contains_after (a rest : string) :
  contains "/" (a ++ String slash rest) = true.
Proof.
  induction a as [|c r IH].
  - cbn [append contains String.prefix].
    destruct (ascii_dec "/" slash) as [_|N];
      [destruct rest; reflexivity|].
    exfalso. apply N. reflexivity.
  - cbn [append contains]. rewrite IH. apply Bool.orb_true_r.
Qed.

(** Three runs of digits with a slash between them. *)
Definition slashed (a b c : string) : string :=
  a ++ String slash (b ++ String slash c).

Lemma digits_not_url (a rest : string) :
  isdigit a = true -> url_rule (a ++ rest) = false.
Proof.
  destruct a as [|d r]; [discriminate|]. cbn [isdigit str_all]. intros H.
  apply andb_prop in H. destruct H as [Hd _].
  unfold url_rule, startswith. cbn [append String.prefix].
  destruct (ascii_dec "h" d) as [E|_]; [|reflexivity].
  subst d. discriminate Hd.
Qed.

Lemma date_rule_slashed (a b c : string) :
  isdigit a = true -> isdigit b = true -> isdigit c = true ->
  String.length a + String.length b + String.length c = 8 ->
  date_rule (slashed a b c) = true.
Proof.
  intros Ha Hb Hc Hl. unfold date_rule, slashed.
  rewrite contains_after.
  rewrite (split_app slash a _ (isdigit_without_slash a Ha)).
  rewrite (split_app slash b _ (isdigit_without_slash b Hb)).
  rewrite (split_without slash c (isdigit_without_slash c Hc)).
  cbn [List.length forallb Nat.eqb]. rewrite Ha, Hb, Hc.
  rewrite length_append. cbn [String.length]. rewrite length_append.
  cbn [String.length].
  replace (String.length a + S (String.length b + S (String.length c)))
    with 10 by lia.
  reflexivity.
Qed.

Lemma slashed_date_rule (v : string) :
  date_rule v = true ->
  exists a b c,
    v = slashed a b c /\
    isdigit a = true /\ isdigit b = true /\ isdigit c = true /\
    String.length a + String.length b + String.length c = 8.
Proof.
  unfold date_rule. intros H.
  apply andb_prop in H. destruct H as [H Hparts].
  apply andb_prop in H. destruct H as [_ Hlen].
  cbv zeta in Hparts. apply andb_prop in Hparts. destruct Hparts as [H3 Hd].
  pose proof (join_split "/" v) as Hj.
  destruct (split "/" v) as [|a [|b [|c [|x more]]]]; try discriminate H3.
  cbn [forallb] in Hd.
  apply andb_prop in Hd. destruct Hd as [Ha Hd].
  apply andb_prop in Hd. destruct Hd as [Hb Hd].
  apply andb_prop in Hd. destruct Hd as [Hc _].
  exists a, b, c. cbn [join] in Hj.
  split; [symmetry; exact Hj|]. repeat (split; [assumption|]).
  apply Nat.eqb_eq in Hlen. rewrite <- Hj in Hlen.
  rewrite length_append in Hlen. cbn [String.length] in Hlen.
  rewrite length_append in Hlen. cbn [String.length] in Hlen. lia.
Qed.

(** A value is typed [date] exactly when, stripped, it is ten characters
    long and made of three runs of digits with a slash after the first
    and after the second: nothing asks the runs to be a month, a day and a
    year, and a value written with dashes is never a date. *)
Theorem date_iff_three_digit_runs (cfg : config) (s : string) :
  infer_type cfg s = "date" <->
  exists a b c,
    strip s = slashed a b c /\
    isdigit a = true /\ isdigit b = true /\ isdigit c = true /\
    String.length a + String.length b + String.length c = 8.
Proof.
  rewrite infer_type_rules. split.
  - destruct (String.eqb s "" || String.eqb (strip s) ""); [discriminate|].
    destruct (url_rule (strip s)); [discriminate|].
    destruct (date_rule (strip s)) eqn:D.
    + intros _. apply slashed_date_rule. exact D.
    + destruct (int_of_str (max_str_digits cfg) (strip s)); [discriminate|].
      destruct (float_ok (strip s)); discriminate.
  - intros [a [b [c [E [Ha [Hb [Hc Hl]]]]]]].
    assert (Hblank : String.eqb s "" || String.eqb (strip s) "" = false).
    { apply Bool.orb_false_iff. split.
      - apply String.eqb_neq. intros E0. subst s.
        destruct a; [discriminate Ha|discriminate E].
      - apply String.eqb_neq. rewrite E.
        destruct a; [discriminate Ha|discriminate]. }
    rewrite Hblank, E.
    unfold slashed at 1. rewrite (digits_not_url a _ Ha).
    rewrite (date_rule_slashed a b c Ha Hb Hc Hl). reflexivity.
Qed.

Example dates_by_shape :
  infer_type default_config "01/15/2024" = "date" /\
  infer_type default_config " 1/1/202456 " = "date" /\
  infer_type default_config "2024-01-15" = "string" /\
  infer_type default_config "1/15/2024" = "string".
Proof. vm_compute. repeat split. Qed.

(** The type of a value is the type of the value stripped: white space
    around a cell never changes how it is typed. *)
Theorem infer_type_ignores_padding (cfg : config) (s : string) :
  infer_type cfg (strip s) = infer_type cfg s.
Proof.
  rewrite !infer_type_rules.
  assert (Hs : strip (strip s) = strip s).
  { unfold strip. apply strip_strip. intros c H. exact H. }
  rewrite Hs.
  destruct (String.eqb (strip s) "") eqn:E.
  - rewrite !Bool.orb_true_r. reflexivity.
  - rewrite !Bool.orb_false_r.
    destruct (String.eqb s "") eqn:E0; [|reflexivity].
    apply String.eqb_eq in E0. subst s. discriminate E.
Qed.

End DateFacts.
